(** * Storefront backend: shallow embedding of [main.py] and [schemas.py]

    The handlers of [main.py] are embedded as functions over an explicit
    model of the document store.  Python dictionaries are finite maps from
    field names to values, collections are lists of documents in insertion
    order, the process-wide handle [db] is an [option database], the clock
    ([datetime.utcnow()]) is an argument, and exceptions are the non-[Ok]
    constructors of [result].

    The store encodes what it is given as BSON: an integer outside 64
    bits is refused ([OverflowError]) and a timestamp is kept to the
    millisecond.  Strings are sequences of 8-bit characters; the pattern
    matcher and the case folding are those of ASCII text, and [$regex]
    patterns are interpreted for a fragment of the pattern language (see
    [Regex]); a request whose pattern lies outside that fragment has the
    outcome [Unmodelled].  Sorting is modelled for keys that name a
    top-level field. *)

From Stdlib Require Import ZArith QArith String Ascii List Bool Lia DecimalString.
From Stdlib Require Import Sorted Permutation.
From stdpp Require Import gmap strings list fin_maps.

Open Scope string_scope.

(** ** Characters and strings *)

Module Str.

Definition chars (s : string) : list ascii := list_ascii_of_string s.

Definition of_chars (l : list ascii) : string := string_of_list_ascii l.

Definition is_upper (c : ascii) : bool :=
  (65 <=? nat_of_ascii c)%nat && (nat_of_ascii c <=? 90)%nat.

Definition is_lower (c : ascii) : bool :=
  (97 <=? nat_of_ascii c)%nat && (nat_of_ascii c <=? 122)%nat.

Definition is_digit (c : ascii) : bool :=
  (48 <=? nat_of_ascii c)%nat && (nat_of_ascii c <=? 57)%nat.

(** [str.lower()] on one character (ASCII letters). *)
Definition lower_char (c : ascii) : ascii :=
  if is_upper c then ascii_of_nat (nat_of_ascii c + 32) else c.

Definition lower (s : string) : string := of_chars (map lower_char (chars s)).

(** [s.startswith(p)] *)
Definition startswith (p s : string) : bool := String.prefix p s.

(** [s[1:]] *)
Definition tail (s : string) : string :=
  match s with
  | EmptyString => EmptyString
  | String _ r => r
  end.

(** Python truthiness of a string. *)
Definition nonempty (s : string) : bool :=
  match s with
  | EmptyString => false
  | String _ _ => true
  end.

(** [str(n)] for a natural number. *)
Definition of_N (n : N) : string := NilZero.string_of_uint (N.to_uint n).

(** [str(n)] for an integer. *)
Definition of_Z (z : Z) : string :=
  match z with
  | Zneg p => "-" ++ of_N (Npos p)
  | _ => of_N (Z.to_N z)
  end.

(** ["%0wd" % n] for a natural number. *)
Definition zpad (w : nat) (n : N) : string :=
  let s := of_N n in
  of_chars (repeat "0"%char (w - String.length s)) ++ s.

End Str.

(** ** BSON values, ObjectIds and timestamps *)

Module Bson.

(** An ObjectId, held as the lower-case hexadecimal digits that
    [str(oid)] prints: 24 of them for the 12 bytes of a generated
    identifier, fewer for one parsed from a string with blanks. *)
Definition ObjectId := string.

Definition is_hex (c : ascii) : bool :=
  Str.is_digit c
  || ((97 <=? nat_of_ascii c)%nat && (nat_of_ascii c <=? 102)%nat)
  || ((65 <=? nat_of_ascii c)%nat && (nat_of_ascii c <=? 70)%nat).

(** ASCII white space ([Py_ISSPACE]): tab, line feed, vertical tab, form
    feed, carriage return and space. *)
Definition is_space (c : ascii) : bool :=
  (nat_of_ascii c =? 32)%nat
  || ((9 <=? nat_of_ascii c)%nat && (nat_of_ascii c <=? 13)%nat).

(** [bytes.fromhex(s)], the bytes printed as lower-case hexadecimal
    digits: white space is skipped before each byte and at the end, and
    each byte is two adjacent hexadecimal digits.  [None] stands for
    raising [ValueError]. *)
Fixpoint fromhex (s : list ascii) : option (list ascii) :=
  match s with
  | [] => Some []
  | c :: rest =>
      if is_space c then fromhex rest
      else
        match rest with
        | d :: rest' =>
            if is_hex c && is_hex d
            then option_map (fun t => Str.lower_char c :: Str.lower_char d :: t) (fromhex rest')
            else None
        | [] => None
        end
  end.

(** [ObjectId(s)] for a string: a string of 24 characters is handed to
    [bytes.fromhex], every other string is refused.  [None] stands for
    raising [InvalidId]. *)
Definition parse_oid (s : string) : option ObjectId :=
  if (String.length s =? 24)%nat
  then option_map Str.of_chars (fromhex (Str.chars s))
  else None.

(** [ObjectId.is_valid(s)] for a string: whether [ObjectId(s)] succeeds. *)
Definition is_valid (s : string) : bool :=
  match parse_oid s with
  | Some _ => true
  | None => false
  end.

Definition hex_digit (n : N) : ascii :=
  if (n <? 10)%N then ascii_of_N (48 + n) else ascii_of_N (87 + n).

Fixpoint hex_digits (w : nat) (n : N) (acc : list ascii) : list ascii :=
  match w with
  | O => acc
  | S w' => hex_digits w' (n / 16)%N (hex_digit (n mod 16)%N :: acc)
  end.

(** The identifier the store generates for its [n]-th insertion.  The
    real generator mixes time, a random value and a counter; only that it
    yields a well-formed identifier is used. *)
Definition oid_of_N (n : N) : ObjectId := Str.of_chars (hex_digits 24 n []).

(** [datetime.datetime] is a record of calendar fields. *)
Record datetime := mkDatetime {
  year : N; month : N; day : N;
  hour : N; minute : N; second : N; microsecond : N }.

(** What the store keeps of a timestamp: BSON dates count milliseconds. *)
Definition trunc_ms (t : datetime) : datetime :=
  {| year := year t; month := month t; day := day t;
     hour := hour t; minute := minute t; second := second t;
     microsecond := (microsecond t / 1000 * 1000)%N |}.

(** [datetime.isoformat()] *)
Definition isoformat (t : datetime) : string :=
  Str.zpad 4 (year t) ++ "-" ++ Str.zpad 2 (month t) ++ "-" ++ Str.zpad 2 (day t)
  ++ "T" ++ Str.zpad 2 (hour t) ++ ":" ++ Str.zpad 2 (minute t) ++ ":"
  ++ Str.zpad 2 (second t)
  ++ (if (microsecond t =? 0)%N then "" else "." ++ Str.zpad 6 (microsecond t)).

(** Field values.  Python [float]s are held as rationals: the handlers
    only compare them and add small integers to them, and the validators
    ([ge=0]) exclude NaN. *)
Inductive value :=
  | VNull
  | VBool (b : bool)
  | VInt (z : Z)
  | VFloat (q : Q)
  | VStr (s : string)
  | VList (l : list string)
  | VOid (o : ObjectId)
  | VDate (t : datetime).

(** Python truthiness ([if v:]). *)
Definition truthy (v : value) : bool :=
  match v with
  | VNull => false
  | VBool b => b
  | VInt z => negb (z =? 0)%Z
  | VFloat q => negb (Qeq_bool q 0)
  | VStr s => Str.nonempty s
  | VList l => match l with [] => false | _ => true end
  | VOid _ => true
  | VDate _ => true
  end.

(** The integers BSON can hold: 64 bits, signed. *)
Definition int64 (z : Z) : bool := (- 2 ^ 63 <=? z)%Z && (z <? 2 ^ 63)%Z.

(** Whether the BSON encoder takes the value; it raises [OverflowError]
    for an integer outside 64 bits. *)
Definition encodable (v : value) : bool :=
  match v with
  | VInt z => int64 z
  | _ => true
  end.

(** The value as the store holds it. *)
Definition stored (v : value) : value :=
  match v with
  | VDate t => VDate (trunc_ms t)
  | _ => v
  end.

(** A Python dictionary holding a document.  The key ["_id"] is kept
    apart from the other keys because the store fills it with an ObjectId
    it generates (no handler supplies one); [fields] holds every other
    key. *)
Record document := mkDoc { _id : option ObjectId; fields : gmap string value }.

(** [doc.get(k)]: [None] when the key is absent. *)
Definition get (k : string) (d : document) : option value :=
  if decide (k = "_id") then VOid <$> _id d else fields d !! k.

(** [doc[k] = v] for a key other than ["_id"]. *)
Definition set (k : string) (v : value) (d : document) : document :=
  {| _id := _id d; fields := <[k := v]> (fields d) |}.

(** [not doc]: the dictionary has no key at all. *)
Definition is_empty (d : document) : bool :=
  match _id d with
  | Some _ => false
  | None => bool_decide (fields d = ∅)
  end.

(** *** Comparison order of the store *)

(** Rank of the BSON type of a value in the store's sort order. *)
Definition rank (v : value) : nat :=
  match v with
  | VNull => 1
  | VInt _ | VFloat _ => 2
  | VStr _ => 3
  | VList _ => 5
  | VOid _ => 7
  | VBool _ => 8
  | VDate _ => 9
  end.

Definition num (v : value) : option Q :=
  match v with
  | VInt z => Some (inject_Z z)
  | VFloat q => Some q
  | _ => None
  end.

Fixpoint lex_leb (a b : list N) : bool :=
  match a, b with
  | [], _ => true
  | _ :: _, [] => false
  | x :: a', y :: b' =>
      if (x <? y)%N then true else if (y <? x)%N then false else lex_leb a' b'
  end.

Definition dt_fields (t : datetime) : list N :=
  [year t; month t; day t; hour t; minute t; second t; microsecond t].

Definition dt_leb (s t : datetime) : bool := lex_leb (dt_fields s) (dt_fields t).

(** [leb a b]: [a] sorts no later than [b].  Values of different types
    are ordered by [rank]; numbers compare numerically, strings and
    ObjectIds by their characters, [false] before [true], timestamps by
    their fields. *)
Definition leb (a b : value) : bool :=
  match Nat.compare (rank a) (rank b) with
  | Lt => true
  | Gt => false
  | Eq =>
      match a, b with
      | VBool x, VBool y => implb x y
      | VStr s, VStr t => String.leb s t
      | VOid s, VOid t => String.leb s t
      | VDate s, VDate t => dt_leb s t
      | _, _ =>
          match num a, num b with
          | Some x, Some y => Qle_bool x y
          | _, _ => true
          end
      end
  end.

(** Equality as the store's query matcher decides it. *)
Definition eqb (a b : value) : bool :=
  match a, b with
  | VNull, VNull => true
  | VBool x, VBool y => Bool.eqb x y
  | VStr s, VStr t => String.eqb s t
  | VOid s, VOid t => String.eqb s t
  | VList l, VList m => bool_decide (l = m)
  | VDate s, VDate t => dt_leb s t && dt_leb t s
  | _, _ =>
      match num a, num b with
      | Some x, Some y => Qeq_bool x y
      | _, _ => false
      end
  end.

End Bson.

(** ** Regular expressions of the store ([$regex]) *)

Module Regex.

Local Open Scope list_scope.

(** Regular expressions over characters; [Chr p] matches one character
    satisfying [p]. *)
Inductive re :=
  | Empty
  | Eps
  | Chr (p : ascii -> bool)
  | Cat (r s : re)
  | Alt (r s : re)
  | Star (r : re).

Fixpoint nullable (r : re) : bool :=
  match r with
  | Empty => false
  | Eps => true
  | Chr _ => false
  | Cat r s => nullable r && nullable s
  | Alt r s => nullable r || nullable s
  | Star _ => true
  end.

(** Derivative of [r] by the character [c]. *)
Fixpoint deriv (c : ascii) (r : re) : re :=
  match r with
  | Empty => Empty
  | Eps => Empty
  | Chr p => if p c then Eps else Empty
  | Cat r s =>
      if nullable r then Alt (Cat (deriv c r) s) (deriv c s)
      else Cat (deriv c r) s
  | Alt r s => Alt (deriv c r) (deriv c s)
  | Star r => Cat (deriv c r) (Star r)
  end.

(** [r] matches the whole of [s]. *)
Fixpoint matches (r : re) (s : list ascii) : bool :=
  match s with
  | [] => nullable r
  | c :: s' => matches (deriv c r) s'
  end.

Definition any : re := Star (Chr (fun _ => true)).

(** [r] matches somewhere in [s] (an unanchored search). *)
Definition search (r : re) (s : list ascii) : bool :=
  matches (Cat any (Cat r any)) s.

(** *** Pattern syntax

    The modelled fragment of the pattern language: a sequence of atoms,
    each optionally followed by one of the quantifiers [*], [+], [?].  An
    atom is a character without special meaning, [.] (any character but a
    line feed), or a backslash followed by a character that is neither a
    letter nor a digit (that character, literally). *)

Definition is_meta (c : ascii) : bool :=
  existsb (Ascii.eqb c) (Str.chars "\^$.|?*+()[]{}").

Definition is_alnum (c : ascii) : bool :=
  Str.is_digit c || Str.is_upper c || Str.is_lower c.

Inductive atom := ALit (c : ascii) | ADot.

Inductive quant := QStar | QPlus | QOpt.

Inductive token := TAtom (a : atom) | TQuant (q : quant).

Fixpoint tokens (p : list ascii) : option (list token) :=
  match p with
  | [] => Some []
  | c :: rest =>
      if Ascii.eqb c "\" then
        match rest with
        | e :: rest' =>
            if is_alnum e then None
            else option_map (cons (TAtom (ALit e))) (tokens rest')
        | [] => None
        end
      else if Ascii.eqb c "." then option_map (cons (TAtom ADot)) (tokens rest)
      else if Ascii.eqb c "*" then option_map (cons (TQuant QStar)) (tokens rest)
      else if Ascii.eqb c "+" then option_map (cons (TQuant QPlus)) (tokens rest)
      else if Ascii.eqb c "?" then option_map (cons (TQuant QOpt)) (tokens rest)
      else if is_meta c then None
      else option_map (cons (TAtom (ALit c))) (tokens rest)
  end.

(** The expression of an atom.  Without regard to case, a letter
    matches its other case among the ASCII letters: the matcher is that
    of ASCII text (see [Spec.text_modelled]). *)
Definition atom_re (caseless : bool) (a : atom) : re :=
  match a with
  | ALit c =>
      if caseless
      then Chr (fun x => Ascii.eqb (Str.lower_char x) (Str.lower_char c))
      else Chr (Ascii.eqb c)
  | ADot => Chr (fun x => negb (Ascii.eqb x "010"))
  end.

Definition quant_re (q : quant) (r : re) : re :=
  match q with
  | QStar => Star r
  | QPlus => Cat r (Star r)
  | QOpt => Alt r Eps
  end.

(** Builds the expression of a token sequence; a quantifier that does not
    follow an atom is rejected. *)
Fixpoint build (caseless : bool) (ts : list token) : option re :=
  match ts with
  | [] => Some Eps
  | TAtom a :: TQuant q :: rest =>
      option_map (Cat (quant_re q (atom_re caseless a))) (build caseless rest)
  | TAtom a :: rest => option_map (Cat (atom_re caseless a)) (build caseless rest)
  | TQuant _ :: _ => None
  end.

(** [compile caseless p]: the expression of pattern [p], or [None] when
    [p] lies outside the modelled fragment. *)
Definition compile (caseless : bool) (p : string) : option re :=
  match tokens (Str.chars p) with
  | Some ts => build caseless ts
  | None => None
  end.

(** A pattern that is certainly malformed: it has an opening parenthesis
    and nothing that could close it or take its meaning away (no closing
    parenthesis, no backslash, no bracket). *)
Definition malformed (p : string) : bool :=
  let has c := existsb (Ascii.eqb c) (Str.chars p) in
  has "("%char && negb (has ")"%char) && negb (has "\"%char) && negb (has "["%char).

(** The language of an expression: the strings it matches as a whole. *)
Inductive lang : re -> list ascii -> Prop :=
  | L_eps : lang Eps []
  | L_chr p c : p c = true -> lang (Chr p) [c]
  | L_cat r s u v : lang r u -> lang s v -> lang (Cat r s) (u ++ v)
  | L_alt_l r s u : lang r u -> lang (Alt r s) u
  | L_alt_r r s u : lang s u -> lang (Alt r s) u
  | L_star_nil r : lang (Star r) []
  | L_star_app r u v : lang r u -> lang (Star r) v -> lang (Star r) (u ++ v).

(** The expression of a caseless pattern made of the characters [q],
    none of them special. *)
Definition lit_re (q : list ascii) : re :=
  foldr (fun c r => Cat (Chr (fun x => Ascii.eqb (Str.lower_char x) (Str.lower_char c))) r) Eps q.

End Regex.

(** ** Outcomes of a request *)

(** Exceptions that escape a handler other than [HTTPException]; the
    framework answers them with status 500. *)
Inductive exn :=
  | InvalidId          (* bson.errors.InvalidId *)
  | TypeError          (* e.g. subscripting [None] *)
  | ValidationError    (* pydantic, raised inside a handler *)
  | RequestValidation  (* a parameter rejected before the handler runs *)
  | OverflowError      (* the BSON encoder: an integer outside 64 bits *)
  | QueryRejected      (* the store refusing a query, here for a malformed pattern
                          ([pymongo.errors.OperationFailure] from a server) *)
  | Unavailable.       (* the absent [database.py] signalling that there is no store *)

Inductive result (A : Type) :=
  | Ok (a : A)
  | HTTPException (status_code : Z) (detail : string)
  | Raised (e : exn)
  | Unmodelled. (* a [$regex] pattern on which the model is silent *)

Arguments Ok {A} a.
Arguments HTTPException {A} status_code detail.
Arguments Raised {A} e.
Arguments Unmodelled {A}.

(** Status code of the response, where the model determines it. *)
Definition status {A} (r : result A) : option Z :=
  match r with
  | Ok _ => Some 200%Z
  | HTTPException c _ => Some c
  | Raised RequestValidation => Some 422%Z
  | Raised _ => Some 500%Z
  | Unmodelled => None
  end.

Definition bind {A B} (r : result A) (f : A -> result B) : result B :=
  match r with
  | Ok a => f a
  | HTTPException c d => HTTPException c d
  | Raised e => Raised e
  | Unmodelled => Unmodelled
  end.

Notation "'do' x <- r ; k" := (bind r (fun x => k))
  (at level 10, x name, r at level 100, k at level 200).

(** ** The document store *)

Module Store.

Import Bson.
Local Open Scope list_scope.

(** Conditions on one field, as the handlers write them. *)
Inductive cond :=
  | CEq (v : value)                      (* {k: v} *)
  | CRegex (pattern options : string)    (* {k: {"$regex": p, "$options": o}} *)
  | CRange (gte lte : option Q).         (* {k: {"$gte": a, "$lte": b}}, either key optional *)

(** One key of a filter dictionary. *)
Inductive clause :=
  | Field (k : string) (c : cond)
  | Or (alts : list (string * cond)).    (* {"$or": [{k1: c1}, {k2: c2}, ...]} *)

(** A filter dictionary: the conjunction of its keys. *)
Definition filt := list clause.

Definition caseless_of (options : string) : option bool :=
  if String.eqb options "i" then Some true
  else if String.eqb options "" then Some false
  else None.

Definition compile_cond (pattern options : string) : option Regex.re :=
  match caseless_of options with
  | Some ci => Regex.compile ci pattern
  | None => None
  end.

Definition cond_ok (c : cond) : bool :=
  match c with
  | CRegex p o => match compile_cond p o with Some _ => true | None => false end
  | _ => true
  end.

Definition clause_ok (cl : clause) : bool :=
  match cl with
  | Field _ c => cond_ok c
  | Or alts => forallb (fun kc => cond_ok (snd kc)) alts
  end.

(** Every pattern of the filter lies in the modelled fragment. *)
Definition filt_ok (f : filt) : bool := forallb clause_ok f.

(** A malformed pattern of the filter is put to a text field of the
    document. *)
Definition cond_bad (c : cond) (v : option value) : bool :=
  match c, v with
  | CRegex p _, Some (VStr _ | VList _) => Regex.malformed p
  | _, _ => false
  end.

Definition clause_bad (cl : clause) (d : document) : bool :=
  match cl with
  | Field k c => cond_bad c (get k d)
  | Or alts => existsb (fun kc => cond_bad (snd kc) (get (fst kc) d)) alts
  end.

(** The store refuses the query: a server does so for every malformed
    pattern, when it reads the query; the model says so where a document
    of the collection has a text field the pattern is put to. *)
Definition filt_bad (f : filt) (coll : list document) : bool :=
  existsb (fun d => existsb (fun cl => clause_bad cl d) f) coll.

Definition regex_on (r : Regex.re) (v : option value) : bool :=
  match v with
  | Some (VStr s) => Regex.search r (Str.chars s)
  | Some (VList l) => existsb (fun s => Regex.search r (Str.chars s)) l
  | _ => false
  end.

Definition range_on (gte lte : option Q) (v : option value) : bool :=
  match v with
  | Some x =>
      match num x with
      | Some p =>
          match gte with Some a => Qle_bool a p | None => true end
          && match lte with Some b => Qle_bool p b | None => true end
      | None => false
      end
  | None => false
  end.

(** Equality match: an absent field equals null, and an array field
    matches a string it contains. *)
Definition eq_on (x : value) (v : option value) : bool :=
  let fv := default VNull v in
  eqb fv x
  || match fv, x with
     | VList l, VStr s => existsb (String.eqb s) l
     | _, _ => false
     end.

Definition eval_cond (c : cond) (v : option value) : bool :=
  match c with
  | CEq x => eq_on x v
  | CRegex p o =>
      match compile_cond p o with
      | Some r => regex_on r v
      | None => false
      end
  | CRange gte lte => range_on gte lte v
  end.

Definition eval_clause (cl : clause) (d : document) : bool :=
  match cl with
  | Field k c => eval_cond c (get k d)
  | Or alts => existsb (fun kc => eval_cond (snd kc) (get (fst kc) d)) alts
  end.

(** The document satisfies every key of the filter. *)
Definition matchb (f : filt) (d : document) : bool := forallb (fun cl => eval_clause cl d) f.

(** *** Sorting *)

Definition min_str (x : string) (l : list string) : string :=
  fold_left (fun m s => if String.leb s m then s else m) l x.

Definition max_str (x : string) (l : list string) : string :=
  fold_left (fun m s => if String.leb m s then s else m) l x.

(** The key a document is sorted by, for a key that names a top-level
    field: an absent field sorts as null, an array by its least element
    (ascending) or greatest element (descending), and an empty array
    ([None]) before everything.  What the store makes of any other key
    (the empty key of [sort="-"], a key with ["$"] or ["."]) is not
    modelled: no statement about the order of a listing covers it. *)
Definition sort_key (desc : bool) (v : option value) : option value :=
  match v with
  | None => Some VNull
  | Some (VList []) => None
  | Some (VList (x :: l)) => Some (VStr (if desc then max_str x l else min_str x l))
  | Some x => Some x
  end.

Definition key_leb (a b : option value) : bool :=
  match a, b with
  | None, _ => true
  | Some _, None => false
  | Some x, Some y => leb x y
  end.

(** [before k dir a b]: [a] may precede [b] when sorting by field [k] in
    direction [dir] (1 ascending, -1 descending). *)
Definition before (k : string) (dir : Z) (a b : document) : bool :=
  if (dir <? 0)%Z
  then key_leb (sort_key true (get k b)) (sort_key true (get k a))
  else key_leb (sort_key false (get k a)) (sort_key false (get k b)).

Fixpoint insert_sorted {A} (le : A -> A -> bool) (x : A) (l : list A) : list A :=
  match l with
  | [] => [x]
  | y :: l' => if le x y then x :: l else y :: insert_sorted le x l'
  end.

(** Stable sort: documents with equal keys keep their order. *)
Definition sort_by {A} (le : A -> A -> bool) (l : list A) : list A :=
  foldr (insert_sorted le) [] l.

(** *** Cursors *)

Record cursor := mkCursor {
  cur_coll : list document;          (* the collection queried *)
  cur_filt : filt;
  cur_sort : option (string * Z);
  cur_skip : Z;
  cur_limit : Z }.

(** [collection.find(filt)] *)
Definition find (coll : list document) (f : filt) : cursor :=
  {| cur_coll := coll; cur_filt := f; cur_sort := None; cur_skip := 0; cur_limit := 0 |}.

(** [cursor.sort(key, direction)] *)
Definition sort (key : string) (direction : Z) (c : cursor) : cursor :=
  {| cur_coll := cur_coll c; cur_filt := cur_filt c; cur_sort := Some (key, direction);
     cur_skip := cur_skip c; cur_limit := cur_limit c |}.

(** [cursor.skip(n)] *)
Definition skip (n : Z) (c : cursor) : cursor :=
  {| cur_coll := cur_coll c; cur_filt := cur_filt c; cur_sort := cur_sort c;
     cur_skip := n; cur_limit := cur_limit c |}.

(** [cursor.limit(n)] *)
Definition limit (n : Z) (c : cursor) : cursor :=
  {| cur_coll := cur_coll c; cur_filt := cur_filt c; cur_sort := cur_sort c;
     cur_skip := cur_skip c; cur_limit := n |}.

(** The documents matching the cursor's filter, in the cursor's order,
    before skip and limit. *)
Definition selected (c : cursor) : list document :=
  let m := List.filter (matchb (cur_filt c)) (cur_coll c) in
  match cur_sort c with
  | Some (k, dir) => sort_by (before k dir) m
  | None => m
  end.

(** A limit of 0 means no limit. *)
Definition window (sk lim : Z) (l : list document) : list document :=
  let rest := drop (Z.to_nat sk) l in
  if (lim =? 0)%Z then rest else take (Z.to_nat lim) rest.

(** The outcome of a query whose filter has a pattern outside the
    modelled fragment. *)
Definition beyond {A} (f : filt) (coll : list document) : result A :=
  if filt_bad f coll then Raised QueryRejected else Unmodelled.

(** [list(cursor)] *)
Definition to_list (c : cursor) : result (list document) :=
  if filt_ok (cur_filt c)
  then Ok (window (cur_skip c) (cur_limit c) (selected c))
  else beyond (cur_filt c) (cur_coll c).

(** [collection.count_documents(filt)] *)
Definition count_documents (coll : list document) (f : filt) : result Z :=
  if filt_ok f then Ok (Z.of_nat (length (List.filter (matchb f) coll)))
  else beyond f coll.

(** [cursor.count()], which ignores skip and limit. *)
Definition count (c : cursor) : result Z := count_documents (cur_coll c) (cur_filt c).

(** *** The database handle *)

Record database := mkDb {
  colls : gmap string (list document);
  next_oid : N }.

(** [db[name]]: a collection that was never written to is empty. *)
Definition coll (name : string) (db : database) : list document :=
  default [] (colls db !! name).

(** [collection.find_one(filt)] for a filter without patterns. *)
Definition find_one (coll : list document) (f : filt) : option document :=
  head (List.filter (matchb f) coll).

(** Every value of the document can be encoded. *)
Definition encodable_doc (d : document) : bool :=
  forallb (fun kv => encodable (snd kv)) (map_to_list (fields d)).

(** The identifier a document is stored under: its own, or the next one
    generated. *)
Definition oid_for (d : document) (db : database) : ObjectId :=
  match _id d with
  | Some o => o
  | None => oid_of_N (next_oid db)
  end.

(** The store after it appended the document, as encoded, to the
    collection. *)
Definition put (name : string) (d : document) (db : database) : database :=
  {| colls := <[name := coll name db
                         ++ [{| _id := Some (oid_for d db); fields := stored <$> fields d |}]]>
                (colls db);
     next_oid := N.succ (next_oid db) |}.

(** The store after [n] identifiers were generated and nothing stored. *)
Definition skip_oids (n : N) (db : database) : database :=
  {| colls := colls db; next_oid := (next_oid db + n)%N |}.

(** [db[name].insert_one(doc)]: a document without ["_id"] receives a
    fresh one, then the document is encoded and stored.  Returns
    [inserted_id] and the new state; when the encoder raises, nothing is
    stored. *)
Definition insert_one (name : string) (d : document) (db : database)
  : result ObjectId * database :=
  if encodable_doc d then (Ok (oid_for d db), put name d db)
  else (Raised OverflowError, skip_oids 1 db).

Definition put_all (name : string) (ds : list document) (db : database) : database :=
  fold_left (fun st d => put name d st) ds db.

(** [db[name].insert_many(docs)] for a list that goes to the store in one
    batch: every document receives its identifier, then all are encoded
    and stored.  An empty list is refused. *)
Definition insert_many (name : string) (ds : list document) (db : database)
  : result unit * database :=
  match ds with
  | [] => (Raised TypeError, db)
  | _ :: _ =>
      if forallb encodable_doc ds
      then (Ok tt, put_all name ds db)
      else (Raised OverflowError, skip_oids (N.of_nat (length ds)) db)
  end.

Fixpoint update_first (f : filt) (upd : document -> document) (l : list document)
  : list document * Z :=
  match l with
  | [] => ([], 0%Z)
  | d :: l' =>
      if matchb f d then (upd d :: l', 1%Z)
      else let '(l'', n) := update_first f upd l' in (d :: l'', n)
  end.

(** [{"$set": {k1: v1, ...}}] *)
Definition apply_set (kvs : list (string * value)) (d : document) : document :=
  fold_left (fun d kv => set (fst kv) (snd kv) d) kvs d.

(** [db[name].update_one(filt, {"$set": kvs})]: the update is encoded,
    then the first matching document is updated.  Returns
    [matched_count] and the new state; when the encoder raises, the
    store is not reached. *)
Definition update_one (name : string) (f : filt) (kvs : list (string * value))
  (db : database) : result Z * database :=
  if forallb (fun kv => encodable (snd kv)) kvs then
    let kvs' := map (fun kv => (fst kv, stored (snd kv))) kvs in
    let '(l, n) := update_first f (apply_set kvs') (coll name db) in
    (Ok n, {| colls := if (n =? 0)%Z then colls db else <[name := l]> (colls db);
              next_oid := next_oid db |})
  else (Raised OverflowError, db).

End Store.

(** ** [schemas.py] *)

Module Schemas.

Import Bson.

Inductive Role := RoleUser | RoleAdmin.

Definition role_str (r : Role) : string :=
  match r with RoleUser => "user" | RoleAdmin => "admin" end.

Record User := mkUser {
  name : string;
  email : string;
  password_hash : string;
  address : option string;
  is_active : bool;
  role : Role }.

Section Validation.

(** pydantic's [EmailStr] validator, from the third-party package
    [email-validator]: it either rejects the string or returns the
    address the model will hold. *)
Variable EmailStr : string -> option string.

(** [User(name=.., email=.., password_hash=..)]; [None] stands for
    raising pydantic's [ValidationError]. *)
Definition new_User (name email password_hash : string) : option User :=
  match EmailStr email with
  | Some e =>
      Some {| name := name; email := e; password_hash := password_hash;
              address := None; is_active := true; role := RoleUser |}
  | None => None
  end.

End Validation.

Definition opt_str (o : option string) : value :=
  match o with Some s => VStr s | None => VNull end.

(** [user.model_dump()] *)
Definition User_dump (u : User) : gmap string value :=
  <["name" := VStr (name u)]> (
  <["email" := VStr (email u)]> (
  <["password_hash" := VStr (password_hash u)]> (
  <["address" := opt_str (address u)]> (
  <["is_active" := VBool (is_active u)]> (
  <["role" := VStr (role_str (role u))]> ∅))))).

Record CartItem := mkCartItem {
  client_id : string;
  product_id : string;
  qty : Z }.

(** [qty: int = Field(1, ge=1)] *)
Definition CartItem_valid (c : CartItem) : bool := (1 <=? qty c)%Z.

(** [item.model_dump()] *)
Definition CartItem_dump (c : CartItem) : gmap string value :=
  <["client_id" := VStr (client_id c)]> (
  <["product_id" := VStr (product_id c)]> (
  <["qty" := VInt (qty c)]> ∅)).

End Schemas.

(** ** [main.py] *)

Module Main.

Import Bson Store Schemas.
Local Open Scope list_scope.

(** The handle [db] of the absent module [database.py]: [None] when the
    store is not configured.  A handle that is present is taken to be
    truthy ([if db]). *)
Definition handle := option database.

(** A store operation followed by the rest of the handler: an exception
    of the operation ends the handler, with the store as the operation
    left it. *)
Definition and_then {A B} (r : result A * database)
  (k : A -> database -> result B * handle) : result B * handle :=
  match r with
  | (Ok a, st) => k a st
  | (HTTPException c d, st) => (HTTPException c d, Some st)
  | (Raised e, st) => (Raised e, Some st)
  | (Unmodelled, st) => (Unmodelled, Some st)
  end.

Definition iso (v : value) : value :=
  match v with
  | VDate t => VStr (isoformat t)
  | _ => v
  end.

(** [serialize_doc(doc)].  The result never has the key ["_id"] (it is
    popped when present), so it is a plain map of fields. *)
Definition serialize_doc (doc : document) : gmap string value :=
  if is_empty doc then fields doc
  else
    let doc1 :=
      match _id doc with
      | Some o => <["id" := VStr o]> (fields doc)    (* str(doc.pop("_id")) *)
      | None => <["id" := VNull]> (fields doc)
      end in
    iso <$> doc1.

(** [if doc:] for the result of [find_one]. *)
Definition found (o : option document) : option document :=
  match o with
  | Some d => if is_empty d then None else Some d
  | None => None
  end.

(** [ObjectId(v)] for the value [doc.get(k)] returned. *)
Definition ObjectId_of (v : value) : result ObjectId :=
  match v with
  | VStr s => match parse_oid s with Some o => Ok o | None => Raised InvalidId end
  | VOid o => Ok o
  | _ => Raised TypeError
  end.

(** Modelled from the spec: [create_document] of the absent module
    [database.py].  It inserts the validated record into the named
    collection and returns the created identifier as a string; without a
    store the operation fails. *)
Definition create_document (db : handle) (collection_name : string)
  (data : gmap string value) : result string * handle :=
  match db with
  | None => (Raised Unavailable, None)
  | Some st =>
      and_then (insert_one collection_name {| _id := None; fields := data |} st)
        (fun o st' => (Ok o, Some st'))
  end.

(** *** Auth *)

Record RegisterIn := mkRegisterIn {
  in_name : string; in_email : string; in_password : string }.

Record UserOut := mkUserOut {
  out_id : string; out_name : string; out_email : string; out_role : string }.

Section Register.

Variable EmailStr : string -> option string.

Definition register (db : handle) (payload : RegisterIn) : result UserOut * handle :=
  let existing :=
    match db with
    | Some st => find_one (coll "user" st) [Field "email" (CEq (VStr (in_email payload)))]
    | None => None
    end in
  match found existing with
  | Some _ => (HTTPException 400 "Email already registered", db)
  | None =>
      match new_User EmailStr (in_name payload) (in_email payload) (in_password payload) with
      | None => (Raised ValidationError, db)
      | Some user =>
          match create_document db "user" (User_dump user) with
          | (Ok user_id, db') =>
              (Ok {| out_id := user_id; out_name := name user;
                     out_email := email user; out_role := role_str (role user) |}, db')
          | (HTTPException c d, db') => (HTTPException c d, db')
          | (Raised e, db') => (Raised e, db')
          | (Unmodelled, db') => (Unmodelled, db')
          end
      end
  end.

End Register.

(** *** Products *)

Record ProductPage := mkPage {
  items : list (gmap string value);
  total : Z;
  page : Z;
  pages : Z }.

Definition ge0 (o : option Q) : bool :=
  match o with Some x => Qle_bool 0 x | None => true end.

(** The constraints of the [Query(...)] declarations, which the framework
    checks before the handler body runs. *)
Definition query_valid (min_price max_price : option Q) (page limit : Z) : bool :=
  ge0 min_price && ge0 max_price && (1 <=? page)%Z && (1 <=? limit)%Z && (limit <=? 60)%Z.

(** [if s:] for an optional string. *)
Definition given (o : option string) : option string :=
  match o with
  | Some s => if Str.nonempty s then Some s else None
  | None => None
  end.

(** The filter dictionary [filt] that [list_products] builds. *)
Definition build_filt (q category : option string) (min_price max_price : option Q) : filt :=
  match given q with
  | Some q' => [Or [("title", CRegex q' "i"); ("description", CRegex q' "i")]]
  | None => []
  end
  ++ match given category with
     | Some c => [Field "category" (CEq (VStr c))]
     | None => []
     end
  ++ match min_price, max_price with
     | None, None => []
     | _, _ => [Field "price" (CRange min_price max_price)]
     end.

(** [list_products]; [has_count] is [hasattr(cursor, 'count')], which
    depends on the version of the driver. *)
Definition list_products (has_count : bool) (db : handle)
  (q category : option string) (min_price max_price : option Q)
  (sort : option string) (page limit : Z) : result ProductPage :=
  if negb (query_valid min_price max_price page limit) then Raised RequestValidation
  else
  match db with
  | None => Ok {| items := []; total := 0; page := page; pages := 0 |}
  | Some st =>
      let filt := build_filt q category min_price max_price in
      let cursor := find (coll "product" st) filt in
      let cursor :=
        match given sort with
        | Some sort' =>
            let direction := if Str.startswith "-" sort' then (-1)%Z else 1%Z in
            let key := if Str.startswith "-" sort' then Str.tail sort' else sort' in
            Store.sort key direction cursor
        | None => cursor
        end in
      do total <- (if has_count then count cursor
                   else count_documents (coll "product" st) filt);
      let cursor := Store.limit limit (skip ((page - 1) * limit) cursor) in
      do docs <- to_list cursor;
      let items := map serialize_doc docs in
      Ok {| items := items; total := total; page := page;
            pages := (total + limit - 1) / limit |}
  end.

(** [GET /products]: absent query parameters take their declared
    defaults. *)
Definition get_products (has_count : bool) (db : handle)
  (q category : option string) (min_price max_price : option Q)
  (sort : option string) (page limit : option Z) : result ProductPage :=
  list_products has_count db q category min_price max_price
    (Some (default "-created_at" sort)) (default 1%Z page) (default 12%Z limit).

Definition get_product (db : handle) (product_id : string) : result (gmap string value) :=
  match db with
  | None => HTTPException 500 "Database not available"
  | Some st =>
      do oid <- ObjectId_of (VStr product_id);
      let item := find_one (coll "product" st) [Field "_id" (CEq (VOid oid))] in
      match found item with
      | None => HTTPException 404 "Product not found"
      | Some item => Ok (serialize_doc item)
      end
  end.

(** *** Cart *)

(** A value of a cart row: a field value, or the nested product. *)
Inductive jvalue :=
  | JVal (v : value)
  | JObj (d : gmap string value).

(** One iteration of the loop of [get_cart]. *)
Definition cart_row (st : database) (it : document) : result (gmap string jvalue) :=
  do prod <-
    match get "product_id" it with
    | Some pid =>
        if truthy pid then
          do oid <- ObjectId_of pid;
          Ok (find_one (coll "product" st) [Field "_id" (CEq (VOid oid))])
        else Ok None
    | None => Ok None
    end;
  let it' := JVal <$> serialize_doc it in
  Ok (<["product" := match found prod with
                     | Some p => JObj (serialize_doc p)
                     | None => JVal VNull
                     end]> it').

Fixpoint cart_rows (st : database) (its : list document) : result (list (gmap string jvalue)) :=
  match its with
  | [] => Ok []
  | it :: rest =>
      do r <- cart_row st it;
      do rs <- cart_rows st rest;
      Ok (r :: rs)
  end.

Definition get_cart (db : handle) (client_id : string) : result (list (gmap string jvalue)) :=
  match db with
  | None => Ok []
  | Some st =>
      do items <- to_list (find (coll "cartitem" st) [Field "client_id" (CEq (VStr client_id))]);
      cart_rows st items
  end.

Definition add_to_cart (db : handle) (item : CartItem) : result string * handle :=
  if negb (CartItem_valid item) then (Raised RequestValidation, db)
  else
  match db with
  | None => (Raised TypeError, None)
  | Some st =>
      let data := CartItem_dump item in
      and_then (insert_one "cartitem" {| _id := None; fields := data |} st)
        (fun o st' => (Ok o, Some st'))
  end.

Definition update_cart (db : handle) (now : datetime) (item_id : string) (qty : Z)
  : result bool * handle :=
  match db with
  | None => (Raised TypeError, None)
  | Some st =>
      match ObjectId_of (VStr item_id) with
      | Ok oid =>
          and_then
            (update_one "cartitem" [Field "_id" (CEq (VOid oid))]
               [("qty", VInt qty); ("updated_at", VDate now)] st)
            (fun matched_count st' =>
               if (matched_count =? 0)%Z
               then (HTTPException 404 "Cart item not found", Some st')
               else (Ok true, Some st'))
      | HTTPException c d => (HTTPException c d, db)
      | Raised e => (Raised e, db)
      | Unmodelled => (Unmodelled, db)
      end
  end.

(** *** Seeding *)

Inductive SeedOut :=
  | AlreadySeeded            (* {"ok": True, "message": "Already seeded"} *)
  | Inserted (n : Z).        (* {"ok": True, "inserted": n} *)

Definition raw (kvs : list (string * value)) : document :=
  {| _id := None; fields := list_to_map kvs |}.

Definition seed_categories : list document :=
  [ raw [("name", VStr "Cards"); ("slug", VStr "cards"); ("icon", VStr "CreditCard");
         ("description", VStr "Payment cards and fintech")];
    raw [("name", VStr "Accessories"); ("slug", VStr "accessories"); ("icon", VStr "Star");
         ("description", VStr "Premium accessories")];
    raw [("name", VStr "Software"); ("slug", VStr "software"); ("icon", VStr "Settings");
         ("description", VStr "Apps and tools")] ].

Definition seed_product (i : Z) : document :=
  raw [("title", VStr ("Premium Card " ++ Str.of_Z i));
       ("description", VStr "Elegant glassmorphic fintech card with premium perks.");
       ("price", VFloat (49 + inject_Z i));
       ("category", VStr "cards");
       ("images", VList [
          "https://images.unsplash.com/photo-1633265486064-086b219478d0?q=80&w=1200&auto=format&fit=crop";
          "https://images.unsplash.com/photo-1563013544-824ae1b704d3?q=80&w=1200&auto=format&fit=crop"]);
       ("rating", VFloat (9 # 2));
       ("rating_count", VInt (120 + i));
       ("in_stock", VBool true);
       ("features", VList ["Metal body"; "Cashback"; "Priority support"])].

(** [range(1, 25)] *)
Definition seed_products : list document :=
  map (fun i => seed_product (Z.of_nat i)) (seq 1 24).

Definition seed_data (db : handle) : result SeedOut * handle :=
  match db with
  | None => (HTTPException 500 "Database not available", None)
  | Some st =>
      match count_documents (coll "product" st) [] with
      | Ok n =>
          if (0 <? n)%Z then (Ok AlreadySeeded, Some st)
          else
            and_then (insert_many "category" seed_categories st) (fun _ st1 =>
            and_then (insert_many "product" seed_products st1) (fun _ st2 =>
            (Ok (Inserted (Z.of_nat (length seed_products))), Some st2)))
      | HTTPException c d => (HTTPException c d, db)
      | Raised e => (Raised e, db)
      | Unmodelled => (Unmodelled, db)
      end
  end.

End Main.

(** ** Specification-side notions

    Definitions that follow the words of the specification, to be
    compared with the handlers above. *)

Module Spec.

Import Bson Store Main.
Local Open Scope list_scope.

(** [p] is a prefix of [s]. *)
Fixpoint prefixb (p s : list ascii) : bool :=
  match p, s with
  | [], _ => true
  | _ :: _, [] => false
  | a :: p', b :: s' => Ascii.eqb a b && prefixb p' s'
  end.

(** [p] occurs in [s] as a contiguous run of characters. *)
Fixpoint infixb (p s : list ascii) : bool :=
  prefixb p s
  || match s with
     | [] => false
     | _ :: s' => infixb p s'
     end.

(** [q] occurs in [s] as a substring, ignoring the case of the ASCII
    letters; for ASCII text this is the substring test without regard to
    case. *)
Definition contains_ci (q s : string) : bool :=
  infixb (map Str.lower_char (Str.chars q)) (map Str.lower_char (Str.chars s)).

(** The text filter as the specification words it, on one field: a
    string field contains [q]; a field holding a list of strings has an
    element that does. *)
Definition text_has (q : string) (v : option value) : bool :=
  match v with
  | Some (VStr s) => contains_ci q s
  | Some (VList l) => existsb (contains_ci q) l
  | _ => false
  end.

(** No character of [q] has a special meaning in a pattern. *)
Definition literal (q : string) : bool :=
  forallb (fun c => negb (Regex.is_meta c)) (Str.chars q).

(** The numeric price of a product, if it has one. *)
Definition price (d : document) : option Q :=
  match get "price" d with
  | Some v => num v
  | None => None
  end.

Definition price_of (d : gmap string value) : option Q :=
  match d !! "price" with
  | Some v => num v
  | None => None
  end.

(** The inclusive price range with independently optional bounds. *)
Definition in_range (min_price max_price : option Q) (d : document) : Prop :=
  (forall a, min_price = Some a -> exists p, price d = Some p /\ (a <= p)%Q)
  /\ (forall b, max_price = Some b -> exists p, price d = Some p /\ (p <= b)%Q).

(** The pattern of the text filter, if any, lies in the modelled
    fragment of the pattern language. *)
Definition query_modelled (q : option string) : bool :=
  match given q with
  | Some p => match Regex.compile true p with Some _ => true | None => false end
  | None => true
  end.

(** What the [product_id] of a cart item refers to: nothing (absent or
    empty), a product identifier, or something that is not one. *)
Inductive reference :=
  | NoRef
  | Ref (o : ObjectId)
  | BadRef.

Definition reference_of (it : document) : reference :=
  match get "product_id" it with
  | None => NoRef
  | Some v =>
      if truthy v then
        match v with
        | VStr s => match parse_oid s with Some o => Ref o | None => BadRef end
        | VOid o => Ref o
        | _ => BadRef
        end
      else NoRef
  end.

(** Field [k] of the document is the string [s], or a list of strings
    that has [s] among its elements. *)
Definition field_is (k s : string) (d : document) : bool :=
  match get k d with
  | Some (VStr t) => String.eqb t s
  | Some (VList l) => existsb (String.eqb s) l
  | _ => false
  end.

(** The cart item belongs to the client. *)
Definition owned_by (client_id : string) (it : document) : bool :=
  field_is "client_id" client_id it.

(** The first document of a collection with the given identifier. *)
Definition by_id (o : ObjectId) (l : list document) : option document :=
  List.find (fun d => bool_decide (_id d = Some o)) l.

(** The product a cart row is annotated with: the normalized record of
    the product its [product_id] refers to, or null when it refers to
    none or to no stored product. *)
Definition resolved (st : database) (it : document) : jvalue :=
  match reference_of it with
  | Ref o =>
      match by_id o (coll "product" st) with
      | Some p => JObj (serialize_doc p)
      | None => JVal VNull
      end
  | _ => JVal VNull
  end.

(** [row] is the cart row of the stored item [it]: the normalized item
    with its resolved product under the key ["product"]. *)
Definition is_row (st : database) (it : document) (row : gmap string jvalue) : Prop :=
  row !! "product" = Some (resolved st it)
  /\ forall k, k <> "product" -> row !! k = JVal <$> serialize_doc it !! k.

(** The text filter on a product: title or description. *)
Definition text_filter (q : string) (d : document) : bool :=
  text_has q (get "title" d) || text_has q (get "description" d).

Definition in_rangeb (min_price max_price : option Q) (d : document) : bool :=
  match min_price with
  | Some a => match price d with Some p => Qle_bool a p | None => false end
  | None => true
  end
  && match max_price with
     | Some b => match price d with Some p => Qle_bool p b | None => false end
     | None => true
     end.

(** The documents of one page: [limit] documents after the first
    [(page - 1) * limit]. *)
Definition slice (page limit : Z) (docs : list document) : list document :=
  take (Z.to_nat limit) (drop (Z.to_nat ((page - 1) * limit)) docs).

(** The documents are in the order the store's sort gives them, by
    field [k] in direction [dir]. *)
Definition sorted_by (k : string) (dir : Z) (docs : list document) : Prop :=
  Sorted (fun a b => before k dir a b = true) docs.

(** The value a document is compared by in a field that holds no list:
    a missing field counts as null. *)
Definition scalar_of (v : option value) : option value :=
  match v with
  | None => Some VNull
  | Some (VList _) => None
  | Some x => Some x
  end.

(** Adjacent documents never increase (resp. decrease) in field [k]:
    of two neighbours whose field holds no list, the first has the
    greater (resp. smaller) value in the comparison order of the store,
    or an equal one. *)
Definition non_increasing (k : string) (docs : list document) : Prop :=
  Sorted (fun a b => forall x y,
            scalar_of (get k a) = Some x -> scalar_of (get k b) = Some y ->
            leb y x = true) docs.

Definition non_decreasing (k : string) (docs : list document) : Prop :=
  Sorted (fun a b => forall x y,
            scalar_of (get k a) = Some x -> scalar_of (get k b) = Some y ->
            leb x y = true) docs.

(** [n] is the least number of pages of [limit] items that hold [total]
    items: the ceiling of [total / limit]. *)
Definition is_ceil_div (total limit n : Z) : Prop :=
  (total <= n * limit)%Z /\ ((n - 1) * limit < total)%Z.

(** An ASCII character other than NUL. *)
Definition ascii_char (c : ascii) : bool :=
  (0 <? nat_of_ascii c)%nat && (nat_of_ascii c <? 128)%nat.

Definition ascii_only (s : string) : bool := forallb ascii_char (Str.chars s).

Definition ascii_field (v : option value) : bool :=
  match v with
  | Some (VStr s) => ascii_only s
  | Some (VList l) => forallb ascii_only l
  | _ => true
  end.

(** The texts of a product that the text filter reads are ASCII. *)
Definition ascii_texts (d : document) : bool :=
  ascii_field (get "title" d) && ascii_field (get "description" d).

(** The text filter is within the model on these products: there is no
    pattern, or the pattern lies in the modelled fragment and it and the
    texts it is put to are ASCII. *)
Definition text_modelled (q : option string) (products : list document) : bool :=
  match given q with
  | Some p =>
      match Regex.compile true p with Some _ => true | None => false end
      && ascii_only p && forallb ascii_texts products
  | None => true
  end.

(** Some part of [s] is in the language of [r]. *)
Definition occurs (r : Regex.re) (s : string) : Prop :=
  exists pre mid post, Str.chars s = (pre ++ mid ++ post)%list /\ Regex.lang r mid.

(** The pattern [p], read without regard to case, matches somewhere in
    the field: in the string, or in an element of the list of strings. *)
Definition hits (p : string) (v : option value) : Prop :=
  exists r, Regex.compile true p = Some r
    /\ match v with
       | Some (VStr s) => occurs r s
       | Some (VList l) => exists s, In s l /\ occurs r s
       | _ => False
       end.

(** The product passes every filter that is given: the pattern matches
    in its title or description, its category is the one asked for, its
    price lies in the range. *)
Definition wanted (q category : option string) (min_price max_price : option Q)
  (d : document) : Prop :=
  (forall p, given q = Some p -> hits p (get "title" d) \/ hits p (get "description" d))
  /\ (forall c, given category = Some c -> field_is "category" c d = true)
  /\ in_range min_price max_price d.

(** The key names a top-level field: it is not empty, does not start
    with ["$"] and has no ["."]. *)
Definition field_name (k : string) : bool :=
  Str.nonempty k && negb (Str.startswith "$" k)
  && negb (existsb (Ascii.eqb ".") (Str.chars k)).

(** The field that [sort] names, after its optional ["-"]. *)
Definition sort_field (s : string) : string :=
  if Str.startswith "-" s then Str.tail s else s.

(** The documents are in the order [sort] asks for. *)
Definition in_order (s : string) (docs : list document) : Prop :=
  if Str.startswith "-" s then non_increasing (Str.tail s) docs
  else non_decreasing s docs.

(** The order in which [sort] puts the matching documents: by the
    field named after an optional leading ["-"], descending when the
    ["-"] is there, and as stored when [sort] is empty. *)
Definition arrange (sort : option string) (m : list document) : list document :=
  match given sort with
  | Some s =>
      if Str.startswith "-" s then sort_by (before (Str.tail s) (-1)) m
      else sort_by (before s 1) m
  | None => m
  end.

(** The items of a page, or none when the request failed. *)
Definition page_items (r : result ProductPage) : list (gmap string value) :=
  match r with
  | Ok p => items p
  | _ => []
  end.

End Spec.

(** ** Sample data *)

Module Examples.

Import Bson Store Schemas Main.
Local Open Scope list_scope.

Definition empty_db : database := {| colls := ∅; next_oid := 0 |}.

(** The store after [POST /seed] on an empty store. *)
Definition seeded : handle := snd (seed_data (Some empty_db)).

(** A store with a single product whose title and description have no
    full stop. *)
Definition plain_product : document :=
  raw [("title", VStr "abc"); ("description", VStr "xyz");
       ("price", VFloat 10); ("category", VStr "cards")].

Definition one_product : database := snd (insert_one "product" plain_product empty_db).

(** [EmailStr] as far as the examples need it: a string with an ["@"]
    is accepted as it is. *)
Definition accepts_at (s : string) : option string :=
  if existsb (Ascii.eqb "@") (Str.chars s) then Some s else None.

Definition alice : RegisterIn :=
  {| in_name := "Alice"; in_email := "alice@shop.io"; in_password := "s3cret" |}.

Definition noon : datetime := mkDatetime 2024 5 17 12 0 0 0.

(** A time with microseconds that the store does not keep. *)
Definition half_past : datetime := mkDatetime 2024 5 17 12 30 0 123456.

(** [EmailStr] as far as one example needs it: like [email-validator],
    it wants exactly one ["@"] and returns the address with its domain in
    lower case. *)
Fixpoint cut_at (c : ascii) (l : list ascii) : option (list ascii * list ascii) :=
  match l with
  | [] => None
  | x :: l' =>
      if Ascii.eqb x c then Some ([], l')
      else option_map (fun p => (x :: fst p, snd p)) (cut_at c l')
  end.

Definition lower_domain (s : string) : option string :=
  match cut_at "@" (Str.chars s) with
  | Some (x :: local, y :: domain) =>
      if existsb (Ascii.eqb "@") (y :: domain) then None
      else Some (Str.of_chars ((x :: local) ++ "@"%char :: map Str.lower_char (y :: domain)))
  | _ => None
  end.

Definition carol : RegisterIn :=
  {| in_name := "Carol"; in_email := "Carol@SHOP.io"; in_password := "pw" |}.

(** A cart of client ["c1"] in the seeded store: one item of an existing
    product, one of a product that does not exist, one without product. *)
Definition cart_store : handle :=
  let s1 := snd (add_to_cart seeded
    {| client_id := "c1"; product_id := "000000000000000000000004"; qty := 2 |}) in
  let s2 := snd (add_to_cart s1
    {| client_id := "c1"; product_id := "0000000000000000000000ff"; qty := 1 |}) in
  snd (add_to_cart s2 {| client_id := "c1"; product_id := ""; qty := 1 |}).

Definition state (db : handle) : database :=
  match db with
  | Some st => st
  | None => empty_db
  end.

Definition seeded_db : database := state seeded.

Definition cart_db : database := state cart_store.

(** The cart after its first item was set to quantity 5. *)
Definition updated_db : database :=
  state (snd (update_cart (Some cart_db) noon "00000000000000000000001b" 5)).

End Examples.

(** ** The remaining handlers of [main.py] *)

Module Routes.

Import Bson Store Schemas Main.
Local Open Scope list_scope.

(** [PyObjectId.validate(v)]; [None] stands for raising
    [ValueError("Invalid objectid")].  [ObjectId.is_valid] is false for
    every value that [ObjectId(v)] refuses, so for every value that is
    neither an ObjectId nor a string. *)
Definition validate (v : value) : option ObjectId :=
  match v with
  | VOid o => Some o
  | VStr s => if is_valid s then parse_oid s else None
  | _ => None
  end.

(** *** Auth *)

Record LoginIn := mkLoginIn { login_email : string; login_password : string }.

Record LoginOut := mkLoginOut {
  lo_id : value; lo_name : value; lo_email : value; lo_role : value }.

(** [d.get(k)] on a normalized record: a missing key gives [None]. *)
Definition dict_get (k : string) (d : gmap string value) : value :=
  default VNull (d !! k).

(** [login].  [user["id"]] cannot fail: [serialize_doc] sets the key on
    every document that is not empty. *)
Definition login (db : handle) (payload : LoginIn) : result LoginOut :=
  match db with
  | None => HTTPException 500 "Database not available"
  | Some st =>
      let user :=
        find_one (coll "user" st)
          [Field "email" (CEq (VStr (login_email payload)));
           Field "password_hash" (CEq (VStr (login_password payload)))] in
      match found user with
      | None => HTTPException 401 "Invalid credentials"
      | Some user =>
          let user := serialize_doc user in
          Ok {| lo_id := dict_get "id" user;
                lo_name := dict_get "name" user;
                lo_email := dict_get "email" user;
                lo_role := default (VStr "user") (user !! "role") |}
      end
  end.

(** *** Categories *)

Definition list_categories (db : handle) : result (list (gmap string value)) :=
  match db with
  | Some st =>
      do docs <- to_list (find (coll "category" st) []);
      Ok (map serialize_doc docs)
  | None => Ok []
  end.

(** *** Reviews *)

Record Review := mkReview {
  rev_product_id : string;
  user_name : string;
  rating : Z;
  comment : option string;
  created_at : option datetime }.

(** [rating: int = Field(..., ge=1, le=5)] *)
Definition Review_valid (r : Review) : bool := (1 <=? rating r)%Z && (rating r <=? 5)%Z.

Definition opt_date (o : option datetime) : value :=
  match o with Some t => VDate t | None => VNull end.

(** [rev.model_dump()] *)
Definition Review_dump (r : Review) : gmap string value :=
  <["product_id" := VStr (rev_product_id r)]> (
  <["user_name" := VStr (user_name r)]> (
  <["rating" := VInt (rating r)]> (
  <["comment" := opt_str (comment r)]> (
  <["created_at" := opt_date (created_at r)]> ∅)))).

Definition product_reviews (db : handle) (product_id : string)
  : result (list (gmap string value)) :=
  match db with
  | Some st =>
      do docs <- to_list (find (coll "review" st) [Field "product_id" (CEq (VStr product_id))]);
      Ok (map serialize_doc docs)
  | None => Ok []
  end.

Definition add_review (db : handle) (now : datetime) (product_id : string) (rev : Review)
  : result string * handle :=
  if negb (Review_valid rev) then (Raised RequestValidation, db)
  else
  let data := Review_dump rev in
  let data := <["product_id" := VStr product_id]> data in
  let data := <["created_at" := VDate now]> data in
  match db with
  | None => (Raised TypeError, None)
  | Some st =>
      and_then (insert_one "review" {| _id := None; fields := data |} st)
        (fun o st' => (Ok o, Some st'))
  end.

(** *** Cart *)

Fixpoint delete_first (f : filt) (l : list document) : list document :=
  match l with
  | [] => []
  | d :: l' => if matchb f d then l' else d :: delete_first f l'
  end.

(** [db[name].delete_one(filt)]: deletes the first matching document. *)
Definition delete_one (name : string) (f : filt) (db : database) : database :=
  {| colls := <[name := delete_first f (coll name db)]> (colls db);
     next_oid := next_oid db |}.

Definition remove_cart (db : handle) (item_id : string) : result bool * handle :=
  match db with
  | None => (Raised TypeError, None)
  | Some st =>
      match ObjectId_of (VStr item_id) with
      | Ok oid => (Ok true, Some (delete_one "cartitem" [Field "_id" (CEq (VOid oid))] st))
      | HTTPException c d => (HTTPException c d, db)
      | Raised e => (Raised e, db)
      | Unmodelled => (Unmodelled, db)
      end
  end.

(** *** Notions used to state facts about the handlers above *)

(** A lower-case hexadecimal digit. *)
Definition lower_hex (c : ascii) : bool :=
  is_hex c && Ascii.eqb (Str.lower_char c) c.

(** The document [add_review] hands to the store. *)
Definition review_data (now : datetime) (product_id : string) (rev : Review)
  : gmap string value :=
  <["created_at" := VDate now]> (<["product_id" := VStr product_id]> (Review_dump rev)).

(** The store after [add_to_cart] stored the item. *)
Definition with_item (item : CartItem) (st : database) : database :=
  put "cartitem" {| _id := None; fields := CartItem_dump item |} st.

(** The store after [add_review] stored the review. *)
Definition with_review (now : datetime) (product_id : string) (rev : Review)
  (st : database) : database :=
  put "review" {| _id := None; fields := review_data now product_id rev |} st.

(** A user document has the given e-mail address and password. *)
Definition credentials (e pw : string) (d : document) : bool :=
  Spec.field_is "email" e d && Spec.field_is "password_hash" pw d.

(** The fields say that the product is in category [c]. *)
Definition in_category (c : string) (f : gmap string value) : bool :=
  match f !! "category" with
  | Some (VStr t) => String.eqb t c
  | Some (VList l) => existsb (String.eqb c) l
  | _ => false
  end.

(** *** Sample data for the handlers above *)

Definition bob_doc : document :=
  raw [("name", VStr "Bob"); ("email", VStr "bob@shop.io");
       ("password_hash", VStr "hunter2"); ("role", VStr "admin")].

(** A store with one user. *)
Definition user_db : database := snd (insert_one "user" bob_doc Examples.empty_db).

Definition praise : Review :=
  {| rev_product_id := "ignored"; user_name := "Ann"; rating := 5;
     comment := Some "Great"; created_at := None |}.

Definition pen : CartItem :=
  {| client_id := "c2"; product_id := "zzz"; qty := 1 |}.

(** A cart item with a quantity one past the largest 64-bit integer. *)
Definition crate : CartItem :=
  {| client_id := "c2"; product_id := "zzz"; qty := 2 ^ 63 |}.

(** A cart item of client ["c1"] for a product of the seeded store. *)
Definition card : CartItem :=
  {| client_id := "c1"; product_id := "000000000000000000000004"; qty := 3 |}.

(** A store with a review of product ["p1"] and one of product ["p2"]. *)
Definition review_db : database :=
  Examples.state
    (snd (add_review (snd (add_review (Some Examples.empty_db) Examples.noon "p1" praise))
            Examples.noon "p2" praise)).

End Routes.

(** * Facts about the pattern matcher *)

Section RegexFacts.

Import Regex.
Local Open Scope list_scope.

Hint Constructors lang : core.

Lemma lang_empty_inv w : lang Empty w -> False.
Proof. intros H; inversion H. Qed.

Lemma lang_eps_inv w : lang Eps w -> w = [].
Proof. intros H; now inversion H. Qed.

Lemma lang_chr_inv p w : lang (Chr p) w -> exists c, w = [c] /\ p c = true.
Proof. intros H; inversion H; subst; eauto. Qed.

Lemma lang_cat_inv r s w :
  lang (Cat r s) w -> exists u v, w = u ++ v /\ lang r u /\ lang s v.
Proof. intros H; inversion H; subst; eauto. Qed.

Lemma lang_alt_inv r s w : lang (Alt r s) w -> lang r w \/ lang s w.
Proof. intros H; inversion H; subst; auto. Qed.

Lemma lang_cat_cons r s c u v : lang r (c :: u) -> lang s v -> lang (Cat r s) (c :: u ++ v).
Proof. intros Hu Hv. change (c :: u ++ v) with ((c :: u) ++ v). now constructor. Qed.

Lemma nullable_lang r : nullable r = true <-> lang r [].
Proof.
  induction r as [| |p|r1 IH1 r2 IH2|r1 IH1 r2 IH2|r IH]; simpl; split; intros H;
    try discriminate; auto.
  - now apply lang_empty_inv in H.
  - apply lang_chr_inv in H as (c & Hc & _). discriminate.
  - apply andb_true_iff in H as [H1 H2].
    change (@nil ascii) with (@nil ascii ++ []). constructor; tauto.
  - apply lang_cat_inv in H as (u & v & Huv & Hu & Hv).
    symmetry in Huv. apply app_eq_nil in Huv as [-> ->].
    apply andb_true_iff. tauto.
  - apply orb_true_iff in H as [H|H]; [apply L_alt_l | apply L_alt_r]; tauto.
  - apply orb_true_iff. apply lang_alt_inv in H. tauto.
Qed.

Lemma star_cons r c s :
  lang (Star r) (c :: s) ->
  exists u v, s = u ++ v /\ lang r (c :: u) /\ lang (Star r) v.
Proof.
  intros H. remember (Star r) as e eqn:He. remember (c :: s) as w eqn:Hw.
  revert s Hw. induction H as [| | | | | |r' u v Hu _ Hv IHv]; intros s0 Hw; try discriminate.
  injection He as ->.
  destruct u as [|a u].
  - simpl in Hw. apply IHv; auto.
  - simpl in Hw. injection Hw as -> <-. eauto.
Qed.

Lemma deriv_lang r : forall c s, lang (deriv c r) s <-> lang r (c :: s).
Proof.
  induction r as [| |p|r1 IH1 r2 IH2|r1 IH1 r2 IH2|r IH]; intros c s; simpl.
  - split; intros H; now apply lang_empty_inv in H.
  - split; intros H; [now apply lang_empty_inv in H | apply lang_eps_inv in H; discriminate].
  - destruct (p c) eqn:Hp; split; intros H.
    + apply lang_eps_inv in H as ->. now constructor.
    + apply lang_chr_inv in H as (c' & Hc & _). injection Hc as -> ->. constructor.
    + now apply lang_empty_inv in H.
    + apply lang_chr_inv in H as (c' & Hc & Hp'). injection Hc as -> ->. congruence.
  - assert (Hcat : forall w, lang (Cat (deriv c r1) r2) w ->
                     exists u v, w = u ++ v /\ lang r1 (c :: u) /\ lang r2 v).
    { intros w H. apply lang_cat_inv in H as (u & v & -> & Hu & Hv).
      apply IH1 in Hu. eauto. }
    destruct (nullable r1) eqn:Hn; split; intros H.
    + apply lang_alt_inv in H as [H|H].
      * apply Hcat in H as (u & v & -> & Hu & Hv). now apply lang_cat_cons.
      * apply IH2 in H. apply nullable_lang in Hn.
        change (c :: s) with ([] ++ c :: s). now constructor.
    + apply lang_cat_inv in H as (u & v & Huv & Hu & Hv). destruct u as [|a u].
      * simpl in Huv. subst v. apply L_alt_r. now apply IH2.
      * simpl in Huv. injection Huv as <- ->. apply L_alt_l.
        constructor; auto. now apply IH1.
    + apply Hcat in H as (u & v & -> & Hu & Hv). now apply lang_cat_cons.
    + apply lang_cat_inv in H as (u & v & Huv & Hu & Hv). destruct u as [|a u].
      * apply nullable_lang in Hu. congruence.
      * simpl in Huv. injection Huv as <- ->. constructor; auto. now apply IH1.
  - split; intros H; apply lang_alt_inv in H as [H|H].
    + apply L_alt_l. now apply IH1.
    + apply L_alt_r. now apply IH2.
    + apply L_alt_l. now apply IH1.
    + apply L_alt_r. now apply IH2.
  - split; intros H.
    + apply lang_cat_inv in H as (u & v & -> & Hu & Hv). apply IH in Hu.
      change (c :: u ++ v) with ((c :: u) ++ v). now constructor.
    + apply star_cons in H as (u & v & -> & Hu & Hv).
      constructor; auto. now apply IH.
Qed.

Lemma matches_lang s : forall r, matches r s = true <-> lang r s.
Proof.
  induction s as [|c s IH]; intros r; simpl.
  - apply nullable_lang.
  - rewrite IH. apply deriv_lang.
Qed.

Lemma lang_any s : lang any s.
Proof.
  induction s as [|c s IH]; [constructor|].
  change (c :: s) with ([c] ++ s). now repeat constructor.
Qed.

(** A search succeeds exactly when some contiguous part of the subject
    is in the language. *)
Lemma search_lang r s :
  search r s = true <-> exists pre mid post, s = pre ++ mid ++ post /\ lang r mid.
Proof.
  unfold search. rewrite matches_lang. split.
  - intros H. apply lang_cat_inv in H as (pre & w & -> & _ & H).
    apply lang_cat_inv in H as (mid & post & -> & H & _). eauto.
  - intros (pre & mid & post & -> & H).
    constructor; [apply lang_any|]. constructor; [assumption | apply lang_any].
Qed.

(** *** Patterns without special characters *)

Lemma tokens_literal q :
  forallb (fun c => negb (is_meta c)) q = true ->
  tokens q = Some (map (fun c => TAtom (ALit c)) q).
Proof.
  induction q as [|c q IH]; simpl; [reflexivity|].
  intros H. apply andb_true_iff in H as [Hc Hq].
  rewrite (IH Hq). apply negb_true_iff in Hc.
  destruct (Ascii.eqb c "\") eqn:E1; [apply Ascii.eqb_eq in E1; subst c; discriminate|].
  destruct (Ascii.eqb c ".") eqn:E2; [apply Ascii.eqb_eq in E2; subst c; discriminate|].
  destruct (Ascii.eqb c "*") eqn:E3; [apply Ascii.eqb_eq in E3; subst c; discriminate|].
  destruct (Ascii.eqb c "+") eqn:E4; [apply Ascii.eqb_eq in E4; subst c; discriminate|].
  destruct (Ascii.eqb c "?") eqn:E5; [apply Ascii.eqb_eq in E5; subst c; discriminate|].
  rewrite Hc. reflexivity.
Qed.

Lemma build_literal q :
  build true (map (fun c => TAtom (ALit c)) q) = Some (lit_re q).
Proof.
  induction q as [|c q IH]; simpl; [reflexivity|].
  destruct q as [|c' q]; simpl in *; [reflexivity|].
  now rewrite IH.
Qed.

Lemma compile_literal q :
  Spec.literal q = true -> compile true q = Some (lit_re (Str.chars q)).
Proof.
  intros H. unfold compile. rewrite (tokens_literal _ H). apply build_literal.
Qed.

Lemma lang_lit q w :
  lang (lit_re q) w <-> map Str.lower_char w = map Str.lower_char q.
Proof.
  revert w. induction q as [|c q IH]; intros w; simpl.
  - split; intros H.
    + now apply lang_eps_inv in H as ->.
    + destruct w; [constructor | discriminate].
  - split; intros H.
    + apply lang_cat_inv in H as (u & v & -> & Hu & Hv).
      apply lang_chr_inv in Hu as (x & -> & Hx). apply Ascii.eqb_eq in Hx.
      simpl. f_equal; [assumption | now apply IH].
    + destruct w as [|x w]; [discriminate|]. simpl in H. injection H as Hx Hw.
      change (x :: w) with ([x] ++ w). constructor; [|now apply IH].
      constructor. now apply Ascii.eqb_eq.
Qed.

Lemma prefixb_spec p s : Spec.prefixb p s = true <-> exists post, s = p ++ post.
Proof.
  revert s. induction p as [|a p IH]; intros s; simpl.
  - split; eauto.
  - destruct s as [|b s].
    + split; [discriminate | intros [post H]; discriminate].
    + rewrite andb_true_iff, Ascii.eqb_eq, IH. split.
      * intros [-> [post ->]]. eauto.
      * intros [post H]. injection H as -> ->. eauto.
Qed.

Lemma infixb_spec p s :
  Spec.infixb p s = true <-> exists pre post, s = pre ++ p ++ post.
Proof.
  induction s as [|b s IH]; simpl; rewrite orb_true_iff, prefixb_spec.
  - split.
    + intros [[post H]|H]; [exists [], post; assumption | discriminate].
    + intros (pre & post & H). left. destruct pre; [eauto | discriminate].
  - rewrite IH. split.
    + intros [[post H]|(pre & post & ->)]; [exists [], post; assumption|].
      exists (b :: pre), post. reflexivity.
    + intros (pre & post & H). destruct pre as [|x pre].
      * left. eauto.
      * injection H as -> ->. right. eauto.
Qed.

(** For a pattern without special characters, the case-insensitive
    search is the case-insensitive substring test. *)
Lemma search_literal q s :
  search (lit_re (Str.chars q)) (Str.chars s) = Spec.contains_ci q s.
Proof.
  apply eq_true_iff_eq. unfold Spec.contains_ci.
  rewrite search_lang, infixb_spec. split.
  - intros (pre & mid & post & Hs & Hm). apply lang_lit in Hm.
    exists (map Str.lower_char pre), (map Str.lower_char post).
    rewrite Hs, !map_app. now rewrite Hm.
  - intros (pre & post & H).
    apply map_eq_app in H as (pre' & rest & Hs & Hpre & H).
    apply map_eq_app in H as (mid & post' & -> & Hmid & Hpost).
    exists pre', mid, post'. split; [assumption | now apply lang_lit].
Qed.

End RegexFacts.

(** * Facts about the order of the store and its sort *)

Section OrderFacts.

Import Bson Store.
Local Open Scope list_scope.

Lemma lex_leb_total a : forall b, lex_leb a b = false -> lex_leb b a = true.
Proof.
  induction a as [|x a IH]; intros [|y b]; simpl; try discriminate; auto.
  destruct (N.ltb_spec x y), (N.ltb_spec y x); try discriminate; auto; lia.
Qed.

Lemma Qle_bool_total x y : Qle_bool x y = false -> Qle_bool y x = true.
Proof.
  intros H. apply Qle_bool_iff. destruct (Qlt_le_dec y x) as [Hlt|Hle].
  - now apply Qlt_le_weak.
  - apply Qle_bool_iff in Hle. congruence.
Qed.

Lemma string_leb_total s t : String.leb s t = false -> String.leb t s = true.
Proof. destruct (String.leb_total s t); congruence. Qed.

Lemma leb_total a b : leb a b = false -> leb b a = true.
Proof.
  unfold leb. rewrite (Nat.compare_antisym (rank a) (rank b)).
  destruct (Nat.compare (rank a) (rank b)) eqn:E; simpl; try discriminate; auto.
  destruct a, b; simpl in *; try discriminate; auto using Qle_bool_total, string_leb_total.
  - destruct b0, b; auto.
  - unfold dt_leb. apply lex_leb_total.
Qed.

Lemma key_leb_total a b : key_leb a b = false -> key_leb b a = true.
Proof. destruct a, b; simpl; try discriminate; auto using leb_total. Qed.

Lemma before_total k dir a b : before k dir a b = false -> before k dir b a = true.
Proof. unfold before. destruct (dir <? 0)%Z; apply key_leb_total. Qed.

End OrderFacts.

Section SortFacts.

Import Store.
Local Open Scope list_scope.

Context {A : Type} (le : A -> A -> bool).
Hypothesis le_total : forall a b, le a b = false -> le b a = true.

Let R (a b : A) : Prop := le a b = true.

Lemma insert_sorted_perm x l : Permutation (insert_sorted le x l) (x :: l).
Proof.
  induction l as [|y l IH]; simpl; [reflexivity|].
  destruct (le x y); [reflexivity|].
  rewrite IH. apply perm_swap.
Qed.

Lemma sort_by_perm l : Permutation (sort_by le l) l.
Proof.
  induction l as [|x l IH]; simpl; [reflexivity|].
  unfold sort_by in *. simpl. rewrite insert_sorted_perm. now constructor.
Qed.

Lemma insert_sorted_HdRel x a l :
  R a x -> HdRel R a l -> HdRel R a (insert_sorted le x l).
Proof.
  intros Hax Hl. destruct l as [|y l]; simpl; [now constructor|].
  destruct (le x y); constructor; auto. now inversion Hl.
Qed.

Lemma insert_sorted_Sorted x l : Sorted R l -> Sorted R (insert_sorted le x l).
Proof.
  induction l as [|y l IH]; simpl; intros Hl.
  - repeat constructor.
  - destruct (le x y) eqn:E.
    + constructor; [assumption | now constructor].
    + inversion Hl; subst. constructor; [now apply IH|].
      apply insert_sorted_HdRel; [now apply le_total | assumption].
Qed.

Lemma sort_by_Sorted l : Sorted R (sort_by le l).
Proof.
  induction l as [|x l IH]; [constructor|].
  unfold sort_by in *. simpl. now apply insert_sorted_Sorted.
Qed.

End SortFacts.

Section ListFacts.

Local Open Scope list_scope.
Context {A : Type}.

Lemma Sorted_tail (R : A -> A -> Prop) x l : Sorted R (x :: l) -> Sorted R l.
Proof. intros H. now inversion H. Qed.

Lemma Sorted_impl (R R' : A -> A -> Prop) l :
  (forall a b, R a b -> R' a b) -> Sorted R l -> Sorted R' l.
Proof.
  intros H. induction 1 as [|x l Hs IH Hh]; constructor; [assumption|].
  destruct Hh; constructor. now apply H.
Qed.

Lemma Sorted_drop (R : A -> A -> Prop) n : forall l, Sorted R l -> Sorted R (drop n l).
Proof.
  induction n as [|n IH]; intros l Hl; [assumption|].
  destruct l as [|x l]; [constructor|]. simpl. apply IH. now apply Sorted_tail in Hl.
Qed.

Lemma Sorted_take (R : A -> A -> Prop) n : forall l, Sorted R l -> Sorted R (take n l).
Proof.
  induction n as [|n IH]; intros l Hl; [constructor|].
  destruct l as [|x l]; [constructor|]. simpl.
  inversion Hl as [|? ? Hs Hh]; subst. constructor; [now apply IH|].
  destruct l as [|y l]; [destruct n; constructor|].
  destruct n; simpl; constructor. now inversion Hh.
Qed.

Lemma Sorted_adjacent (R : A -> A -> Prop) l :
  Sorted R l ->
  forall i a b, l !! i = Some a -> l !! S i = Some b -> R a b.
Proof.
  induction 1 as [|x l Hs IH Hh]; intros i a b Ha Hb; [discriminate|].
  destruct i as [|i]; simpl in *.
  - injection Ha as ->. destruct l as [|y l]; [discriminate|].
    simpl in Hb. injection Hb as ->. now inversion Hh.
  - eapply IH; eassumption.
Qed.

(** Consecutive windows of [n] elements tile the list. *)
Lemma windows_concat (l : list A) (n : nat) : forall k,
  flat_map (fun p => take n (drop (p * n) l)) (seq 0 k) = take (k * n) l.
Proof.
  induction k as [|k IH]; [reflexivity|].
  rewrite seq_S, flat_map_app, IH. simpl. rewrite app_nil_r.
  replace (n + k * n)%nat with (k * n + n)%nat by lia.
  apply take_take_drop.
Qed.

End ListFacts.

(** * The product listing *)

Section Listing.

Import Bson Store Main Spec.
Local Open Scope list_scope.

Lemma get_id d : get "_id" d = VOid <$> _id d.
Proof. unfold get. now rewrite decide_True. Qed.

Lemma get_field k d : k <> "_id" -> get k d = fields d !! k.
Proof. intros H. unfold get. now rewrite decide_False. Qed.

Lemma matchb_field_is k s d : matchb [Field k (CEq (VStr s))] d = field_is k s d.
Proof.
  unfold matchb, field_is. simpl. rewrite andb_true_r. unfold eq_on.
  destruct (get k d) as [[]|]; simpl; try reflexivity.
  now rewrite orb_false_r.
Qed.

Lemma build_filt_ok q c mn mx :
  query_modelled q = true -> filt_ok (build_filt q c mn mx) = true.
Proof.
  unfold query_modelled, build_filt, filt_ok. intros H.
  rewrite !forallb_app. repeat (apply andb_true_iff; split).
  - destruct (given q) as [p|]; [|reflexivity]. simpl.
    unfold compile_cond. simpl. destruct (Regex.compile true p); [reflexivity | discriminate].
  - destruct (given c); reflexivity.
  - destruct mn, mx; reflexivity.
Qed.

Lemma arrange_perm sort m : Permutation (arrange sort m) m.
Proof.
  unfold arrange. destruct (given sort) as [s|]; [|reflexivity].
  destruct (Str.startswith "-" s); apply sort_by_perm.
Qed.

Lemma arrange_length sort m : length (arrange sort m) = length m.
Proof. apply Permutation_length, arrange_perm. Qed.

(** What [list_products] returns on a valid request whose text filter
    is modelled. *)
Lemma list_products_eq hc st q c mn mx sort page limit :
  query_valid mn mx page limit = true ->
  query_modelled q = true ->
  list_products hc (Some st) q c mn mx sort page limit =
  let docs := arrange sort (List.filter (matchb (build_filt q c mn mx)) (coll "product" st)) in
  Ok {| items := map serialize_doc (slice page limit docs);
        total := Z.of_nat (length docs);
        page := page;
        pages := (Z.of_nat (length docs) + limit - 1) / limit |}.
Proof.
  intros Hv Hq. unfold list_products. rewrite Hv. simpl.
  pose proof (build_filt_ok q c mn mx Hq) as Hok.
  unfold query_valid in Hv. repeat (apply andb_true_iff in Hv as [Hv ?]).
  assert (Hl : (limit =? 0)%Z = false) by lia.
  rewrite arrange_length.
  assert (Hc : (if hc
                then count (match given sort with
                            | Some s => Store.sort (if Str.startswith "-" s then Str.tail s else s)
                                          (if Str.startswith "-" s then (-1)%Z else 1%Z)
                                          (find (coll "product" st) (build_filt q c mn mx))
                            | None => find (coll "product" st) (build_filt q c mn mx)
                            end)
                else count_documents (coll "product" st) (build_filt q c mn mx))
               = Ok (Z.of_nat (length (List.filter (matchb (build_filt q c mn mx)) (coll "product" st))))).
  { destruct hc; [|unfold count_documents; now rewrite Hok].
    unfold count, count_documents.
    destruct (given sort); simpl; now rewrite Hok. }
  rewrite Hc. simpl. unfold to_list. simpl.
  unfold arrange, slice, window, selected.
  destruct (given sort) as [s|]; simpl; rewrite Hok, Hl; simpl; [|reflexivity].
  destruct (Str.startswith "-" s); reflexivity.
Qed.

Lemma query_valid_intro mn mx page limit :
  ge0 mn = true -> ge0 mx = true -> (1 <= page)%Z -> (1 <= limit <= 60)%Z ->
  query_valid mn mx page limit = true.
Proof.
  intros Hmn Hmx Hp Hl. unfold query_valid. rewrite Hmn, Hmx. simpl.
  repeat (apply andb_true_iff; split); lia.
Qed.


Lemma ceil_div_spec total limit :
  (0 < limit)%Z -> is_ceil_div total limit ((total + limit - 1) / limit).
Proof.
  intros Hl. unfold is_ceil_div.
  pose proof (Z.mul_div_le (total + limit - 1) limit Hl).
  pose proof (Z.mul_succ_div_gt (total + limit - 1) limit Hl).
  split; lia.
Qed.

(** The pages 1..k, concatenated, are the first [k * limit] results. *)
Lemma pages_concat hc st q c mn mx sort limit :
  (1 <= limit <= 60)%Z -> ge0 mn = true -> ge0 mx = true -> query_modelled q = true ->
  forall k,
  flat_map (fun p => page_items (list_products hc (Some st) q c mn mx sort (Z.of_nat p) limit))
           (seq 1 k)
  = map serialize_doc
      (take (k * Z.to_nat limit)
         (arrange sort (List.filter (matchb (build_filt q c mn mx)) (coll "product" st)))).
Proof.
  intros Hl Hmn Hmx Hq k. induction k as [|k IH]; [reflexivity|].
  rewrite seq_S, flat_map_app, IH. simpl. rewrite app_nil_r.
  rewrite list_products_eq by (try apply query_valid_intro; auto; lia).
  simpl. rewrite <- map_app. f_equal. unfold slice.
  replace (Z.to_nat ((Z.of_nat (S k) - 1) * limit)) with (k * Z.to_nat limit)%nat by lia.
  replace (Z.to_nat limit + k * Z.to_nat limit)%nat with (k * Z.to_nat limit + Z.to_nat limit)%nat by lia.
  apply take_take_drop.
Qed.

Lemma text_modelled_query q l : text_modelled q l = true -> query_modelled q = true.
Proof.
  unfold text_modelled, query_modelled. destruct (given q) as [p|]; [|reflexivity].
  destruct (Regex.compile true p); [reflexivity | discriminate].
Qed.

Lemma matchb_price q c mn mx d :
  matchb (build_filt q c mn mx) d
  = matchb (build_filt q c None None) d && in_rangeb mn mx d.
Proof.
  unfold matchb, build_filt. rewrite !forallb_app, <- !andb_assoc. do 2 f_equal.
  unfold in_rangeb, price.
  destruct mn as [a|], mx as [b|]; simpl; unfold range_on;
    destruct (get "price" d) as [v|]; simpl; try reflexivity;
    destruct (num v); simpl; rewrite ?andb_true_r; reflexivity.
Qed.

Lemma in_rangeb_spec mn mx d : in_rangeb mn mx d = true <-> in_range mn mx d.
Proof.
  unfold in_rangeb, in_range. rewrite andb_true_iff. split.
  - intros [Ha Hb]. split.
    + intros a ->. destruct (price d) as [p|]; [|discriminate].
      exists p. split; [reflexivity | now apply Qle_bool_iff].
    + intros b ->. destruct (price d) as [p|]; [|discriminate].
      exists p. split; [reflexivity | now apply Qle_bool_iff].
  - intros [Ha Hb]. split.
    + destruct mn as [a|]; [|reflexivity].
      destruct (Ha a eq_refl) as (p & -> & Hp). now apply Qle_bool_iff.
    + destruct mx as [b|]; [|reflexivity].
      destruct (Hb b eq_refl) as (p & -> & Hp). now apply Qle_bool_iff.
Qed.

Lemma regex_on_hits p r v :
  Regex.compile true p = Some r -> (regex_on r v = true <-> hits p v).
Proof.
  intros Hc. unfold hits. split.
  - intros H. exists r. split; [assumption|].
    destruct v as [[]|]; simpl in H; try discriminate.
    + now apply search_lang.
    + apply existsb_exists in H as (s & Hs & H).
      exists s. split; [assumption | now apply search_lang].
  - intros (r' & Hc' & H). rewrite Hc in Hc'. injection Hc' as <-.
    destruct v as [[]|]; simpl; try contradiction.
    + now apply search_lang.
    + destruct H as (s & Hs & H). apply existsb_exists.
      exists s. split; [assumption | now apply search_lang].
Qed.

Lemma eq_on_field_is k s d : eq_on (VStr s) (get k d) = field_is k s d.
Proof. rewrite <- matchb_field_is. unfold matchb. simpl. now rewrite andb_true_r. Qed.

(** The filter of [list_products], key by key. *)
Lemma matchb_build_filt q c mn mx d :
  matchb (build_filt q c mn mx) d
  = match given q with
    | Some p => eval_cond (CRegex p "i") (get "title" d)
                || eval_cond (CRegex p "i") (get "description" d)
    | None => true
    end
    && match given c with
       | Some c' => field_is "category" c' d
       | None => true
       end
    && in_rangeb mn mx d.
Proof.
  rewrite matchb_price. f_equal. unfold matchb, build_filt. rewrite !forallb_app.
  destruct (given q), (given c); simpl;
    rewrite ?andb_true_r, ?orb_false_r, ?eq_on_field_is; reflexivity.
Qed.

(** The filter of [list_products] selects the products that pass every
    filter given. *)
Lemma matchb_wanted q c mn mx d :
  query_modelled q = true ->
  (matchb (build_filt q c mn mx) d = true <-> wanted q c mn mx d).
Proof.
  intros Hq. rewrite matchb_build_filt, !andb_true_iff, in_rangeb_spec.
  unfold wanted, query_modelled in *.
  assert (Hc : (match given c with
                | Some c' => field_is "category" c' d
                | None => true
                end = true)
               <-> (forall c', given c = Some c' -> field_is "category" c' d = true)).
  { destruct (given c) as [c'|]; split; auto; try discriminate.
    intros H x Hx. now injection Hx as <-. }
  rewrite Hc. clear Hc.
  destruct (given q) as [p|].
  - destruct (Regex.compile true p) as [r|] eqn:Hr; [|discriminate].
    assert (He : forall v, eval_cond (CRegex p "i") v = regex_on r v).
    { intros v. unfold eval_cond, compile_cond. simpl. now rewrite Hr. }
    rewrite !He, orb_true_iff, !(regex_on_hits p r) by assumption. split.
    + intros [[H1 H2] H3]. split; [|split; assumption].
      intros x Hx. now injection Hx as <-.
    + intros (H1 & H2 & H3). split; [split|]; auto.
  - split.
    + intros [[_ H2] H3]. split; [discriminate | split; assumption].
    + intros (_ & H2 & H3). split; [split|]; auto.
Qed.


(** C3.  With [min_price] and/or [max_price], the result (over all its
    pages) is exactly the products that pass the other filters and whose
    price lies in the inclusive range, each bound applying only when it
    is present. *)
Theorem list_products_price_range hc st q c mn mx sort limit :
  (1 <= limit <= 60)%Z -> ge0 mn = true -> ge0 mx = true -> query_modelled q = true ->
  exists docs,
    Permutation docs
      (List.filter (fun d => matchb (build_filt q c None None) d && in_rangeb mn mx d)
         (coll "product" st))
    /\ (forall d, In d docs <->
                  In d (coll "product" st)
                  /\ matchb (build_filt q c None None) d = true
                  /\ in_range mn mx d)
    /\ (forall p, (1 <= p)%Z ->
          exists r, list_products hc (Some st) q c mn mx sort p limit = Ok r
                    /\ items r = map serialize_doc (slice p limit docs)
                    /\ total r = Z.of_nat (length docs)).
Proof.
  intros Hl Hmn Hmx Hq.
  exists (arrange sort (List.filter (matchb (build_filt q c mn mx)) (coll "product" st))).
  assert (Hperm : Permutation
            (arrange sort (List.filter (matchb (build_filt q c mn mx)) (coll "product" st)))
            (List.filter (fun d => matchb (build_filt q c None None) d && in_rangeb mn mx d)
               (coll "product" st))).
  { rewrite arrange_perm. erewrite filter_ext; [reflexivity|].
    intros d. apply matchb_price. }
  split; [exact Hperm|]. split.
  - intros d. split.
    + intros Hd. apply (Permutation_in _ Hperm) in Hd.
      apply filter_In in Hd as [Hin Hd]. apply andb_true_iff in Hd as [H1 H2].
      apply in_rangeb_spec in H2. auto.
    + intros (Hin & H1 & H2). apply (Permutation_in _ (Permutation_sym Hperm)).
      apply filter_In. split; [assumption|].
      apply andb_true_iff. split; [assumption | now apply in_rangeb_spec].
  - intros p Hp. eexists. split.
    + apply list_products_eq; [apply query_valid_intro; auto | assumption].
    + split; reflexivity.
Qed.

Lemma given_nonempty s : s <> "" -> given (Some s) = Some s.
Proof. intros H. destruct s; [congruence | reflexivity]. Qed.

Lemma literal_modelled q : literal q = true -> query_modelled (Some q) = true.
Proof.
  intros H. unfold query_modelled. destruct (given (Some q)) as [p|] eqn:E; [|reflexivity].
  simpl in E. destruct (Str.nonempty q); [|discriminate]. injection E as <-.
  now rewrite (compile_literal _ H).
Qed.

Lemma regex_on_literal q v :
  regex_on (Regex.lit_re (Str.chars q)) v = text_has q v.
Proof.
  destruct v as [[]|]; simpl; try reflexivity.
  - apply search_literal.
  - induction l as [|s l IH]; simpl; [reflexivity|].
    now rewrite search_literal, IH.
Qed.

Lemma matchb_text q c mn mx d :
  q <> "" -> literal q = true ->
  matchb (build_filt (Some q) c mn mx) d
  = text_filter q d && matchb (build_filt None c mn mx) d.
Proof.
  intros Hne Hlit. unfold build_filt. rewrite (given_nonempty _ Hne). simpl.
  f_equal. unfold compile_cond. simpl. rewrite (compile_literal _ Hlit).
  unfold text_filter. now rewrite !regex_on_literal, orb_false_r.
Qed.

(** C4 (amended).  For a non-empty query made only of ASCII characters
    without special meaning in a pattern, and products whose titles and
    descriptions are ASCII text, the result (over all its pages) is
    exactly the products that pass the other filters and in whose title
    or description the query occurs as a substring, ignoring the case of
    letters. *)
Theorem list_products_text_literal hc st q c mn mx sort limit :
  (1 <= limit <= 60)%Z -> ge0 mn = true -> ge0 mx = true ->
  q <> "" -> literal q = true ->
  ascii_only q = true -> forallb ascii_texts (coll "product" st) = true ->
  exists docs,
    Permutation docs
      (List.filter (fun d => text_filter q d && matchb (build_filt None c mn mx) d)
         (coll "product" st))
    /\ (forall p, (1 <= p)%Z ->
          exists r, list_products hc (Some st) (Some q) c mn mx sort p limit = Ok r
                    /\ items r = map serialize_doc (slice p limit docs)
                    /\ total r = Z.of_nat (length docs)).
Proof.
  intros Hl Hmn Hmx Hne Hlit _ _.
  exists (arrange sort (List.filter (matchb (build_filt (Some q) c mn mx)) (coll "product" st))).
  split.
  - rewrite arrange_perm. erewrite filter_ext; [reflexivity|].
    intros d. now apply matchb_text.
  - intros p Hp. eexists. split.
    + apply list_products_eq; [apply query_valid_intro; auto | now apply literal_modelled].
    + split; reflexivity.
Qed.

Lemma lookup_map {A B} (f : A -> B) (l : list A) i :
  map f l !! i = option_map f (l !! i).
Proof.
  revert i. induction l as [|x l IH]; intros [|i]; simpl; auto.
Qed.

Lemma price_serialize d : price_of (serialize_doc d) = price d.
Proof.
  unfold price_of, price, serialize_doc, get. simpl.
  destruct (is_empty d); [reflexivity|].
  rewrite lookup_fmap.
  destruct (_id d); rewrite lookup_insert_ne by discriminate;
    destruct (fields d !! "price") as [[]|]; reflexivity.
Qed.

Lemma sort_key_scalar desc v x : scalar_of v = Some x -> sort_key desc v = Some x.
Proof. destruct v as [[]|]; simpl; intros H; try discriminate; exact H. Qed.

Lemma sorted_by_desc k docs : sorted_by k (-1) docs -> non_increasing k docs.
Proof.
  apply Sorted_impl. intros a b H x y Hx Hy. cbv beta in H. unfold before in H. simpl in H.
  now rewrite (sort_key_scalar _ _ _ Hx), (sort_key_scalar _ _ _ Hy) in H.
Qed.

Lemma sorted_by_asc k docs : sorted_by k 1 docs -> non_decreasing k docs.
Proof.
  apply Sorted_impl. intros a b H x y Hx Hy. cbv beta in H. unfold before in H. simpl in H.
  now rewrite (sort_key_scalar _ _ _ Hx), (sort_key_scalar _ _ _ Hy) in H.
Qed.

Lemma arrange_sorted_by s m :
  s <> "" ->
  sorted_by (sort_field s) (if Str.startswith "-" s then (-1)%Z else 1%Z) (arrange (Some s) m).
Proof.
  intros Hne. unfold arrange, sort_field. rewrite (given_nonempty _ Hne).
  destruct (Str.startswith "-" s).
  - apply (sort_by_Sorted (before (Str.tail s) (-1))). apply before_total.
  - apply (sort_by_Sorted (before s 1)). apply before_total.
Qed.

Lemma arrange_sorted_desc s m :
  s <> "" -> Str.startswith "-" s = true ->
  non_increasing (Str.tail s) (arrange (Some s) m).
Proof.
  intros Hne Hs. apply sorted_by_desc.
  pose proof (arrange_sorted_by s m Hne) as H. unfold sort_field in H. now rewrite Hs in H.
Qed.

Lemma arrange_sorted_asc s m :
  s <> "" -> Str.startswith "-" s = false ->
  non_decreasing s (arrange (Some s) m).
Proof.
  intros Hne Hs. apply sorted_by_asc.
  pose proof (arrange_sorted_by s m Hne) as H. unfold sort_field in H. now rewrite Hs in H.
Qed.

Lemma slice_sorted (R : document -> document -> Prop) p limit docs :
  Sorted R docs -> Sorted R (slice p limit docs).
Proof. intros H. unfold slice. now apply Sorted_take, Sorted_drop. Qed.

Lemma price_desc_adjacent a b pa pb :
  (forall x y, scalar_of (get "price" a) = Some x -> scalar_of (get "price" b) = Some y ->
     leb y x = true) ->
  price a = Some pa -> price b = Some pb -> (pb <= pa)%Q.
Proof.
  unfold price. intros H Ha Hb.
  destruct (get "price" a) as [va|]; [|discriminate].
  destruct (get "price" b) as [vb|]; [|discriminate].
  apply Qle_bool_iff.
  destruct va, vb; simpl in *; try discriminate;
    injection Ha as <-; injection Hb as <-; exact (H _ _ eq_refl eq_refl).
Qed.

Lemma field_name_nonempty s : field_name (sort_field s) = true -> s <> "".
Proof. intros H ->. discriminate. Qed.

Lemma arrange_in_order s m :
  s <> "" -> in_order s (arrange (Some s) m).
Proof.
  intros Hne. unfold in_order. destruct (Str.startswith "-" s) eqn:Hs.
  - now apply arrange_sorted_desc.
  - now apply arrange_sorted_asc.
Qed.

(** C9.  [list_products] sorts by one key.  With [sort] naming a field,
    the products that pass the filters are listed, page after page, in
    an order that never increases in that field when the name is
    prefixed by ["-"], and never decreases when it is not (of two
    neighbours whose field holds no list, in the comparison order of the
    store); without a [sort] parameter the order is descending in
    ["created_at"]; and with [sort="-price"] the prices of the items of
    a page never increase. *)
Theorem list_products_sorted hc st q c mn mx limit :
  (1 <= limit <= 60)%Z -> ge0 mn = true -> ge0 mx = true ->
  text_modelled q (coll "product" st) = true ->
  exists f : document -> bool,
    (forall d, f d = true <-> wanted q c mn mx d)
    /\ (forall s, field_name (sort_field s) = true ->
          exists docs,
            Permutation docs (List.filter f (coll "product" st))
            /\ in_order s docs
            /\ forall p, (1 <= p)%Z ->
                 exists r,
                   list_products hc (Some st) q c mn mx (Some s) p limit = Ok r
                   /\ items r = map serialize_doc (slice p limit docs))
    /\ (exists docs,
          Permutation docs (List.filter f (coll "product" st))
          /\ non_increasing "created_at" docs
          /\ forall p, (1 <= p)%Z ->
               exists r,
                 get_products hc (Some st) q c mn mx None (Some p) (Some limit) = Ok r
                 /\ items r = map serialize_doc (slice p limit docs))
    /\ (forall p, (1 <= p)%Z ->
          exists r,
            list_products hc (Some st) q c mn mx (Some "-price") p limit = Ok r
            /\ forall i x y px py,
                 items r !! i = Some x -> items r !! S i = Some y ->
                 price_of x = Some px -> price_of y = Some py -> (py <= px)%Q).
Proof.
  intros Hl Hmn Hmx Ht. pose proof (text_modelled_query _ _ Ht) as Hq.
  exists (matchb (build_filt q c mn mx)).
  assert (Heq : forall s p, (1 <= p)%Z ->
            list_products hc (Some st) q c mn mx (Some s) p limit
            = let docs := arrange (Some s)
                            (List.filter (matchb (build_filt q c mn mx)) (coll "product" st)) in
              Ok {| items := map serialize_doc (slice p limit docs);
                    total := Z.of_nat (length docs);
                    page := p;
                    pages := (Z.of_nat (length docs) + limit - 1) / limit |}).
  { intros s p Hp. apply list_products_eq; [apply query_valid_intro; auto | assumption]. }
  assert (Hsort : forall s, s <> "" ->
            exists docs,
              Permutation docs (List.filter (matchb (build_filt q c mn mx)) (coll "product" st))
              /\ in_order s docs
              /\ forall p, (1 <= p)%Z ->
                   exists r,
                     list_products hc (Some st) q c mn mx (Some s) p limit = Ok r
                     /\ items r = map serialize_doc (slice p limit docs)).
  { intros s Hne. eexists. split; [apply (arrange_perm (Some s))|].
    split; [now apply arrange_in_order|].
    intros p Hp. eexists. split; [now apply Heq | reflexivity]. }
  split; [intros d; now apply matchb_wanted|]. split; [|split].
  - intros s Hs. apply Hsort. now apply field_name_nonempty.
  - apply (Hsort "-created_at"). discriminate.
  - intros p Hp. eexists. split; [now apply Heq|].
    cbv zeta. cbn [items].
    intros i x y px py Hx Hy Hpx Hpy. rewrite lookup_map in Hx, Hy.
    set (docs := slice p limit _) in Hx, Hy.
    destruct (docs !! i) as [a|] eqn:Ha; [|discriminate].
    destruct (docs !! S i) as [b|] eqn:Hb; [|discriminate].
    injection Hx as <-. injection Hy as <-. rewrite price_serialize in Hpx, Hpy.
    assert (Hsorted : non_increasing "price" docs).
    { apply slice_sorted. apply (arrange_sorted_desc "-price"); [discriminate | reflexivity]. }
    pose proof (Sorted_adjacent _ _ Hsorted i a b Ha Hb) as Hab.
    exact (price_desc_adjacent a b px py Hab Hpx Hpy).
Qed.

End Listing.

(** * Lookups by identifier *)

Section Lookup.

Import Bson Store Main Spec.
Local Open Scope list_scope.

Lemma head_filter {A} (P : A -> bool) (l : list A) : head (List.filter P l) = List.find P l.
Proof.
  induction l as [|x l IH]; simpl; [reflexivity|]. destruct (P x); [reflexivity | exact IH].
Qed.

Lemma find_ext' {A} (P Q : A -> bool) (l : list A) :
  (forall x, P x = Q x) -> List.find P l = List.find Q l.
Proof.
  intros H. induction l as [|x l IH]; simpl; [reflexivity|]. now rewrite H, IH.
Qed.

Lemma matchb_id o d : matchb [Field "_id" (CEq (VOid o))] d = bool_decide (_id d = Some o).
Proof.
  unfold matchb. simpl. rewrite andb_true_r, get_id. unfold eq_on.
  destruct (_id d) as [x|]; simpl.
  - rewrite orb_false_r. destruct (String.eqb_spec x o) as [->|Hne].
    + symmetry. now apply bool_decide_eq_true.
    + symmetry. apply bool_decide_eq_false. congruence.
  - reflexivity.
Qed.

Lemma find_one_id o l : find_one l [Field "_id" (CEq (VOid o))] = by_id o l.
Proof.
  unfold find_one, by_id. rewrite head_filter. apply find_ext'. intros d. apply matchb_id.
Qed.

Lemma by_id_Some o l p : by_id o l = Some p -> _id p = Some o /\ In p l.
Proof.
  intros H. apply find_some in H as [Hin H]. apply bool_decide_eq_true in H. auto.
Qed.

Lemma by_id_None o l : by_id o l = None <-> forall d, In d l -> _id d <> Some o.
Proof.
  unfold by_id. split.
  - intros H d Hd. apply (find_none _ _ H) in Hd. now apply bool_decide_eq_false in Hd.
  - intros H. destruct (List.find _ l) as [p|] eqn:E; [|reflexivity].
    apply find_some in E as [Hin E]. apply bool_decide_eq_true in E. now apply H in Hin.
Qed.

Lemma found_by_id o l : found (by_id o l) = by_id o l.
Proof.
  destruct (by_id o l) as [p|] eqn:E; [|reflexivity].
  apply by_id_Some in E as [E _]. simpl. unfold is_empty. now rewrite E.
Qed.

(** Normalization: the identifier becomes the string ["id"], timestamps
    become ISO strings, every other field is kept. *)
Lemma serialize_doc_id o d :
  _id d = Some o -> serialize_doc d !! "id" = Some (VStr o).
Proof.
  intros H. unfold serialize_doc, is_empty. rewrite H.
  now rewrite lookup_fmap, lookup_insert_eq.
Qed.

Lemma serialize_doc_other o d k :
  _id d = Some o -> k <> "id" -> serialize_doc d !! k = iso <$> fields d !! k.
Proof.
  intros H Hk. unfold serialize_doc, is_empty. rewrite H.
  rewrite lookup_fmap, lookup_insert_ne by congruence. reflexivity.
Qed.

(** C5 (amended).  With the store available and an identifier that
    parses as a store identifier: [get_product] fails with 404 when no
    product has that identifier, and otherwise returns the product's
    record normalized, the identifier as the string ["id"] and every
    timestamp as an ISO string. *)
Theorem get_product_parsed st id o :
  parse_oid id = Some o ->
  ((forall d, In d (coll "product" st) -> _id d <> Some o) ->
     get_product (Some st) id = HTTPException 404 "Product not found")
  /\ (forall p, by_id o (coll "product" st) = Some p ->
        get_product (Some st) id = Ok (serialize_doc p)
        /\ In p (coll "product" st) /\ _id p = Some o
        /\ serialize_doc p !! "id" = Some (VStr o)
        /\ (forall k t, k <> "id" -> fields p !! k = Some (VDate t) ->
              serialize_doc p !! k = Some (VStr (isoformat t)))
        /\ (forall k v, k <> "id" -> fields p !! k = Some v ->
              (forall t, v <> VDate t) -> serialize_doc p !! k = Some v)).
Proof.
  intros Hp. unfold get_product. simpl. rewrite Hp. simpl.
  rewrite find_one_id, found_by_id. split.
  - intros H. apply by_id_None in H. now rewrite H.
  - intros p Hb. rewrite Hb. destruct (by_id_Some _ _ _ Hb) as [Hid Hin].
    repeat split; auto.
    + now apply serialize_doc_id.
    + intros k t Hk Hf. rewrite (serialize_doc_other o) by assumption. now rewrite Hf.
    + intros k v Hk Hf Hv. rewrite (serialize_doc_other o) by assumption. rewrite Hf.
      simpl. destruct v; try reflexivity. now destruct (Hv t).
Qed.

End Lookup.

(** * The cart *)

Section Cart.

Import Bson Store Schemas Main Spec.
Local Open Scope list_scope.

Lemma to_list_find_eq l k s :
  to_list (find l [Field k (CEq (VStr s))]) = Ok (List.filter (field_is k s) l).
Proof.
  unfold to_list, find, window, selected. simpl.
  f_equal. apply filter_ext. intros d. apply matchb_field_is.
Qed.

(** The product lookup of one loop iteration, by what the item refers to. *)
Lemma cart_row_good st it :
  reference_of it <> BadRef ->
  cart_row st it
  = Ok (<["product" := resolved st it]> (JVal <$> serialize_doc it)).
Proof.
  unfold cart_row, reference_of, resolved, reference_of. intros H.
  destruct (get "product_id" it) as [v|]; [|reflexivity].
  destruct (truthy v) eqn:Ht; [|reflexivity].
  destruct v; cbn [ObjectId_of] in *; try contradiction; try discriminate.
  - destruct (parse_oid s); [|contradiction]. cbn [bind].
    rewrite find_one_id, found_by_id. now destruct (by_id _ _).
  - cbn [bind]. rewrite find_one_id, found_by_id. now destruct (by_id _ _).
Qed.

Lemma cart_row_bad st it :
  reference_of it = BadRef ->
  cart_row st it = Raised InvalidId \/ cart_row st it = Raised TypeError.
Proof.
  unfold cart_row, reference_of. intros H.
  destruct (get "product_id" it) as [v|]; [|discriminate].
  destruct (truthy v) eqn:Ht; [|discriminate].
  destruct v; cbn [ObjectId_of bind] in *; try discriminate; auto.
  destruct (parse_oid s); [discriminate|]. auto.
Qed.

Lemma is_row_intro st it :
  is_row st it (<["product" := resolved st it]> (JVal <$> serialize_doc it)).
Proof.
  split.
  - apply lookup_insert_eq.
  - intros k Hk. rewrite lookup_insert_ne by congruence. apply lookup_fmap.
Qed.

Lemma cart_rows_good st its :
  Forall (fun it => reference_of it <> BadRef) its ->
  exists rows, cart_rows st its = Ok rows /\ Forall2 (is_row st) its rows.
Proof.
  induction 1 as [|it its Hit _ IH]; simpl.
  - exists []. split; [reflexivity | constructor].
  - destruct IH as (rows & -> & Hrows). rewrite (cart_row_good _ _ Hit). simpl.
    eexists. split; [reflexivity|]. constructor; [apply is_row_intro | assumption].
Qed.

Lemma cart_rows_bad st its :
  Exists (fun it => reference_of it = BadRef) its ->
  cart_rows st its = Raised InvalidId \/ cart_rows st its = Raised TypeError.
Proof.
  induction its as [|it its IH]; intros H; [now apply Exists_nil in H|].
  simpl. destruct (reference_of it) eqn:Hr.
  - rewrite cart_row_good by congruence. simpl.
    apply Exists_cons in H as [H|H]; [congruence|].
    destruct (IH H) as [-> | ->]; auto.
  - rewrite cart_row_good by congruence. simpl.
    apply Exists_cons in H as [H|H]; [congruence|].
    destruct (IH H) as [-> | ->]; auto.
  - destruct (cart_row_bad st it Hr) as [-> | ->]; auto.
Qed.

(** C1 (amended).  When the [product_id] of every cart item of the client
    is empty or parses as a product identifier, [get_cart] returns one
    row per stored cart item of that client, in stored order, each the
    normalized item annotated with its product: the normalized product
    record, or null when [product_id] is empty or no product has that
    identifier. *)
Theorem get_cart_rows st client_id :
  let its := List.filter (owned_by client_id) (coll "cartitem" st) in
  Forall (fun it => reference_of it <> BadRef) its ->
  exists rows,
    get_cart (Some st) client_id = Ok rows
    /\ Forall2 (is_row st) its rows.
Proof.
  intros its H. unfold get_cart. rewrite to_list_find_eq. simpl.
  now apply cart_rows_good.
Qed.

(** A cart item whose [product_id] is not a product identifier makes
    the whole request fail. *)
Lemma get_cart_bad_reference st client_id :
  Exists (fun it => reference_of it = BadRef)
    (List.filter (owned_by client_id) (coll "cartitem" st)) ->
  get_cart (Some st) client_id = Raised InvalidId
  \/ get_cart (Some st) client_id = Raised TypeError.
Proof.
  intros H. unfold get_cart. rewrite to_list_find_eq. simpl. now apply cart_rows_bad.
Qed.

End Cart.

(** * Updates *)

Section Updates.

Import Bson Store Schemas Main Spec.
Local Open Scope list_scope.

Lemma update_first_none f upd l :
  (forall d, In d l -> matchb f d = false) -> update_first f upd l = (l, 0%Z).
Proof.
  induction l as [|d l IH]; intros H; simpl; [reflexivity|].
  rewrite (H d) by now left. rewrite IH; [reflexivity|].
  intros x Hx. apply H. now right.
Qed.

Lemma update_first_split f upd pre d post :
  (forall x, In x pre -> matchb f x = false) -> matchb f d = true ->
  update_first f upd (pre ++ d :: post) = (pre ++ upd d :: post, 1%Z).
Proof.
  induction pre as [|x pre IH]; intros Hpre Hd; simpl.
  - now rewrite Hd.
  - rewrite (Hpre x) by now left. rewrite IH; [reflexivity | | assumption].
    intros y Hy. apply Hpre. now right.
Qed.

Lemma update_first_inv f upd l l' n :
  update_first f upd l = (l', n) -> n <> 0%Z ->
  exists pre d post,
    l = pre ++ d :: post /\ l' = pre ++ upd d :: post
    /\ matchb f d = true /\ forall x, In x pre -> matchb f x = false.
Proof.
  revert l' n. induction l as [|d l IH]; intros l' n H Hn; simpl in H.
  - injection H as <- <-. congruence.
  - destruct (matchb f d) eqn:Hd.
    + injection H as <- <-. exists [], d, l. repeat split; auto. intros x [].
    + destruct (update_first f upd l) as [l'' m] eqn:E. injection H as <- <-.
      destruct (IH _ _ eq_refl Hn) as (pre & x & post & -> & -> & Hx & Hpre).
      exists (d :: pre), x, post. repeat split; auto.
      intros y [<-|Hy]; auto.
Qed.

Lemma by_id_split o l it :
  by_id o l = Some it ->
  exists pre post, l = pre ++ it :: post /\ forall x, In x pre -> _id x <> Some o.
Proof.
  unfold by_id. induction l as [|d l IH]; simpl; [discriminate|].
  destruct (bool_decide (_id d = Some o)) eqn:E.
  - intros H. injection H as ->. exists [], l. split; [reflexivity | intros x []].
  - intros H. destruct (IH H) as (pre & post & -> & Hpre).
    exists (d :: pre), post. split; [reflexivity|].
    intros x [<-|Hx]; [now apply bool_decide_eq_false in E | auto].
Qed.

Lemma db_eta st : {| colls := colls st; next_oid := next_oid st |} = st.
Proof. now destruct st. Qed.

Lemma coll_insert name l c : coll name {| colls := <[name := l]> c; next_oid := 0 |} = l.
Proof. unfold coll. simpl. now rewrite lookup_insert_eq. Qed.

Lemma apply_set_cart qty now it :
  apply_set [("qty", VInt qty); ("updated_at", VDate now)] it
  = {| _id := _id it;
       fields := <["updated_at" := VDate now]> (<["qty" := VInt qty]> (fields it)) |}.
Proof. reflexivity. Qed.

(** What [update_cart] does for an identifier that parses and a quantity
    that fits 64 bits. *)
Lemma update_cart_eq st now id qty o :
  parse_oid id = Some o -> int64 qty = true ->
  update_cart (Some st) now id qty
  = let '(l, n) := update_first [Field "_id" (CEq (VOid o))]
                     (apply_set [("qty", VInt qty); ("updated_at", VDate (trunc_ms now))])
                     (coll "cartitem" st) in
    if (n =? 0)%Z
    then (HTTPException 404 "Cart item not found", Some st)
    else (Ok true, Some {| colls := <["cartitem" := l]> (colls st); next_oid := next_oid st |}).
Proof.
  intros Hp Hq. unfold update_cart, update_one. cbn [ObjectId_of]. rewrite Hp.
  cbn [forallb snd encodable]. rewrite Hq. cbn [andb map fst snd stored].
  destruct (update_first _ _ _) as [l n]. cbn [and_then].
  destruct (n =? 0)%Z; [|reflexivity]. now rewrite db_eta.
Qed.

(** A quantity outside 64 bits stops [update_cart] before the store is
    reached. *)
Lemma update_cart_overflow st now id qty o :
  parse_oid id = Some o -> int64 qty = false ->
  update_cart (Some st) now id qty = (Raised OverflowError, Some st).
Proof.
  intros Hp Hq. unfold update_cart, update_one. cbn [ObjectId_of]. rewrite Hp.
  cbn [forallb snd encodable]. rewrite Hq. reflexivity.
Qed.

(** C7 (amended).  For an item identifier that parses as a store
    identifier and a quantity that fits 64 bits: [update_cart] fails
    with 404, changing nothing, when no cart item has that identifier;
    otherwise it reports success and the item has quantity [qty] and
    [updated_at] equal to the server time, cut to the millisecond.  A
    quantity outside 64 bits makes the request fail with
    [OverflowError], changing nothing. *)
Theorem update_cart_parsed st now id qty o :
  parse_oid id = Some o ->
  (int64 qty = true ->
     ((forall d, In d (coll "cartitem" st) -> _id d <> Some o) ->
        update_cart (Some st) now id qty
        = (HTTPException 404 "Cart item not found", Some st))
     /\ (forall it, by_id o (coll "cartitem" st) = Some it ->
           exists st' pre post it',
             update_cart (Some st) now id qty = (Ok true, Some st')
             /\ coll "cartitem" st = pre ++ it :: post
             /\ (forall x, In x pre -> _id x <> Some o)
             /\ coll "cartitem" st' = pre ++ it' :: post
             /\ _id it' = Some o
             /\ get "qty" it' = Some (VInt qty)
             /\ get "updated_at" it' = Some (VDate (trunc_ms now))))
  /\ (int64 qty = false ->
        update_cart (Some st) now id qty = (Raised OverflowError, Some st)).
Proof.
  intros Hp. split; [|intros Hq; exact (update_cart_overflow _ _ _ _ _ Hp Hq)].
  intros Hq. rewrite (update_cart_eq _ _ _ _ _ Hp Hq). split.
  - intros H. rewrite update_first_none; [reflexivity|].
    intros d Hd. rewrite matchb_id. apply bool_decide_eq_false. auto.
  - intros it Hb. destruct (by_id_split _ _ _ Hb) as (pre & post & Hl & Hpre).
    destruct (by_id_Some _ _ _ Hb) as [Hid _].
    rewrite Hl, update_first_split.
    + cbv beta iota zeta. change (1 =? 0)%Z with false. cbv beta iota.
      eexists _, pre, post, _. split; [reflexivity|].
      split; [reflexivity|]. split; [assumption|].
      split; [unfold coll; simpl; now rewrite lookup_insert_eq|].
      rewrite ?apply_set_cart. split; [exact Hid|]. split.
      * rewrite get_field by discriminate. simpl.
        rewrite lookup_insert_ne by discriminate. apply lookup_insert_eq.
      * rewrite get_field by discriminate. apply lookup_insert_eq.
    + intros x Hx. rewrite matchb_id. apply bool_decide_eq_false. auto.
    + rewrite matchb_id. now apply bool_decide_eq_true.
Qed.

(** C10.  A successful [update_cart] changes only the fields [qty] and
    [updated_at] of the matched cart item; its identifier, [client_id],
    [product_id] and every other field are unchanged, and so are all
    other cart items and all other collections. *)
Theorem update_cart_frame st now id qty st' :
  update_cart (Some st) now id qty = (Ok true, Some st') ->
  exists o pre it it' post,
    parse_oid id = Some o
    /\ coll "cartitem" st = pre ++ it :: post
    /\ coll "cartitem" st' = pre ++ it' :: post
    /\ _id it = Some o /\ _id it' = _id it
    /\ (forall k, k <> "qty" -> k <> "updated_at" -> get k it' = get k it)
    /\ get "client_id" it' = get "client_id" it
    /\ get "product_id" it' = get "product_id" it
    /\ (forall name, name <> "cartitem" -> coll name st' = coll name st).
Proof.
  intros H. destruct (parse_oid id) as [o|] eqn:Hp.
  2:{ unfold update_cart in H. cbn [ObjectId_of] in H. rewrite Hp in H. discriminate. }
  destruct (int64 qty) eqn:Hq.
  2:{ rewrite (update_cart_overflow _ _ _ _ _ Hp Hq) in H. discriminate. }
  rewrite (update_cart_eq _ _ _ _ _ Hp Hq) in H.
  destruct (update_first _ _ _) as [l n] eqn:E.
  destruct (n =? 0)%Z eqn:Hn; [discriminate|]. injection H as <-.
  apply update_first_inv in E as (pre & it & post & Hl & -> & Hit & Hpre); [|lia].
  rewrite matchb_id in Hit. apply bool_decide_eq_true in Hit.
  set (kvs := [("qty", VInt qty); ("updated_at", VDate (trunc_ms now))]).
  assert (Hget : forall k, k <> "qty" -> k <> "updated_at" ->
            get k (apply_set kvs it) = get k it).
  { intros k H1 H2. unfold kvs. rewrite apply_set_cart. unfold get. simpl.
    destruct (decide (k = "_id")); [reflexivity|].
    now rewrite !lookup_insert_ne by congruence. }
  exists o, pre, it, (apply_set kvs it), post.
  split; [reflexivity|]. split; [assumption|].
  split; [unfold coll; simpl; now rewrite lookup_insert_eq|].
  split; [assumption|]. split; [reflexivity|]. split; [exact Hget|].
  split; [apply Hget; discriminate|]. split; [apply Hget; discriminate|].
  intros name Hname. unfold coll. simpl. now rewrite lookup_insert_ne by congruence.
Qed.

End Updates.

(** * Insertions: registration and seeding *)

Section Insertions.

Import Bson Store Schemas Main Spec.
Local Open Scope list_scope.

Lemma coll_put name d st :
  coll name (put name d st)
  = coll name st ++ [{| _id := Some (oid_for d st); fields := stored <$> fields d |}].
Proof. unfold put, coll. simpl. now rewrite lookup_insert_eq. Qed.

Lemma coll_put_ne name other d st :
  other <> name -> coll other (put name d st) = coll other st.
Proof. intros H. unfold put, coll. simpl. now rewrite lookup_insert_ne by congruence. Qed.

Lemma put_all_cons name d ds st :
  put_all name (d :: ds) st = put_all name ds (put name d st).
Proof. reflexivity. Qed.

Lemma length_put_all name ds : forall st,
  length (coll name (put_all name ds st)) = (length (coll name st) + length ds)%nat.
Proof.
  induction ds as [|d ds IH]; intros st; [simpl; lia|].
  rewrite put_all_cons, IH, coll_put, length_app. simpl. lia.
Qed.

Lemma coll_put_all_ne name other ds : forall st,
  other <> name -> coll other (put_all name ds st) = coll other st.
Proof.
  induction ds as [|d ds IH]; intros st H; [reflexivity|].
  rewrite put_all_cons, IH by assumption. now apply coll_put_ne.
Qed.

(** The encoder takes a document exactly when it takes each of its
    values. *)
Lemma encodable_doc_spec d :
  encodable_doc d = true <-> forall k v, fields d !! k = Some v -> encodable v = true.
Proof.
  unfold encodable_doc. rewrite forallb_forall. split.
  - intros H k v Hk. apply (H (k, v)). apply list_elem_of_In. now apply elem_of_map_to_list.
  - intros H [k v] Hkv. apply list_elem_of_In, elem_of_map_to_list in Hkv. exact (H k v Hkv).
Qed.

Lemma insert_one_ok name d st :
  encodable_doc d = true -> insert_one name d st = (Ok (oid_for d st), put name d st).
Proof. intros H. unfold insert_one. now rewrite H. Qed.

Lemma insert_one_overflow name d st :
  encodable_doc d = false -> insert_one name d st = (Raised OverflowError, skip_oids 1 st).
Proof. intros H. unfold insert_one. now rewrite H. Qed.

Lemma insert_many_ok name ds st :
  ds <> [] -> forallb encodable_doc ds = true ->
  insert_many name ds st = (Ok tt, put_all name ds st).
Proof.
  intros Hne H. unfold insert_many. destruct ds; [congruence|]. now rewrite H.
Qed.

Lemma coll_skip_oids name n st : coll name (skip_oids n st) = coll name st.
Proof. reflexivity. Qed.

Lemma filter_all {A} (P : A -> bool) (l : list A) :
  (forall x, P x = true) -> List.filter P l = l.
Proof.
  intros H. induction l as [|x l IH]; simpl; [reflexivity|]. now rewrite H, IH.
Qed.

Lemma filter_none {A} (P : A -> bool) (l : list A) :
  (forall x, In x l -> P x = false) -> List.filter P l = [].
Proof.
  induction l as [|x l IH]; intros H; simpl; [reflexivity|].
  rewrite (H x) by now left. apply IH. intros y Hy. apply H. now right.
Qed.

Lemma count_all l : count_documents l [] = Ok (Z.of_nat (length l)).
Proof. unfold count_documents. simpl. now rewrite filter_all. Qed.

Lemma length_seed_products : length seed_products = 24%nat.
Proof. unfold seed_products. now rewrite length_map, length_seq. Qed.

Lemma seed_data_full st :
  coll "product" st <> [] -> seed_data (Some st) = (Ok AlreadySeeded, Some st).
Proof.
  intros Hs. unfold seed_data. rewrite count_all.
  destruct (coll "product" st); [congruence|]. reflexivity.
Qed.

Lemma seed_categories_encodable : forallb encodable_doc seed_categories = true.
Proof. vm_compute. reflexivity. Qed.

Lemma seed_products_encodable : forallb encodable_doc seed_products = true.
Proof. vm_compute. reflexivity. Qed.

Lemma seed_products_nonempty : seed_products <> [].
Proof. intros E. apply (f_equal (@length _)) in E. rewrite length_seed_products in E. discriminate. Qed.

Lemma seed_data_empty st :
  coll "product" st = [] ->
  seed_data (Some st)
  = (Ok (Inserted 24),
     Some (put_all "product" seed_products (put_all "category" seed_categories st))).
Proof.
  intros E. unfold seed_data. rewrite count_all, E, length_seed_products.
  cbv beta iota. change (0 <? Z.of_nat (length (@nil document)))%Z with false.
  cbv beta iota.
  rewrite (insert_many_ok "category" seed_categories)
    by (discriminate || apply seed_categories_encodable).
  cbv beta iota delta [and_then].
  rewrite (insert_many_ok "product" seed_products)
    by (apply seed_products_nonempty || apply seed_products_encodable).
  reflexivity.
Qed.

(** C8.  [seed_data] is idempotent: when a product exists it inserts
    nothing and reports that the store is already seeded; and after any
    run, a second run changes nothing and reports the same, so seeding
    twice leaves the store as seeding once does.  On a store without
    products the first run inserts the 24 sample products. *)
Theorem seed_idempotent st :
  (coll "product" st <> [] -> seed_data (Some st) = (Ok AlreadySeeded, Some st))
  /\ exists r st1,
       seed_data (Some st) = (r, Some st1)
       /\ seed_data (Some st1) = (Ok AlreadySeeded, Some st1)
       /\ (coll "product" st = [] ->
             r = Ok (Inserted 24) /\ length (coll "product" st1) = 24%nat).
Proof.
  split; [apply seed_data_full|].
  destruct (coll "product" st) as [|d l] eqn:E.
  - eexists _, _. split; [now apply seed_data_empty|].
    assert (Hlen : length (coll "product"
                     (put_all "product" seed_products
                        (put_all "category" seed_categories st))) = 24%nat).
    { rewrite length_put_all, coll_put_all_ne by discriminate.
      now rewrite E, length_seed_products. }
    split.
    + apply seed_data_full. intros H. rewrite H in Hlen. discriminate.
    + intros _. split; [reflexivity | exact Hlen].
  - exists (Ok AlreadySeeded), st. rewrite seed_data_full by congruence.
    split; [reflexivity|]. split; [reflexivity | discriminate].
Qed.

End Insertions.

(** * Registration *)

Section Registration.

Import Bson Store Schemas Main Spec.
Local Open Scope list_scope.

Variable EmailStr : string -> option string.

Lemma find_one_none l k s :
  (forall d, In d l -> field_is k s d = false) ->
  find_one l [Field k (CEq (VStr s))] = None.
Proof.
  intros H. unfold find_one. rewrite filter_none; [reflexivity|].
  intros d Hd. rewrite matchb_field_is. now apply H.
Qed.

Lemma filter_single {A} (P : A -> bool) (x : A) : P x = true -> List.filter P [x] = [x].
Proof. intros H. simpl. now rewrite H. Qed.

Lemma find_one_last l k s d :
  (forall x, In x l -> field_is k s x = false) -> field_is k s d = true ->
  find_one (l ++ [d]) [Field k (CEq (VStr s))] = Some d.
Proof.
  intros H Hd. unfold find_one. rewrite List.filter_app, filter_none.
  - rewrite filter_single; [reflexivity|]. now rewrite matchb_field_is.
  - intros x Hx. rewrite matchb_field_is. now apply H.
Qed.

Lemma User_dump_email u : User_dump u !! "email" = Some (VStr (email u)).
Proof. unfold User_dump. now rewrite lookup_insert_ne, lookup_insert_eq by discriminate. Qed.

Lemma User_dump_name u : User_dump u !! "name" = Some (VStr (name u)).
Proof. unfold User_dump. now rewrite lookup_insert_eq. Qed.

Lemma User_dump_password u : User_dump u !! "password_hash" = Some (VStr (password_hash u)).
Proof. unfold User_dump. now rewrite !lookup_insert_ne, lookup_insert_eq by discriminate. Qed.

Lemma User_dump_role u : User_dump u !! "role" = Some (VStr (role_str (role u))).
Proof. unfold User_dump. now rewrite !lookup_insert_ne, lookup_insert_eq by discriminate. Qed.

Lemma User_dump_encodable u : encodable_doc {| _id := None; fields := User_dump u |} = true.
Proof.
  apply encodable_doc_spec. intros k v H. simpl in H. unfold User_dump in H.
  repeat (apply lookup_insert_Some in H as [[_ <-]|[_ H]];
          [try reflexivity; now destruct (address u)|]).
  rewrite lookup_empty in H. discriminate.
Qed.

Lemma stored_User_dump u : stored <$> User_dump u = User_dump u.
Proof.
  unfold User_dump. rewrite !fmap_insert, fmap_empty. simpl. now destruct (address u).
Qed.

Lemma create_document_user st u :
  create_document (Some st) "user" (User_dump u)
  = (Ok (oid_of_N (next_oid st)),
     Some (put "user" {| _id := None; fields := User_dump u |} st)).
Proof.
  unfold create_document. now rewrite insert_one_ok by apply User_dump_encodable.
Qed.

(** Two [register] calls with the same e-mail address, one that the
    validator returns as it is and that no stored user has: the first
    creates a user with role ["user"] and the password stored verbatim
    under [password_hash], and returns the created identifier, the name,
    the address and the role; the second fails with status 400 and
    leaves the store as it is. *)
Lemma register_twice st p1 p2 :
  in_email p2 = in_email p1 ->
  EmailStr (in_email p1) = Some (in_email p1) ->
  (forall d, In d (coll "user" st) -> field_is "email" (in_email p1) d = false) ->
  exists uid st1 u,
    register EmailStr (Some st) p1
    = (Ok {| out_id := uid; out_name := in_name p1;
             out_email := in_email p1; out_role := "user" |}, Some st1)
    /\ coll "user" st1 = coll "user" st ++ [u]
    /\ _id u = Some uid
    /\ fields u !! "name" = Some (VStr (in_name p1))
    /\ fields u !! "email" = Some (VStr (in_email p1))
    /\ fields u !! "password_hash" = Some (VStr (in_password p1))
    /\ fields u !! "role" = Some (VStr "user")
    /\ register EmailStr (Some st1) p2
       = (HTTPException 400 "Email already registered", Some st1).
Proof.
  intros Hsame Hvalid Hfresh.
  set (user := {| name := in_name p1; email := in_email p1;
                  password_hash := in_password p1; address := None;
                  is_active := true; role := RoleUser |}).
  set (u := {| _id := Some (oid_of_N (next_oid st)); fields := User_dump user |}).
  set (st1 := put "user" {| _id := None; fields := User_dump user |} st).
  assert (Hc : coll "user" st1 = coll "user" st ++ [u]).
  { unfold st1. rewrite coll_put. simpl. now rewrite stored_User_dump. }
  exists (oid_of_N (next_oid st)), st1, u.
  split.
  { unfold register. rewrite (find_one_none _ _ _ Hfresh). cbn [found].
    unfold new_User. rewrite Hvalid. fold user. now rewrite create_document_user. }
  split; [exact Hc|].
  split; [reflexivity|].
  split; [apply User_dump_name|].
  split; [apply User_dump_email|].
  split; [apply User_dump_password|].
  split; [apply User_dump_role|].
  unfold register. rewrite Hsame, Hc.
  rewrite (find_one_last _ _ _ u Hfresh).
  - reflexivity.
  - unfold field_is. rewrite get_field by discriminate. simpl.
    rewrite User_dump_email. apply String.eqb_refl.
Qed.

End Registration.

(** * Concrete runs *)

Section Runs.

Import Bson Store Schemas Main Spec Examples.
Local Open Scope list_scope.

(** C1, as stated, fails: a stored cart item whose [product_id] does not
    parse makes [get_cart] fail instead of returning a row with a null
    product. *)
Lemma get_cart_unparsable_product_id :
  exists st,
    add_to_cart (Some empty_db) {| client_id := "c1"; product_id := "abc"; qty := 1 |}
    = (Ok "000000000000000000000000", Some st)
    /\ parse_oid "abc" = None
    /\ get_cart (Some st) "c1" = Raised InvalidId
    /\ status (get_cart (Some st) "c1") = Some 500%Z.
Proof.
  eexists. split; [vm_compute; reflexivity|].
  split; [reflexivity|]. split; vm_compute; reflexivity.
Qed.

(** C4, as stated, fails: the query ["."] returns a product in whose
    title and description no full stop occurs. *)
Lemma list_products_dot_wildcard :
  coll "product" one_product
  = [{| _id := Some "000000000000000000000000"; fields := fields plain_product |}]
  /\ text_filter "." {| _id := Some "000000000000000000000000";
                        fields := fields plain_product |} = false
  /\ page_items (list_products true (Some one_product) (Some ".") None None None None 1 12)
     = [serialize_doc {| _id := Some "000000000000000000000000";
                         fields := fields plain_product |}].
Proof. split; [|split]; vm_compute; reflexivity. Qed.

(** C5, as stated, fails: an identifier that does not parse gives an
    unhandled error (status 500), not 404. *)
Lemma get_product_unparsable_id :
  parse_oid "abc" = None
  /\ get_product (Some seeded_db) "abc" = Raised InvalidId
  /\ status (get_product (Some seeded_db) "abc") = Some 500%Z
  /\ status (get_product (Some seeded_db) "abc") <> Some 404%Z.
Proof.
  split; [reflexivity|]. split; [vm_compute; reflexivity|].
  split; [vm_compute; reflexivity|]. vm_compute. discriminate.
Qed.

(** C7, as stated, fails: for an identifier that does not parse, and
    that no cart item has, [update_cart] gives an unhandled error
    (status 500), not 404. *)
Lemma update_cart_unparsable_id :
  parse_oid "abc" = None
  /\ (forall d, In d (coll "cartitem" cart_db) -> _id d <> Some "abc")
  /\ fst (update_cart (Some cart_db) noon "abc" 3) = Raised InvalidId
  /\ status (fst (update_cart (Some cart_db) noon "abc" 3)) <> Some 404%Z.
Proof.
  split; [reflexivity|]. split.
  - apply by_id_None. vm_compute. reflexivity.
  - split; [vm_compute; reflexivity|]. vm_compute. discriminate.
Qed.


(** C6.  Two [register] calls with the address ["Carol@SHOP.io"], which
    the validator returns with its domain in lower case.  The first call
    stores a user under ["Carol@shop.io"]; the second looks for a user
    with ["Carol@SHOP.io"], finds none, and stores a second user under
    ["Carol@shop.io"] instead of failing with status 400. *)
Lemma register_same_address_twice :
  lower_domain (in_email carol) = Some "Carol@shop.io"
  /\ exists uid1 st1 uid2 st2 u1 u2,
       register lower_domain (Some empty_db) carol
       = (Ok {| out_id := uid1; out_name := "Carol";
                out_email := "Carol@shop.io"; out_role := "user" |}, Some st1)
       /\ register lower_domain (Some st1) carol
          = (Ok {| out_id := uid2; out_name := "Carol";
                   out_email := "Carol@shop.io"; out_role := "user" |}, Some st2)
       /\ uid1 <> uid2
       /\ coll "user" st2 = [u1; u2]
       /\ fields u1 !! "email" = Some (VStr "Carol@shop.io")
       /\ fields u2 !! "email" = Some (VStr "Carol@shop.io").
Proof.
  split; [vm_compute; reflexivity|].
  eexists _, _, _, _, _, _. split; [vm_compute; reflexivity|].
  split; [vm_compute; reflexivity|]. split; [discriminate|].
  split; [vm_compute; reflexivity|]. split; vm_compute; reflexivity.
Qed.

(** A quantity one past the largest 64-bit integer stops [update_cart]
    on an existing cart item with [OverflowError] (status 500), and the
    item keeps its quantity; and a successful update stores the server
    time without its microseconds below the millisecond. *)
Lemma update_cart_large_quantity :
  by_id "00000000000000000000001b" (coll "cartitem" cart_db) <> None
  /\ update_cart (Some cart_db) half_past "00000000000000000000001b" (2 ^ 63)
     = (Raised OverflowError, Some cart_db)
  /\ (exists it,
        by_id "00000000000000000000001b"
          (coll "cartitem"
             (state (snd (update_cart (Some cart_db) half_past "00000000000000000000001b" 5))))
        = Some it
        /\ get "updated_at" it = Some (VDate (mkDatetime 2024 5 17 12 30 0 123000))).
Proof.
  split; [vm_compute; discriminate|]. split; [vm_compute; reflexivity|].
  eexists. split; vm_compute; reflexivity.
Qed.

End Runs.

Section Witnesses.

Import Bson Store Schemas Main Spec Examples.
Local Open Scope list_scope.

(** Every item in the cart of client ["c1"] in the sample store refers
    to a product identifier or to nothing. *)
Lemma get_cart_rows_witness :
  Forall (fun it => reference_of it <> BadRef)
    (List.filter (owned_by "c1") (coll "cartitem" cart_db))
  /\ exists rows,
       get_cart (Some cart_db) "c1" = Ok rows
       /\ Forall2 (is_row cart_db)
            (List.filter (owned_by "c1") (coll "cartitem" cart_db)) rows.
Proof.
  assert (H : Forall (fun it => reference_of it <> BadRef)
                (List.filter (owned_by "c1") (coll "cartitem" cart_db))).
  { apply List.Forall_forall. intros it Hit.
    assert (Hb : forallb (fun it => match reference_of it with BadRef => false | _ => true end)
                   (List.filter (owned_by "c1") (coll "cartitem" cart_db)) = true)
      by (vm_compute; reflexivity).
    rewrite forallb_forall in Hb. specialize (Hb it Hit).
    intros E. rewrite E in Hb. discriminate. }
  split; [exact H | exact (get_cart_rows cart_db "c1" H)].
Defined.


Lemma list_products_price_range_witness :
  (1 <= 5 <= 60)%Z /\ ge0 (Some 50%Q) = true /\ ge0 (Some 60%Q) = true
  /\ query_modelled None = true
  /\ exists docs,
       Permutation docs
         (List.filter (fun d => matchb (build_filt None None None None) d
                                && in_rangeb (Some 50%Q) (Some 60%Q) d)
            (coll "product" seeded_db))
       /\ (forall d, In d docs <->
                     In d (coll "product" seeded_db)
                     /\ matchb (build_filt None None None None) d = true
                     /\ in_range (Some 50%Q) (Some 60%Q) d)
       /\ (forall p, (1 <= p)%Z ->
             exists r, list_products false (Some seeded_db) None None (Some 50%Q) (Some 60%Q)
                         (Some "price") p 5 = Ok r
                       /\ items r = map serialize_doc (slice p 5 docs)
                       /\ total r = Z.of_nat (length docs)).
Proof.
  split; [lia|]. do 3 (split; [reflexivity|]).
  apply (list_products_price_range false seeded_db None None (Some 50%Q) (Some 60%Q)
           (Some "price") 5); [lia | reflexivity | reflexivity | reflexivity].
Defined.

Lemma list_products_text_literal_witness :
  (1 <= 12 <= 60)%Z /\ ge0 None = true /\ "card" <> "" /\ literal "card" = true
  /\ ascii_only "card" = true
  /\ forallb ascii_texts (coll "product" seeded_db) = true
  /\ exists docs,
       Permutation docs
         (List.filter (fun d => text_filter "card" d
                                && matchb (build_filt None None None None) d)
            (coll "product" seeded_db))
       /\ (forall p, (1 <= p)%Z ->
             exists r, list_products true (Some seeded_db) (Some "card") None None None
                         None p 12 = Ok r
                       /\ items r = map serialize_doc (slice p 12 docs)
                       /\ total r = Z.of_nat (length docs)).
Proof.
  assert (H : forallb ascii_texts (coll "product" seeded_db) = true)
    by (vm_compute; reflexivity).
  split; [lia|]. split; [reflexivity|]. split; [discriminate|]. split; [reflexivity|].
  split; [reflexivity|]. split; [exact H|].
  apply (list_products_text_literal true seeded_db "card" None None None None 12);
    [lia | reflexivity | reflexivity | discriminate | reflexivity | reflexivity | exact H].
Defined.

Lemma get_product_parsed_witness :
  parse_oid "000000000000000000000004" = Some "000000000000000000000004"
  /\ ((forall d, In d (coll "product" seeded_db) ->
          _id d <> Some "000000000000000000000004") ->
       get_product (Some seeded_db) "000000000000000000000004"
       = HTTPException 404 "Product not found")
  /\ (forall p, by_id "000000000000000000000004" (coll "product" seeded_db) = Some p ->
        get_product (Some seeded_db) "000000000000000000000004" = Ok (serialize_doc p)
        /\ In p (coll "product" seeded_db)
        /\ _id p = Some "000000000000000000000004"
        /\ serialize_doc p !! "id" = Some (VStr "000000000000000000000004")
        /\ (forall k t, k <> "id" -> fields p !! k = Some (VDate t) ->
              serialize_doc p !! k = Some (VStr (isoformat t)))
        /\ (forall k v, k <> "id" -> fields p !! k = Some v ->
              (forall t, v <> VDate t) -> serialize_doc p !! k = Some v)).
Proof.
  split; [reflexivity|].
  exact (get_product_parsed seeded_db "000000000000000000000004"
           "000000000000000000000004" eq_refl).
Defined.

Lemma update_cart_parsed_witness :
  parse_oid "00000000000000000000001b" = Some "00000000000000000000001b"
  /\ int64 5 = true
  /\ ((forall d, In d (coll "cartitem" cart_db) ->
           _id d <> Some "00000000000000000000001b") ->
        update_cart (Some cart_db) half_past "00000000000000000000001b" 5
        = (HTTPException 404 "Cart item not found", Some cart_db))
  /\ (forall it, by_id "00000000000000000000001b" (coll "cartitem" cart_db) = Some it ->
        exists st' pre post it',
          update_cart (Some cart_db) half_past "00000000000000000000001b" 5
          = (Ok true, Some st')
          /\ coll "cartitem" cart_db = pre ++ it :: post
          /\ (forall x, In x pre -> _id x <> Some "00000000000000000000001b")
          /\ coll "cartitem" st' = pre ++ it' :: post
          /\ _id it' = Some "00000000000000000000001b"
          /\ get "qty" it' = Some (VInt 5)
          /\ get "updated_at" it' = Some (VDate (trunc_ms half_past))).
Proof.
  split; [reflexivity|]. split; [reflexivity|].
  exact (proj1 (update_cart_parsed cart_db half_past "00000000000000000000001b" 5
                  "00000000000000000000001b" eq_refl) eq_refl).
Defined.

Lemma seed_idempotent_witness :
  coll "product" seeded_db <> []
  /\ seed_data (Some seeded_db) = (Ok AlreadySeeded, Some seeded_db).
Proof.
  assert (H : coll "product" seeded_db <> []).
  { intros E. apply (f_equal (@length _)) in E. vm_compute in E. discriminate. }
  split; [exact H | exact (proj1 (seed_idempotent seeded_db) H)].
Defined.

Lemma list_products_sorted_witness :
  (1 <= 5 <= 60)%Z /\ ge0 None = true
  /\ text_modelled (Some "card") (coll "product" seeded_db) = true
  /\ exists f : document -> bool,
       (forall d, f d = true <-> wanted (Some "card") None None None d)
       /\ (forall s, field_name (sort_field s) = true ->
             exists docs,
               Permutation docs (List.filter f (coll "product" seeded_db))
               /\ in_order s docs
               /\ forall p, (1 <= p)%Z ->
                    exists r,
                      list_products true (Some seeded_db) (Some "card") None None None
                        (Some s) p 5 = Ok r
                      /\ items r = map serialize_doc (slice p 5 docs))
       /\ (exists docs,
             Permutation docs (List.filter f (coll "product" seeded_db))
             /\ non_increasing "created_at" docs
             /\ forall p, (1 <= p)%Z ->
                  exists r,
                    get_products true (Some seeded_db) (Some "card") None None None None
                      (Some p) (Some 5%Z) = Ok r
                    /\ items r = map serialize_doc (slice p 5 docs))
       /\ (forall p, (1 <= p)%Z ->
             exists r,
               list_products true (Some seeded_db) (Some "card") None None None
                 (Some "-price") p 5 = Ok r
               /\ forall i x y px py,
                    items r !! i = Some x -> items r !! S i = Some y ->
                    price_of x = Some px -> price_of y = Some py -> (py <= px)%Q).
Proof.
  assert (H : text_modelled (Some "card") (coll "product" seeded_db) = true)
    by (vm_compute; reflexivity).
  split; [lia|]. split; [reflexivity|]. split; [exact H|].
  exact (list_products_sorted true seeded_db (Some "card") None None None 5
           ltac:(lia) eq_refl eq_refl H).
Defined.

Lemma update_cart_frame_witness :
  update_cart (Some cart_db) noon "00000000000000000000001b" 5
  = (Ok true, Some updated_db)
  /\ exists o pre it it' post,
       parse_oid "00000000000000000000001b" = Some o
       /\ coll "cartitem" cart_db = pre ++ it :: post
       /\ coll "cartitem" updated_db = pre ++ it' :: post
       /\ _id it = Some o /\ _id it' = _id it
       /\ (forall k, k <> "qty" -> k <> "updated_at" -> get k it' = get k it)
       /\ get "client_id" it' = get "client_id" it
       /\ get "product_id" it' = get "product_id" it
       /\ (forall name, name <> "cartitem" -> coll name updated_db = coll name cart_db).
Proof.
  assert (H : update_cart (Some cart_db) noon "00000000000000000000001b" 5
              = (Ok true, Some updated_db)) by (vm_compute; reflexivity).
  split; [exact H|].
  exact (update_cart_frame cart_db noon "00000000000000000000001b" 5 updated_db H).
Defined.

End Witnesses.

(** * Identifiers *)

Section Identifiers.

Import Bson Store Schemas Main Spec Routes.
Local Open Scope list_scope.

Lemma lower_char_idem c : Str.lower_char (Str.lower_char c) = Str.lower_char c.
Proof. destruct c as [[] [] [] [] [] [] [] []]; reflexivity. Qed.

Lemma is_hex_lower_char c : is_hex (Str.lower_char c) = is_hex c.
Proof. destruct c as [[] [] [] [] [] [] [] []]; reflexivity. Qed.

Lemma lower_cons c s : Str.lower (String c s) = String (Str.lower_char c) (Str.lower s).
Proof. reflexivity. Qed.

Lemma length_lower s : String.length (Str.lower s) = String.length s.
Proof.
  induction s as [|c s IH]; [reflexivity|]. rewrite lower_cons. simpl. now rewrite IH.
Qed.

Lemma hex_digit_lower_hex m : (m < 16)%N -> lower_hex (hex_digit m) = true.
Proof.
  intros H.
  assert (Hall : forallb (fun k => lower_hex (hex_digit (N.of_nat k))) (seq 0 16) = true)
    by (vm_compute; reflexivity).
  rewrite forallb_forall in Hall.
  rewrite <- (N2Nat.id m). apply Hall. apply in_seq. lia.
Qed.

Lemma hex_digits_spec w : forall n acc,
  forallb lower_hex acc = true ->
  forallb lower_hex (hex_digits w n acc) = true
  /\ length (hex_digits w n acc) = (w + length acc)%nat.
Proof.
  induction w as [|w IH]; intros n acc Hacc; simpl; [auto|].
  destruct (IH (n / 16)%N (hex_digit (n mod 16) :: acc)) as [H1 H2].
  - simpl. rewrite Hacc, hex_digit_lower_hex; [reflexivity|].
    apply N.mod_lt. discriminate.
  - split; [exact H1|]. rewrite H2. simpl. lia.
Qed.

Lemma chars_of_chars l : Str.chars (Str.of_chars l) = l.
Proof. apply list_ascii_of_string_of_list_ascii. Qed.

Lemma length_of_chars l : String.length (Str.of_chars l) = length l.
Proof. induction l as [|c l IH]; [reflexivity|]. simpl. now rewrite IH. Qed.

Lemma is_space_lower_char c : is_space (Str.lower_char c) = is_space c.
Proof. destruct c as [[] [] [] [] [] [] [] []]; reflexivity. Qed.

Lemma lower_hex_lower_char c : lower_hex (Str.lower_char c) = is_hex c.
Proof. destruct c as [[] [] [] [] [] [] [] []]; reflexivity. Qed.

Lemma hex_not_space c : is_hex c = true -> is_space c = false.
Proof. destruct c as [[] [] [] [] [] [] [] []]; simpl; intros H; try reflexivity; discriminate. Qed.

Lemma lower_hex_fixed c : lower_hex c = true -> Str.lower_char c = c /\ is_hex c = true.
Proof.
  unfold lower_hex. intros H. apply andb_true_iff in H as [H1 H2].
  apply Ascii.eqb_eq in H2. auto.
Qed.

Lemma chars_lower s : Str.chars (Str.lower s) = map Str.lower_char (Str.chars s).
Proof. unfold Str.lower. apply chars_of_chars. Qed.

(** Reading hexadecimal bytes ignores the case of the digits. *)
Lemma fromhex_lower n : forall l,
  (length l <= n)%nat -> fromhex (map Str.lower_char l) = fromhex l.
Proof.
  induction n as [|n IH]; intros l Hl.
  - destruct l; [reflexivity | simpl in Hl; lia].
  - destruct l as [|c rest]; [reflexivity|]. simpl in Hl. simpl.
    rewrite is_space_lower_char. destruct (is_space c).
    + apply IH. lia.
    + destruct rest as [|d rest']; [reflexivity|]. simpl in Hl. simpl.
      rewrite !is_hex_lower_char, !lower_char_idem, IH by lia. reflexivity.
Qed.

(** Parsing ignores the case of the hexadecimal digits. *)
Lemma parse_oid_lower s : parse_oid (Str.lower s) = parse_oid s.
Proof.
  unfold parse_oid. rewrite length_lower, chars_lower.
  now rewrite (fromhex_lower (length (Str.chars s))).
Qed.

Lemma parse_oid_same_lower s t : Str.lower s = Str.lower t -> parse_oid s = parse_oid t.
Proof. intros H. now rewrite <- (parse_oid_lower s), <- (parse_oid_lower t), H. Qed.

(** What [bytes.fromhex] returns: the characters that are not white
    space, in lower case; they are hexadecimal digits, an even number of
    them. *)
Lemma fromhex_spec n : forall l t,
  (length l <= n)%nat -> fromhex l = Some t ->
  t = map Str.lower_char (List.filter (fun c => negb (is_space c)) l)
  /\ forallb lower_hex t = true
  /\ Nat.even (length t) = true.
Proof.
  induction n as [|n IH]; intros l t Hl H.
  - destruct l; [|simpl in Hl; lia]. injection H as <-. auto.
  - destruct l as [|c rest]; [injection H as <-; auto|]. simpl in Hl, H.
    destruct (is_space c) eqn:Hc.
    + simpl. rewrite Hc. simpl. apply IH; [lia | assumption].
    + destruct rest as [|d rest']; [discriminate|]. simpl in Hl.
      destruct (is_hex c && is_hex d) eqn:Hh; [|discriminate].
      apply andb_true_iff in Hh as [H1 H2].
      destruct (fromhex rest') as [t'|] eqn:E; [|discriminate]. injection H as <-.
      destruct (IH rest' t' ltac:(lia) E) as (-> & H3 & H4).
      simpl. rewrite Hc, (hex_not_space d H2). simpl.
      rewrite !lower_hex_lower_char, H1, H2. auto.
Qed.

(** Lower-case digits, an even number of them, are read as they are. *)
Lemma fromhex_digits n : forall l,
  (length l <= n)%nat -> forallb lower_hex l = true -> Nat.even (length l) = true ->
  fromhex l = Some l.
Proof.
  induction n as [|n IH]; intros l Hl Hd He.
  - destruct l; [reflexivity | simpl in Hl; lia].
  - destruct l as [|c [|d rest]]; [reflexivity | discriminate |].
    simpl in Hl, Hd. apply andb_true_iff in Hd as [Hc Hd].
    apply andb_true_iff in Hd as [Hd Hr].
    destruct (lower_hex_fixed c Hc) as [Ec Xc], (lower_hex_fixed d Hd) as [Ed Xd].
    simpl. rewrite (hex_not_space c Xc), Xc, Xd, Ec, Ed. simpl.
    rewrite (IH rest); [reflexivity | lia | assumption | exact He].
Qed.

Lemma of_chars_chars s : Str.of_chars (Str.chars s) = s.
Proof. apply string_of_list_ascii_of_string. Qed.

Lemma length_chars s : length (Str.chars s) = String.length s.
Proof. induction s as [|c s IH]; [reflexivity|]. simpl. now rewrite IH. Qed.

(** An identifier of 24 lower-case digits parses to itself. *)
Lemma parse_oid_digits o :
  String.length o = 24%nat -> forallb lower_hex (Str.chars o) = true -> parse_oid o = Some o.
Proof.
  intros Hl Hd. unfold parse_oid. rewrite Hl. simpl.
  rewrite (fromhex_digits (length (Str.chars o))); [|lia|assumption|].
  - simpl. now rewrite of_chars_chars.
  - now rewrite length_chars, Hl.
Qed.

(** An identifier generated by the store parses to itself. *)
Lemma parse_oid_generated n : parse_oid (oid_of_N n) = Some (oid_of_N n).
Proof.
  unfold oid_of_N. destruct (hex_digits_spec 24 n [] eq_refl) as [H1 H2].
  apply parse_oid_digits.
  - now rewrite length_of_chars, H2.
  - now rewrite chars_of_chars.
Qed.

(** What parsing returns. *)
Lemma parse_oid_spec s o :
  parse_oid s = Some o ->
  String.length s = 24%nat
  /\ Str.chars o = map Str.lower_char (List.filter (fun c => negb (is_space c)) (Str.chars s))
  /\ forallb lower_hex (Str.chars o) = true
  /\ Nat.even (String.length o) = true.
Proof.
  unfold parse_oid. destruct (Nat.eqb_spec (String.length s) 24) as [Hl|]; [|discriminate].
  destruct (fromhex (Str.chars s)) as [t|] eqn:E; [|discriminate]. intros H. injection H as <-.
  destruct (fromhex_spec _ _ _ (le_n _) E) as (Ht & Hd & He).
  rewrite chars_of_chars, length_of_chars. auto.
Qed.

Lemma validate_str s : validate (VStr s) = parse_oid s.
Proof. simpl. unfold is_valid. now destruct (parse_oid s). Qed.

Lemma filter_no_space l :
  forallb (fun c => negb (is_space c)) l = true ->
  List.filter (fun c => negb (is_space c)) l = l.
Proof.
  induction l as [|c l IH]; simpl; [reflexivity|]. intros H.
  apply andb_true_iff in H as [Hc Hl]. now rewrite Hc, IH.
Qed.

Lemma forallb_lower_hex_map l :
  forallb lower_hex (map Str.lower_char l) = forallb is_hex l.
Proof.
  induction l as [|c l IH]; [reflexivity|]. simpl. now rewrite lower_hex_lower_char, IH.
Qed.

(** X1.  [PyObjectId.validate] on strings.  A string without white
    space is accepted exactly when it is 24 hexadecimal digits.  Every
    accepted string has 24 characters; the identifier returned is its
    characters other than white space, in lower case: hexadecimal
    digits, an even number of them.  The case of the digits does not
    matter.  The printed form of the identifier is accepted again, as
    the same identifier, exactly when it has 24 digits, that is when the
    string had no white space. *)
Theorem validate_spec :
  (forall s, forallb (fun c => negb (is_space c)) (Str.chars s) = true ->
     validate (VStr s)
     = if (String.length s =? 24)%nat && forallb is_hex (Str.chars s)
       then Some (Str.lower s) else None)
  /\ (forall s o, validate (VStr s) = Some o ->
        String.length s = 24%nat
        /\ Str.chars o = map Str.lower_char
                           (List.filter (fun c => negb (is_space c)) (Str.chars s))
        /\ forallb lower_hex (Str.chars o) = true
        /\ Nat.even (String.length o) = true)
  /\ (forall s, validate (VStr (Str.lower s)) = validate (VStr s))
  /\ (forall s o, validate (VStr s) = Some o ->
        (validate (VStr o) = Some o <-> String.length o = 24%nat)).
Proof.
  split; [|split; [|split]].
  - intros s Hs. rewrite validate_str.
    destruct (Nat.eqb_spec (String.length s) 24) as [Hl|Hl]; simpl.
    + destruct (forallb is_hex (Str.chars s)) eqn:Hd.
      * rewrite <- parse_oid_lower. apply parse_oid_digits.
        -- now rewrite length_lower.
        -- now rewrite chars_lower, forallb_lower_hex_map.
      * destruct (parse_oid s) as [o|] eqn:E; [|reflexivity].
        apply parse_oid_spec in E as (_ & Ho & Hx & _).
        rewrite Ho, (filter_no_space _ Hs), forallb_lower_hex_map in Hx. congruence.
    + unfold parse_oid. now destruct (Nat.eqb_spec (String.length s) 24).
  - intros s o. rewrite validate_str. apply parse_oid_spec.
  - intros s. rewrite !validate_str. apply parse_oid_lower.
  - intros s o. rewrite !validate_str. intros H.
    apply parse_oid_spec in H as (_ & _ & Hx & _). split.
    + intros H. now apply parse_oid_spec in H.
    + intros Hl. now apply parse_oid_digits.
Qed.

End Identifiers.

(** * Identifiers in the handlers *)

Section HandlerIds.

Import Bson Store Schemas Main Spec Routes.
Local Open Scope list_scope.

(** X2.  Identifiers are case-insensitive: two strings that differ only
    in the case of their letters give the same outcome in [get_product],
    [update_cart] and [remove_cart]. *)
Theorem identifiers_ignore_case db now q id id' :
  Str.lower id = Str.lower id' ->
  get_product db id = get_product db id'
  /\ update_cart db now id q = update_cart db now id' q
  /\ remove_cart db id = remove_cart db id'.
Proof.
  intros H. apply parse_oid_same_lower in H.
  unfold get_product, update_cart, remove_cart, ObjectId_of.
  destruct db as [st|]; [|auto]. now rewrite H.
Qed.

(** X3.  An identifier that [ObjectId] refuses (a string that has not 24
    characters, or whose characters are not pairs of hexadecimal digits
    with white space at most between the pairs) makes [get_product],
    [update_cart] and [remove_cart] raise [InvalidId], answered with
    status 500, and leaves the store as it is; a string of another
    length is such an identifier. *)
Theorem malformed_identifier st now q id :
  parse_oid id = None ->
  get_product (Some st) id = Raised InvalidId
  /\ update_cart (Some st) now id q = (Raised InvalidId, Some st)
  /\ remove_cart (Some st) id = (Raised InvalidId, Some st)
  /\ status (get_product (Some st) id) = Some 500%Z
  /\ forall id', String.length id' <> 24%nat -> parse_oid id' = None.
Proof.
  intros H. unfold get_product, update_cart, remove_cart, ObjectId_of.
  rewrite H. repeat split.
  intros id' Hl. unfold parse_oid. now destruct (Nat.eqb_spec (String.length id') 24).
Qed.

Lemma delete_first_none f l :
  (forall d, In d l -> matchb f d = false) -> delete_first f l = l.
Proof.
  induction l as [|d l IH]; intros H; simpl; [reflexivity|].
  rewrite (H d) by now left. f_equal. apply IH. intros x Hx. apply H. now right.
Qed.

Lemma delete_first_split f pre d post :
  (forall x, In x pre -> matchb f x = false) -> matchb f d = true ->
  delete_first f (pre ++ d :: post) = pre ++ post.
Proof.
  induction pre as [|x pre IH]; intros Hpre Hd; simpl.
  - now rewrite Hd.
  - rewrite (Hpre x) by now left. f_equal. apply IH; [|assumption].
    intros y Hy. apply Hpre. now right.
Qed.

Lemma remove_cart_eq st id o :
  parse_oid id = Some o ->
  remove_cart (Some st) id
  = (Ok true, Some (delete_one "cartitem" [Field "_id" (CEq (VOid o))] st)).
Proof. intros H. unfold remove_cart, ObjectId_of. now rewrite H. Qed.

Lemma coll_delete_one name f st :
  coll name (delete_one name f st) = delete_first f (coll name st).
Proof. unfold delete_one, coll. simpl. now rewrite lookup_insert_eq. Qed.

Lemma coll_delete_one_ne name other f st :
  other <> name -> coll other (delete_one name f st) = coll other st.
Proof. intros H. unfold delete_one, coll. simpl. now rewrite lookup_insert_ne by congruence. Qed.

(** X4.  [remove_cart] with an identifier that parses always reports
    success.  It removes the first cart item with that identifier and
    nothing else; when no cart item has the identifier the cart is
    unchanged; other collections are never touched. *)
Theorem remove_cart_effect st id o :
  parse_oid id = Some o ->
  exists st',
    remove_cart (Some st) id = (Ok true, Some st')
    /\ ((forall d, In d (coll "cartitem" st) -> _id d <> Some o) ->
         coll "cartitem" st' = coll "cartitem" st)
    /\ (forall pre it post,
          coll "cartitem" st = pre ++ it :: post -> _id it = Some o ->
          (forall x, In x pre -> _id x <> Some o) ->
          coll "cartitem" st' = pre ++ post)
    /\ (forall name, name <> "cartitem" -> coll name st' = coll name st).
Proof.
  intros Hp. eexists. split; [exact (remove_cart_eq st id o Hp)|]. split; [|split].
  - intros H. rewrite coll_delete_one. apply delete_first_none.
    intros d Hd. rewrite matchb_id. apply bool_decide_eq_false. auto.
  - intros pre it post Hl Hit Hpre. rewrite coll_delete_one, Hl.
    apply delete_first_split.
    + intros x Hx. rewrite matchb_id. apply bool_decide_eq_false. auto.
    + rewrite matchb_id. now apply bool_decide_eq_true.
  - intros name Hn. now apply coll_delete_one_ne.
Qed.

Lemma CartItem_dump_client item : CartItem_dump item !! "client_id" = Some (VStr (client_id item)).
Proof. unfold CartItem_dump. now rewrite lookup_insert_eq. Qed.

Lemma CartItem_dump_product item :
  CartItem_dump item !! "product_id" = Some (VStr (product_id item)).
Proof. unfold CartItem_dump. now rewrite lookup_insert_ne, lookup_insert_eq by discriminate. Qed.

Lemma CartItem_dump_qty item : CartItem_dump item !! "qty" = Some (VInt (qty item)).
Proof. unfold CartItem_dump. now rewrite !lookup_insert_ne, lookup_insert_eq by discriminate. Qed.

(** The encoder takes a cart item exactly when its quantity fits 64
    bits. *)
Lemma CartItem_encodable item :
  encodable_doc {| _id := None; fields := CartItem_dump item |} = int64 (qty item).
Proof.
  apply eq_true_iff_eq. rewrite encodable_doc_spec. simpl. split.
  - intros H. exact (H "qty" _ (CartItem_dump_qty item)).
  - intros Hq k v H. unfold CartItem_dump in H.
    repeat (apply lookup_insert_Some in H as [[_ <-]|[_ H]]; [try reflexivity; exact Hq|]).
    rewrite lookup_empty in H. discriminate.
Qed.

Lemma stored_CartItem_dump item : stored <$> CartItem_dump item = CartItem_dump item.
Proof. unfold CartItem_dump. now rewrite !fmap_insert, fmap_empty. Qed.

Lemma coll_with_item st item :
  coll "cartitem" (with_item item st)
  = coll "cartitem" st
    ++ [{| _id := Some (oid_of_N (next_oid st)); fields := CartItem_dump item |}].
Proof. unfold with_item. rewrite coll_put. simpl. now rewrite stored_CartItem_dump. Qed.

Lemma coll_with_item_ne st item name :
  name <> "cartitem" -> coll name (with_item item st) = coll name st.
Proof. apply coll_put_ne. Qed.

Lemma add_to_cart_eq st item :
  CartItem_valid item = true -> int64 (qty item) = true ->
  add_to_cart (Some st) item = (Ok (oid_of_N (next_oid st)), Some (with_item item st)).
Proof.
  intros H Hq. unfold add_to_cart. rewrite H. cbn [negb].
  rewrite insert_one_ok by now rewrite CartItem_encodable. reflexivity.
Qed.

Lemma add_to_cart_overflow st item :
  CartItem_valid item = true -> int64 (qty item) = false ->
  add_to_cart (Some st) item = (Raised OverflowError, Some (skip_oids 1 st)).
Proof.
  intros H Hq. unfold add_to_cart. rewrite H. cbn [negb].
  rewrite insert_one_overflow by now rewrite CartItem_encodable. reflexivity.
Qed.

(** X5.  [add_to_cart] of an item with a quantity of at least 1 that
    fits 64 bits appends one cart item holding exactly [client_id],
    [product_id] and [qty], returns its identifier (a string that parses
    back to it), and touches no other collection.  A quantity of at
    least 1 that does not fit 64 bits makes the encoder raise
    [OverflowError], and nothing is stored; a quantity below 1 is
    rejected before the handler runs.  No check is made on
    [product_id]. *)
Theorem add_to_cart_effect st item :
  (CartItem_valid item = true -> int64 (qty item) = true ->
     exists o st',
       add_to_cart (Some st) item = (Ok o, Some st')
       /\ parse_oid o = Some o
       /\ coll "cartitem" st'
          = coll "cartitem" st ++ [{| _id := Some o; fields := CartItem_dump item |}]
       /\ (forall name, name <> "cartitem" -> coll name st' = coll name st))
  /\ (CartItem_valid item = true -> int64 (qty item) = false ->
        exists st',
          add_to_cart (Some st) item = (Raised OverflowError, Some st')
          /\ forall name, coll name st' = coll name st)
  /\ ((qty item < 1)%Z -> add_to_cart (Some st) item = (Raised RequestValidation, Some st)).
Proof.
  split; [|split].
  - intros Hv Hq. eexists _, _. split; [now apply add_to_cart_eq|].
    split; [apply parse_oid_generated|]. split; [apply coll_with_item|].
    intros name Hn. now apply coll_with_item_ne.
  - intros Hv Hq. eexists. split; [now apply add_to_cart_overflow|].
    intros name. apply coll_skip_oids.
  - intros Hq. unfold add_to_cart, CartItem_valid.
    destruct (Z.leb_spec 1 (qty item)); [lia | reflexivity].
Qed.

(** X6.  [add_to_cart] does not merge: adding the same item twice
    stores two cart items with the same fields. *)
Theorem add_to_cart_twice st item :
  CartItem_valid item = true -> int64 (qty item) = true ->
  exists o1 st1 o2 st2,
    add_to_cart (Some st) item = (Ok o1, Some st1)
    /\ add_to_cart (Some st1) item = (Ok o2, Some st2)
    /\ coll "cartitem" st2
       = coll "cartitem" st
         ++ [{| _id := Some o1; fields := CartItem_dump item |};
             {| _id := Some o2; fields := CartItem_dump item |}].
Proof.
  intros Hv Hq. eexists _, _, _, _. split; [exact (add_to_cart_eq st item Hv Hq)|].
  split; [exact (add_to_cart_eq _ item Hv Hq)|].
  rewrite !coll_with_item, <- app_assoc. reflexivity.
Qed.

(** X7.  Adding an item and then removing it by the returned identifier
    restores the cart, provided no stored cart item already has that
    identifier. *)
Theorem add_then_remove st item :
  CartItem_valid item = true -> int64 (qty item) = true ->
  (forall d, In d (coll "cartitem" st) -> _id d <> Some (oid_of_N (next_oid st))) ->
  exists o st1 st2,
    add_to_cart (Some st) item = (Ok o, Some st1)
    /\ remove_cart (Some st1) o = (Ok true, Some st2)
    /\ coll "cartitem" st2 = coll "cartitem" st.
Proof.
  intros Hv Hq Hfresh. eexists _, _, _. split; [exact (add_to_cart_eq st item Hv Hq)|].
  split; [exact (remove_cart_eq _ _ _ (parse_oid_generated _))|].
  rewrite coll_delete_one, coll_with_item.
  rewrite delete_first_split; [apply app_nil_r| |].
  - intros x Hx. rewrite matchb_id. apply bool_decide_eq_false. auto.
  - rewrite matchb_id. now apply bool_decide_eq_true.
Qed.

Lemma first_with_id o (l : list document) :
  (exists d, In d l /\ _id d = Some o) ->
  exists pre it post,
    l = pre ++ it :: post /\ _id it = Some o /\ forall x, In x pre -> _id x <> Some o.
Proof.
  intros (d & Hd & Hid). destruct (by_id o l) as [it|] eqn:E.
  - destruct (by_id_split _ _ _ E) as (pre & post & Hl & Hpre).
    destruct (by_id_Some _ _ _ E) as [Hit _]. eauto 6.
  - exfalso. exact (proj1 (by_id_None o l) E d Hd Hid).
Qed.

(** X8.  [update_cart] does not validate the quantity: after adding an
    item, updating it by the returned identifier succeeds for every
    integer [q] that fits 64 bits, zero and negative included, and a
    cart item with that identifier then holds the quantity [q]; for a
    [q] that does not fit, the encoder raises [OverflowError] and the
    store stays as it is. *)
Theorem add_then_update st now item q :
  CartItem_valid item = true -> int64 (qty item) = true ->
  exists o st1,
    add_to_cart (Some st) item = (Ok o, Some st1)
    /\ (int64 q = true ->
          exists st2 it,
            update_cart (Some st1) now o q = (Ok true, Some st2)
            /\ In it (coll "cartitem" st2)
            /\ _id it = Some o
            /\ get "qty" it = Some (VInt q))
    /\ (int64 q = false ->
          update_cart (Some st1) now o q = (Raised OverflowError, Some st1)).
Proof.
  intros Hv Hi.
  set (o := oid_of_N (next_oid st)).
  set (st1 := with_item item st).
  exists o, st1. split; [exact (add_to_cart_eq st item Hv Hi)|]. split.
  - intros Hq.
    destruct (first_with_id o (coll "cartitem" st1)) as (pre & it0 & post & Hl & Hid & Hpre).
    { exists {| _id := Some o; fields := CartItem_dump item |}. split; [|reflexivity].
      unfold st1. rewrite coll_with_item. apply in_or_app. right. now left. }
    eexists _, (apply_set [("qty", VInt q); ("updated_at", VDate (trunc_ms now))] it0).
    split.
    + rewrite (update_cart_eq st1 now o q o (parse_oid_generated _) Hq), Hl.
      rewrite update_first_split.
      * reflexivity.
      * intros x Hx. rewrite matchb_id. apply bool_decide_eq_false. auto.
      * rewrite matchb_id. now apply bool_decide_eq_true.
    + split; [|split].
      * unfold coll. simpl. rewrite lookup_insert_eq. simpl.
        apply in_or_app. right. now left.
      * exact Hid.
      * rewrite apply_set_cart, get_field by discriminate. simpl.
        rewrite lookup_insert_ne by discriminate. apply lookup_insert_eq.
  - intros Hq. exact (update_cart_overflow st1 now o q o (parse_oid_generated _) Hq).
Qed.

End HandlerIds.

(** * Normalization, carts of several clients, reviews and login *)

Section MoreHandlers.

Import Bson Store Schemas Main Spec Routes.
Local Open Scope list_scope.

Lemma iso_not_date x t : iso x <> VDate t.
Proof. destruct x; discriminate. Qed.

(** X9.  A normalized record holds no timestamp value (each became an
    ISO string) and, unless the document was empty, has the key ["id"]:
    the printed identifier, or null for a document without one; a stored
    field named ["id"] is overwritten. *)
Theorem serialize_doc_normal d :
  (forall k v t, serialize_doc d !! k = Some v -> v <> VDate t)
  /\ (is_empty d = false ->
       serialize_doc d !! "id"
       = Some (match _id d with Some o => VStr o | None => VNull end))
  /\ (is_empty d = true -> serialize_doc d = ∅).
Proof.
  unfold serialize_doc. destruct (is_empty d) eqn:E.
  - assert (Hf : fields d = ∅).
    { unfold is_empty in E. destruct (_id d); [discriminate|].
      now apply bool_decide_eq_true in E. }
    rewrite Hf. split; [|split]; [|discriminate|reflexivity].
    intros k v t H. rewrite lookup_empty in H. discriminate.
  - split; [|split]; [| |discriminate].
    + intros k v t H. rewrite lookup_fmap in H.
      destruct (_ !! k) as [x|]; [|discriminate]. injection H as <-. apply iso_not_date.
    + intros _. rewrite lookup_fmap. destruct (_id d); now rewrite lookup_insert_eq.
Qed.

Lemma cart_row_ext st st' it :
  coll "product" st = coll "product" st' -> cart_row st it = cart_row st' it.
Proof. intros H. unfold cart_row. now rewrite H. Qed.

Lemma cart_rows_ext st st' its :
  coll "product" st = coll "product" st' -> cart_rows st its = cart_rows st' its.
Proof.
  intros H. induction its as [|it its IH]; [reflexivity|].
  simpl. now rewrite (cart_row_ext _ _ _ H), IH.
Qed.

Lemma get_cart_eq st c :
  get_cart (Some st) c = cart_rows st (List.filter (owned_by c) (coll "cartitem" st)).
Proof. unfold get_cart. now rewrite to_list_find_eq. Qed.

Lemma owned_by_new c o item :
  owned_by c {| _id := Some o; fields := CartItem_dump item |} = String.eqb (client_id item) c.
Proof.
  unfold owned_by, field_is. rewrite get_field by discriminate. simpl.
  now rewrite CartItem_dump_client.
Qed.

Lemma get_cart_skip_oids n st c : get_cart (Some (skip_oids n st)) c = get_cart (Some st) c.
Proof. rewrite !get_cart_eq. now apply cart_rows_ext. Qed.

Lemma get_cart_with_item_other st item c :
  client_id item <> c -> get_cart (Some (with_item item st)) c = get_cart (Some st) c.
Proof.
  intros Hc. rewrite !get_cart_eq, coll_with_item, List.filter_app.
  rewrite (filter_none (owned_by c) [_]).
  - rewrite app_nil_r. apply cart_rows_ext. now apply coll_with_item_ne.
  - intros x [<-|[]]. rewrite owned_by_new.
    now destruct (String.eqb_spec (client_id item) c).
Qed.

(** X10.  Carts are separate: [add_to_cart] for one client, whatever
    the item and whether or not it is stored, leaves [get_cart] of every
    other client as it was. *)
Theorem add_to_cart_other_client st item c :
  client_id item <> c ->
  exists r st1,
    add_to_cart (Some st) item = (r, Some st1)
    /\ get_cart (Some st1) c = get_cart (Some st) c
    /\ (CartItem_valid item = true -> int64 (qty item) = true -> exists o, r = Ok o).
Proof.
  intros Hc. destruct (CartItem_valid item) eqn:Hv.
  - destruct (int64 (qty item)) eqn:Hq.
    + eexists _, _. split; [exact (add_to_cart_eq st item Hv Hq)|].
      split; [now apply get_cart_with_item_other | eauto].
    + eexists _, _. split; [exact (add_to_cart_overflow st item Hv Hq)|].
      split; [apply get_cart_skip_oids | discriminate].
  - exists (Raised RequestValidation), st. unfold add_to_cart. rewrite Hv.
    split; [reflexivity|]. split; [reflexivity | discriminate].
Qed.

Lemma reference_new o item :
  product_id item <> "" -> parse_oid (product_id item) = None ->
  reference_of {| _id := Some o; fields := CartItem_dump item |} = BadRef.
Proof.
  intros Hne Hbad. unfold reference_of. rewrite get_field by discriminate. simpl.
  rewrite CartItem_dump_product. simpl. rewrite Hbad.
  destruct (product_id item); [congruence | reflexivity].
Qed.

(** X11.  [add_to_cart] accepts a [product_id] that [ObjectId] refuses,
    and from then on [get_cart] of that client fails (status 500)
    instead of listing the cart. *)
Theorem add_to_cart_bad_product st item :
  CartItem_valid item = true -> int64 (qty item) = true ->
  product_id item <> "" -> parse_oid (product_id item) = None ->
  exists o st1,
    add_to_cart (Some st) item = (Ok o, Some st1)
    /\ (get_cart (Some st1) (client_id item) = Raised InvalidId
        \/ get_cart (Some st1) (client_id item) = Raised TypeError)
    /\ status (get_cart (Some st1) (client_id item)) = Some 500%Z.
Proof.
  intros Hv Hq Hne Hbad. eexists _, _. split; [exact (add_to_cart_eq st item Hv Hq)|].
  match goal with |- (?a = _ \/ _) /\ _ =>
    assert (H : a = Raised InvalidId \/ a = Raised TypeError) end.
  { rewrite get_cart_eq. apply cart_rows_bad.
    rewrite coll_with_item, List.filter_app.
    rewrite (filter_single (owned_by (client_id item)))
      by (rewrite owned_by_new; apply String.eqb_refl).
    apply Exists_app. right. constructor. now apply reference_new. }
  split; [exact H|]. destruct H as [-> | ->]; reflexivity.
Qed.

End MoreHandlers.

(** * Reviews and login *)

Section ReviewsLogin.

Import Bson Store Schemas Main Spec Routes.
Local Open Scope list_scope.

Lemma product_reviews_eq st pid :
  product_reviews (Some st) pid
  = Ok (map serialize_doc (List.filter (field_is "product_id" pid) (coll "review" st))).
Proof. unfold product_reviews. now rewrite to_list_find_eq. Qed.

Lemma int64_small z : (- 1000 <= z <= 1000)%Z -> int64 z = true.
Proof.
  intros H. unfold int64. change (2 ^ 63)%Z with 9223372036854775808%Z.
  apply andb_true_iff. split; [apply Z.leb_le | apply Z.ltb_lt]; lia.
Qed.

Lemma review_data_encodable now pid rev :
  Review_valid rev = true ->
  encodable_doc {| _id := None; fields := review_data now pid rev |} = true.
Proof.
  intros Hv. unfold Review_valid in Hv. apply andb_true_iff in Hv as [H1 H2].
  apply encodable_doc_spec. intros k v H. simpl in H. unfold review_data, Review_dump in H.
  repeat (apply lookup_insert_Some in H as [[_ <-]|[_ H]];
          [try reflexivity;
           try (now destruct (comment rev)); try (now destruct (created_at rev));
           apply int64_small; lia|]).
  rewrite lookup_empty in H. discriminate.
Qed.

Lemma add_review_eq st now pid rev :
  Review_valid rev = true ->
  add_review (Some st) now pid rev
  = (Ok (oid_of_N (next_oid st)), Some (with_review now pid rev st)).
Proof.
  intros H. unfold add_review. rewrite H. cbn [negb].
  change (<["created_at" := VDate now]> (<["product_id" := VStr pid]> (Review_dump rev)))
    with (review_data now pid rev).
  rewrite insert_one_ok by now apply review_data_encodable. reflexivity.
Qed.

Lemma coll_with_review st now pid rev :
  coll "review" (with_review now pid rev st)
  = coll "review" st
    ++ [{| _id := Some (oid_of_N (next_oid st));
           fields := stored <$> review_data now pid rev |}].
Proof. unfold with_review. now rewrite coll_put. Qed.

Lemma review_field_is now pid pid' rev o :
  field_is "product_id" pid' {| _id := Some o; fields := stored <$> review_data now pid rev |}
  = String.eqb pid pid'.
Proof.
  unfold field_is. rewrite get_field by discriminate. simpl. unfold review_data.
  now rewrite lookup_fmap, lookup_insert_ne, lookup_insert_eq by discriminate.
Qed.

(** X12.  After [add_review] for the product in the path, the reviews
    listed for that product are those listed before followed by the new
    one; the new review carries the identifier returned, the product of
    the path (whatever [product_id] the body gave), the server time cut
    to the millisecond, as an ISO string (whatever [created_at] the body
    gave), and the name and rating of the body.  The reviews of every
    other product are listed as before.  No product needs to exist. *)
Theorem add_review_then_list st now pid rev :
  Review_valid rev = true ->
  exists o st1 old r,
    add_review (Some st) now pid rev = (Ok o, Some st1)
    /\ product_reviews (Some st) pid = Ok old
    /\ product_reviews (Some st1) pid = Ok (old ++ [r])
    /\ r !! "id" = Some (VStr o)
    /\ r !! "product_id" = Some (VStr pid)
    /\ r !! "created_at" = Some (VStr (isoformat (trunc_ms now)))
    /\ r !! "user_name" = Some (VStr (user_name rev))
    /\ r !! "rating" = Some (VInt (rating rev))
    /\ (forall pid', pid' <> pid ->
          product_reviews (Some st1) pid' = product_reviews (Some st) pid').
Proof.
  intros Hv.
  set (o := oid_of_N (next_oid st)).
  set (new := {| _id := Some o; fields := stored <$> review_data now pid rev |}).
  eexists o, _, _, (serialize_doc new).
  split; [exact (add_review_eq st now pid rev Hv)|].
  split; [apply product_reviews_eq|].
  split.
  { rewrite product_reviews_eq, coll_with_review, List.filter_app.
    rewrite (filter_single (field_is "product_id" pid))
      by (rewrite review_field_is; apply String.eqb_refl).
    now rewrite map_app. }
  split; [now apply serialize_doc_id|].
  assert (Hk : forall k, k <> "id" ->
            serialize_doc new !! k = iso <$> (stored <$> review_data now pid rev !! k)).
  { intros k Hk. rewrite (serialize_doc_other o) by (reflexivity || assumption).
    simpl. now rewrite lookup_fmap. }
  split.
  { rewrite Hk by discriminate. unfold review_data.
    now rewrite lookup_insert_ne, lookup_insert_eq by discriminate. }
  split.
  { rewrite Hk by discriminate. unfold review_data. now rewrite lookup_insert_eq. }
  split.
  { rewrite Hk by discriminate. unfold review_data, Review_dump.
    now rewrite !lookup_insert_ne, lookup_insert_eq by discriminate. }
  split.
  { rewrite Hk by discriminate. unfold review_data, Review_dump.
    now rewrite !lookup_insert_ne, lookup_insert_eq by discriminate. }
  intros pid' Hne. rewrite !product_reviews_eq, coll_with_review, List.filter_app.
  rewrite (filter_none (field_is "product_id" pid') [_]).
  - now rewrite app_nil_r.
  - intros x [<-|[]]. rewrite review_field_is.
    destruct (String.eqb_spec pid pid'); congruence.
Qed.

Lemma matchb_credentials e pw d :
  matchb [Field "email" (CEq (VStr e)); Field "password_hash" (CEq (VStr pw))] d
  = credentials e pw d.
Proof.
  unfold credentials. rewrite <- !matchb_field_is. unfold matchb. simpl.
  now rewrite !andb_true_r.
Qed.

Lemma find_one_first f pre u post :
  (forall d, In d pre -> matchb f d = false) -> matchb f u = true ->
  find_one (pre ++ u :: post) f = Some u.
Proof.
  intros Hpre Hu. unfold find_one. rewrite List.filter_app, filter_none by assumption.
  simpl. now rewrite Hu.
Qed.

(** X13.  [login] succeeds only through a stored user that has both the
    e-mail address and the password: when no user has both it fails with
    401, also when the address exists with another password; otherwise
    it answers with the first such user, its identifier printed, and the
    role ["user"] when the user has none stored. *)
Theorem login_outcome st e pw :
  ((forall d, In d (coll "user" st) -> credentials e pw d = false) ->
     login (Some st) {| login_email := e; login_password := pw |}
     = HTTPException 401 "Invalid credentials")
  /\ (forall pre u post o,
        coll "user" st = pre ++ u :: post ->
        (forall d, In d pre -> credentials e pw d = false) ->
        credentials e pw u = true -> _id u = Some o ->
        exists out,
          login (Some st) {| login_email := e; login_password := pw |} = Ok out
          /\ lo_id out = VStr o
          /\ (forall s, fields u !! "email" = Some (VStr s) -> lo_email out = VStr s)
          /\ (forall s, fields u !! "name" = Some (VStr s) -> lo_name out = VStr s)
          /\ (forall v, fields u !! "role" = Some v -> lo_role out = iso v)
          /\ (fields u !! "role" = None -> lo_role out = VStr "user")).
Proof.
  split.
  - intros H. unfold login. simpl. unfold find_one. rewrite filter_none; [reflexivity|].
    intros d Hd. rewrite matchb_credentials. auto.
  - intros pre u post o Hl Hpre Hu Hid. unfold login. simpl.
    rewrite Hl, (find_one_first _ pre u post)
      by (try (intros d Hd); rewrite matchb_credentials; auto).
    simpl. unfold is_empty. rewrite Hid. eexists. split; [reflexivity|]. simpl.
    unfold dict_get. rewrite (serialize_doc_id o u Hid).
    rewrite !(serialize_doc_other o u) by (assumption || discriminate).
    split; [reflexivity|]. split; [|split; [|split]].
    + intros s Hs. now rewrite Hs.
    + intros s Hs. now rewrite Hs.
    + intros v Hv. now rewrite Hv.
    + intros Hn. now rewrite Hn.
Qed.

End ReviewsLogin.

(** * More on the product listing and on seeding *)

Section ListingMore.

Import Bson Store Schemas Main Spec Routes.
Local Open Scope list_scope.

(** X14.  A page after the last one is empty, with the same total and
    page count as every other page. *)
Theorem list_products_past_end hc st q c mn mx sort limit p :
  (1 <= limit <= 60)%Z -> ge0 mn = true -> ge0 mx = true -> query_modelled q = true ->
  let n := Z.of_nat (length (List.filter (matchb (build_filt q c mn mx)) (coll "product" st))) in
  let pgs := ((n + limit - 1) / limit)%Z in
  (pgs < p)%Z ->
  list_products hc (Some st) q c mn mx sort p limit
  = Ok {| items := []; total := n; page := p; pages := pgs |}.
Proof.
  intros Hl Hmn Hmx Hq n pgs Hp.
  destruct (ceil_div_spec n limit ltac:(lia)) as [Hup Hlow]. fold pgs in Hup, Hlow.
  assert (H0 : (0 <= pgs)%Z) by (unfold pgs; apply Z.div_pos; lia).
  rewrite list_products_eq by (try apply query_valid_intro; auto; lia).
  simpl. rewrite arrange_length. fold n. fold pgs. f_equal. f_equal.
  unfold slice. rewrite drop_ge; [now destruct (Z.to_nat limit)|].
  rewrite arrange_length. nia.
Qed.

(** X15.  The pages 1 to [pages], one after the other, list every
    product that passes the filters exactly once: in the order the store
    holds them when there is no [sort], and in the order [sort] asks for
    when it names a field. *)
Theorem list_products_all_pages hc st q c mn mx sort limit :
  (1 <= limit <= 60)%Z -> ge0 mn = true -> ge0 mx = true ->
  text_modelled q (coll "product" st) = true ->
  exists (f : document -> bool) (docs : list document),
    (forall d, f d = true <-> wanted q c mn mx d)
    /\ Permutation docs (List.filter f (coll "product" st))
    /\ flat_map (fun p => page_items
                            (list_products hc (Some st) q c mn mx sort (Z.of_nat p) limit))
         (seq 1 (Z.to_nat ((Z.of_nat (length docs) + limit - 1) / limit)))
       = map serialize_doc docs
    /\ (given sort = None -> docs = List.filter f (coll "product" st))
    /\ (forall s, given sort = Some s -> field_name (sort_field s) = true ->
          in_order s docs).
Proof.
  intros Hl Hmn Hmx Ht. pose proof (text_modelled_query _ _ Ht) as Hq.
  set (matching := List.filter (matchb (build_filt q c mn mx)) (coll "product" st)).
  exists (matchb (build_filt q c mn mx)), (arrange sort matching).
  split; [intros d; now apply matchb_wanted|].
  split; [apply arrange_perm|]. split; [|split].
  - rewrite pages_concat by auto. fold matching. f_equal.
    apply take_ge.
    destruct (ceil_div_spec (Z.of_nat (length (arrange sort matching))) limit ltac:(lia))
      as [Hup _].
    nia.
  - intros Hs. unfold arrange. now rewrite Hs.
  - intros s Hs Hf. unfold arrange. rewrite Hs.
    pose proof (arrange_in_order s matching (field_name_nonempty s Hf)) as H.
    unfold arrange in H. now rewrite (given_nonempty s (field_name_nonempty s Hf)) in H.
Qed.

Lemma matchb_category q c mn mx d :
  c <> "" ->
  matchb (build_filt q (Some c) mn mx) d
  = field_is "category" c d && matchb (build_filt q None mn mx) d.
Proof.
  intros Hc. rewrite <- matchb_field_is. unfold build_filt.
  rewrite (given_nonempty _ Hc). unfold matchb. rewrite !forallb_app. simpl.
  set (A := forallb _ _). set (C := forallb _ _).
  destruct A, C; simpl; rewrite ?andb_true_r, ?andb_false_r; reflexivity.
Qed.

(** X16.  With a non-empty [category], the result (over all its pages)
    is exactly the products that pass the other filters and whose
    category is that string; the comparison is exact, so it
    distinguishes upper and lower case. *)
Theorem list_products_category hc st q c mn mx sort limit :
  (1 <= limit <= 60)%Z -> ge0 mn = true -> ge0 mx = true -> query_modelled q = true ->
  c <> "" ->
  (exists docs,
     Permutation docs
       (List.filter (fun d => field_is "category" c d && matchb (build_filt q None mn mx) d)
          (coll "product" st))
     /\ forall p, (1 <= p)%Z ->
          exists r, list_products hc (Some st) q (Some c) mn mx sort p limit = Ok r
                    /\ items r = map serialize_doc (slice p limit docs)
                    /\ total r = Z.of_nat (length docs))
  /\ forall d s, fields d !! "category" = Some (VStr s) ->
       (field_is "category" c d = true <-> s = c).
Proof.
  intros Hl Hmn Hmx Hq Hc. split.
  - exists (arrange sort (List.filter (matchb (build_filt q (Some c) mn mx)) (coll "product" st))).
    split.
    + rewrite arrange_perm. erewrite filter_ext; [reflexivity|].
      intros d. now apply matchb_category.
    + intros p Hp. eexists. split.
      * apply list_products_eq; [apply query_valid_intro; auto | assumption].
      * split; reflexivity.
  - intros d s Hs. unfold field_is. rewrite get_field by discriminate. rewrite Hs.
    apply String.eqb_eq.
Qed.

(** X17.  An empty string counts as an absent parameter: an empty [q]
    or [category] filters nothing, and an empty [sort] switches sorting
    off (the default order is not applied), so the page lists the
    matching products in the order the store holds them. *)
Theorem list_products_empty_strings hc db q c mn mx sort p limit :
  list_products hc db (Some "") c mn mx sort p limit
  = list_products hc db None c mn mx sort p limit
  /\ list_products hc db q (Some "") mn mx sort p limit
     = list_products hc db q None mn mx sort p limit
  /\ list_products hc db q c mn mx (Some "") p limit
     = list_products hc db q c mn mx None p limit
  /\ forall st,
       db = Some st -> query_valid mn mx p limit = true -> query_modelled q = true ->
       page_items (list_products hc db q c mn mx (Some "") p limit)
       = map serialize_doc
           (slice p limit
              (List.filter (matchb (build_filt q c mn mx)) (coll "product" st))).
Proof.
  split; [reflexivity|]. split; [reflexivity|]. split; [reflexivity|].
  intros st -> Hv Hq. now rewrite list_products_eq.
Qed.

End ListingMore.

(** * More on seeding, and the store being unavailable *)

Section SeedingMore.

Import Bson Store Schemas Main Spec Routes.
Local Open Scope list_scope.

Lemma put_all_app name ds : forall st,
  exists new,
    coll name (put_all name ds st) = coll name st ++ new
    /\ map fields new = map (fun d => stored <$> fields d) ds.
Proof.
  induction ds as [|d ds IH]; intros st.
  - exists []. split; [now rewrite app_nil_r | reflexivity].
  - rewrite put_all_cons. destruct (IH (put name d st)) as (new & H1 & H2).
    rewrite coll_put in H1. eexists (_ :: new). split.
    + rewrite H1, <- app_assoc. reflexivity.
    + simpl. now rewrite H2.
Qed.

(** Documents without a timestamp are stored as they are. *)
Lemma stored_undated (ds : list document) :
  forallb (fun d => forallb (fun kv => match snd kv with VDate _ => false | _ => true end)
                      (map_to_list (fields d))) ds = true ->
  map (fun d => stored <$> fields d) ds = map fields ds.
Proof.
  intros H. apply map_ext_in. intros d Hd.
  rewrite forallb_forall in H. specialize (H d Hd). rewrite forallb_forall in H.
  apply map_eq. intros k. rewrite lookup_fmap.
  destruct (fields d !! k) as [v|] eqn:E; [|reflexivity]. simpl. f_equal.
  assert (Hin : In (k, v) (map_to_list (fields d)))
    by (apply list_elem_of_In; now apply elem_of_map_to_list).
  specialize (H _ Hin). simpl in H. now destruct v.
Qed.

Lemma stored_seed_categories :
  map (fun d => stored <$> fields d) seed_categories = map fields seed_categories.
Proof. apply stored_undated. vm_compute. reflexivity. Qed.

Lemma stored_seed_products :
  map (fun d => stored <$> fields d) seed_products = map fields seed_products.
Proof. apply stored_undated. vm_compute. reflexivity. Qed.

(** X18.  On a store without products, [seed_data] looks at nothing
    else: it appends the three sample categories to whatever categories
    are stored, stores the 24 sample products, and leaves every other
    collection as it is. *)
Theorem seed_data_fresh st :
  coll "product" st = [] ->
  exists st1 cats,
    seed_data (Some st) = (Ok (Inserted 24), Some st1)
    /\ coll "category" st1 = coll "category" st ++ cats
    /\ map fields cats = map fields seed_categories
    /\ length cats = 3%nat
    /\ map fields (coll "product" st1) = map fields seed_products
    /\ (forall name, name <> "category" -> name <> "product" ->
          coll name st1 = coll name st).
Proof.
  intros E.
  destruct (put_all_app "category" seed_categories st) as (cats & Hc1 & Hc2).
  destruct (put_all_app "product" seed_products
              (put_all "category" seed_categories st)) as (prods & Hp1 & Hp2).
  rewrite (coll_put_all_ne "category" "product") in Hp1 by discriminate.
  rewrite E, app_nil_l in Hp1.
  rewrite stored_seed_categories in Hc2. rewrite stored_seed_products in Hp2.
  exists (put_all "product" seed_products (put_all "category" seed_categories st)), cats.
  split; [exact (seed_data_empty st E)|].
  split; [rewrite (coll_put_all_ne "product" "category") by discriminate; exact Hc1|].
  split; [exact Hc2|].
  split; [apply (f_equal (@length _)) in Hc2; rewrite !length_map in Hc2; exact Hc2|].
  split; [rewrite Hp1; exact Hp2|].
  intros name H1 H2. rewrite !coll_put_all_ne by congruence. reflexivity.
Qed.

Lemma field_is_category c d : field_is "category" c d = in_category c (fields d).
Proof. unfold field_is, in_category. now rewrite get_field by discriminate. Qed.

Lemma filter_all_in {A} (P : A -> bool) (l : list A) :
  (forall x, In x l -> P x = true) -> List.filter P l = l.
Proof.
  induction l as [|x l IH]; intros H; simpl; [reflexivity|].
  rewrite (H x) by now left. f_equal. apply IH. intros y Hy. apply H. now right.
Qed.

Lemma seeded_cards (l : list document) :
  map fields l = map fields seed_products ->
  List.filter (matchb (build_filt None (Some "cards") None None)) l = l.
Proof.
  intros H. apply filter_all_in. intros d Hd.
  rewrite matchb_category by discriminate. simpl. rewrite andb_true_r, field_is_category.
  assert (Hall : forallb (in_category "cards") (map fields seed_products) = true)
    by (vm_compute; reflexivity).
  rewrite forallb_forall in Hall. apply Hall. rewrite <- H. now apply in_map.
Qed.

(** X19.  Seeding a store without products and then listing the
    category ["cards"] with 12 items per page gives 12 items on the
    first page, 24 in total, on 2 pages, whatever the sort and whatever
    else the store holds. *)
Theorem seed_then_list hc st sort :
  coll "product" st = [] ->
  exists st1 r,
    seed_data (Some st) = (Ok (Inserted 24), Some st1)
    /\ list_products hc (Some st1) None (Some "cards") None None sort 1 12 = Ok r
    /\ length (items r) = 12%nat /\ total r = 24%Z /\ page r = 1%Z /\ pages r = 2%Z.
Proof.
  intros E.
  set (st1 := put_all "product" seed_products (put_all "category" seed_categories st)).
  assert (Hp : map fields (coll "product" st1) = map fields seed_products).
  { destruct (put_all_app "product" seed_products
                (put_all "category" seed_categories st)) as (prods & Hp1 & Hp2).
    rewrite (coll_put_all_ne "category" "product") in Hp1 by discriminate.
    rewrite E, app_nil_l in Hp1. unfold st1. rewrite Hp1, Hp2. apply stored_seed_products. }
  exists st1. eexists. split; [exact (seed_data_empty st E)|]. split.
  - apply list_products_eq; reflexivity.
  - cbv zeta. cbn [items total page pages]. rewrite arrange_length, (seeded_cards _ Hp).
    assert (Hlen : length (coll "product" st1) = 24%nat).
    { apply (f_equal (@length _)) in Hp. rewrite !length_map in Hp.
      now rewrite Hp, length_seed_products. }
    rewrite Hlen. split; [|auto].
    unfold slice. rewrite length_map, length_take, length_drop, arrange_length, Hlen.
    reflexivity.
Qed.

(** X20.  Without a store the handlers differ: [list_products],
    [get_cart], [list_categories] and [product_reviews] answer with an
    empty result; [get_product], [login] and [seed_data] answer 500
    through [HTTPException]; [add_to_cart], [update_cart],
    [remove_cart] and [add_review] raise [TypeError]. *)
Theorem store_unavailable :
  (forall hc q c mn mx sort p limit,
     query_valid mn mx p limit = true ->
     list_products hc None q c mn mx sort p limit
     = Ok {| items := []; total := 0; page := p; pages := 0 |})
  /\ (forall c, get_cart None c = Ok [])
  /\ list_categories None = Ok []
  /\ (forall pid, product_reviews None pid = Ok [])
  /\ (forall id, get_product None id = HTTPException 500 "Database not available")
  /\ (forall payload, login None payload = HTTPException 500 "Database not available")
  /\ seed_data None = (HTTPException 500 "Database not available", None)
  /\ (forall item, CartItem_valid item = true ->
        add_to_cart None item = (Raised TypeError, None))
  /\ (forall now id q, update_cart None now id q = (Raised TypeError, None))
  /\ (forall id, remove_cart None id = (Raised TypeError, None))
  /\ (forall now pid rev, Review_valid rev = true ->
        add_review None now pid rev = (Raised TypeError, None)).
Proof.
  split. { intros hc q c mn mx sort p limit H. unfold list_products. now rewrite H. }
  do 6 (split; [reflexivity|]).
  split. { intros item H. unfold add_to_cart. now rewrite H. }
  do 2 (split; [reflexivity|]).
  intros now pid rev H. unfold add_review. now rewrite H.
Qed.

End SeedingMore.

Section MoreWitnesses.

Import Bson Store Schemas Main Spec Examples Routes.
Local Open Scope list_scope.

Lemma identifiers_ignore_case_witness :
  Str.lower "00000000000000000000000A" = Str.lower "00000000000000000000000a"
  /\ get_product (Some seeded_db) "00000000000000000000000A"
     = get_product (Some seeded_db) "00000000000000000000000a"
  /\ update_cart (Some seeded_db) noon "00000000000000000000000A" 2
     = update_cart (Some seeded_db) noon "00000000000000000000000a" 2
  /\ remove_cart (Some seeded_db) "00000000000000000000000A"
     = remove_cart (Some seeded_db) "00000000000000000000000a".
Proof.
  split; [reflexivity|].
  exact (identifiers_ignore_case (Some seeded_db) noon 2 "00000000000000000000000A"
           "00000000000000000000000a" eq_refl).
Defined.

Lemma malformed_identifier_witness :
  parse_oid "abc" = None
  /\ get_product (Some cart_db) "abc" = Raised InvalidId
  /\ update_cart (Some cart_db) noon "abc" 1 = (Raised InvalidId, Some cart_db)
  /\ remove_cart (Some cart_db) "abc" = (Raised InvalidId, Some cart_db)
  /\ status (get_product (Some cart_db) "abc") = Some 500%Z
  /\ forall id', String.length id' <> 24%nat -> parse_oid id' = None.
Proof.
  split; [reflexivity|]. exact (malformed_identifier cart_db noon 1 "abc" eq_refl).
Defined.

Lemma remove_cart_effect_witness :
  parse_oid "00000000000000000000001b" = Some "00000000000000000000001b"
  /\ exists st',
       remove_cart (Some cart_db) "00000000000000000000001b" = (Ok true, Some st')
       /\ ((forall d, In d (coll "cartitem" cart_db) ->
              _id d <> Some "00000000000000000000001b") ->
            coll "cartitem" st' = coll "cartitem" cart_db)
       /\ (forall pre it post,
             coll "cartitem" cart_db = pre ++ it :: post ->
             _id it = Some "00000000000000000000001b" ->
             (forall x, In x pre -> _id x <> Some "00000000000000000000001b") ->
             coll "cartitem" st' = pre ++ post)
       /\ (forall name, name <> "cartitem" -> coll name st' = coll name cart_db).
Proof.
  split; [reflexivity|].
  exact (remove_cart_effect cart_db "00000000000000000000001b"
           "00000000000000000000001b" eq_refl).
Defined.

Lemma add_to_cart_effect_witness :
  CartItem_valid pen = true /\ int64 (qty pen) = true
  /\ CartItem_valid crate = true /\ int64 (qty crate) = false
  /\ (exists o st',
        add_to_cart (Some cart_db) pen = (Ok o, Some st')
        /\ parse_oid o = Some o
        /\ coll "cartitem" st'
           = coll "cartitem" cart_db ++ [{| _id := Some o; fields := CartItem_dump pen |}]
        /\ (forall name, name <> "cartitem" -> coll name st' = coll name cart_db))
  /\ (exists st',
        add_to_cart (Some cart_db) crate = (Raised OverflowError, Some st')
        /\ forall name, coll name st' = coll name cart_db).
Proof.
  do 4 (split; [reflexivity|]). split.
  - exact (proj1 (add_to_cart_effect cart_db pen) eq_refl eq_refl).
  - exact (proj1 (proj2 (add_to_cart_effect cart_db crate)) eq_refl eq_refl).
Defined.

Lemma add_to_cart_twice_witness :
  CartItem_valid pen = true /\ int64 (qty pen) = true
  /\ exists o1 st1 o2 st2,
       add_to_cart (Some cart_db) pen = (Ok o1, Some st1)
       /\ add_to_cart (Some st1) pen = (Ok o2, Some st2)
       /\ coll "cartitem" st2
          = coll "cartitem" cart_db
            ++ [{| _id := Some o1; fields := CartItem_dump pen |};
                {| _id := Some o2; fields := CartItem_dump pen |}].
Proof.
  split; [reflexivity|]. split; [reflexivity|].
  exact (add_to_cart_twice cart_db pen eq_refl eq_refl).
Defined.

Lemma add_then_remove_witness :
  CartItem_valid pen = true /\ int64 (qty pen) = true
  /\ length (coll "cartitem" cart_db) = 3%nat
  /\ (forall d, In d (coll "cartitem" cart_db) -> _id d <> Some (oid_of_N (next_oid cart_db)))
  /\ exists o st1 st2,
       add_to_cart (Some cart_db) pen = (Ok o, Some st1)
       /\ remove_cart (Some st1) o = (Ok true, Some st2)
       /\ coll "cartitem" st2 = coll "cartitem" cart_db.
Proof.
  assert (H : forall d, In d (coll "cartitem" cart_db) ->
                _id d <> Some (oid_of_N (next_oid cart_db))).
  { apply by_id_None. vm_compute. reflexivity. }
  split; [reflexivity|]. split; [reflexivity|]. split; [vm_compute; reflexivity|].
  split; [exact H|].
  exact (add_then_remove cart_db pen eq_refl eq_refl H).
Defined.

Lemma add_then_update_witness :
  CartItem_valid pen = true /\ int64 (qty pen) = true
  /\ int64 (-3) = true /\ int64 (2 ^ 63) = false
  /\ exists o st1,
       add_to_cart (Some cart_db) pen = (Ok o, Some st1)
       /\ (exists st2 it,
             update_cart (Some st1) noon o (-3) = (Ok true, Some st2)
             /\ In it (coll "cartitem" st2)
             /\ _id it = Some o
             /\ get "qty" it = Some (VInt (-3)))
       /\ update_cart (Some st1) noon o (2 ^ 63) = (Raised OverflowError, Some st1).
Proof.
  do 4 (split; [reflexivity|]).
  destruct (add_then_update cart_db noon pen (-3) eq_refl eq_refl) as (o & st1 & Ha & Hu & _).
  destruct (add_then_update cart_db noon pen (2 ^ 63) eq_refl eq_refl)
    as (o' & st1' & Ha' & _ & Hv).
  rewrite Ha in Ha'. injection Ha' as <- <-.
  exists o, st1. split; [exact Ha|]. split; [exact (Hu eq_refl) | exact (Hv eq_refl)].
Defined.

Lemma add_to_cart_other_client_witness :
  client_id pen <> "c1"
  /\ exists r st1,
       add_to_cart (Some cart_db) pen = (r, Some st1)
       /\ get_cart (Some st1) "c1" = get_cart (Some cart_db) "c1"
       /\ (CartItem_valid pen = true -> int64 (qty pen) = true -> exists o, r = Ok o).
Proof.
  assert (H : client_id pen <> "c1") by discriminate.
  split; [exact H|]. exact (add_to_cart_other_client cart_db pen "c1" H).
Defined.

Lemma add_to_cart_bad_product_witness :
  CartItem_valid pen = true /\ int64 (qty pen) = true
  /\ product_id pen <> "" /\ parse_oid (product_id pen) = None
  /\ exists o st1,
       add_to_cart (Some cart_db) pen = (Ok o, Some st1)
       /\ (get_cart (Some st1) (client_id pen) = Raised InvalidId
           \/ get_cart (Some st1) (client_id pen) = Raised TypeError)
       /\ status (get_cart (Some st1) (client_id pen)) = Some 500%Z.
Proof.
  assert (H : product_id pen <> "") by discriminate.
  split; [reflexivity|]. split; [reflexivity|]. split; [exact H|]. split; [reflexivity|].
  exact (add_to_cart_bad_product cart_db pen eq_refl eq_refl H eq_refl).
Defined.

Lemma add_review_then_list_witness :
  Review_valid praise = true
  /\ length (coll "review" review_db) = 2%nat
  /\ trunc_ms half_past <> half_past
  /\ exists o st1 old r,
       add_review (Some review_db) half_past "p1" praise = (Ok o, Some st1)
       /\ product_reviews (Some review_db) "p1" = Ok old
       /\ product_reviews (Some st1) "p1" = Ok (old ++ [r])
       /\ r !! "id" = Some (VStr o)
       /\ r !! "product_id" = Some (VStr "p1")
       /\ r !! "created_at" = Some (VStr (isoformat (trunc_ms half_past)))
       /\ r !! "user_name" = Some (VStr (user_name praise))
       /\ r !! "rating" = Some (VInt (rating praise))
       /\ (forall pid', pid' <> "p1" ->
             product_reviews (Some st1) pid' = product_reviews (Some review_db) pid').
Proof.
  split; [reflexivity|]. split; [vm_compute; reflexivity|]. split; [discriminate|].
  exact (add_review_then_list review_db half_past "p1" praise eq_refl).
Defined.

Lemma login_outcome_witness :
  (forall d, In d (coll "user" user_db) -> credentials "bob@shop.io" "wrong" d = false)
  /\ login (Some user_db) {| login_email := "bob@shop.io"; login_password := "wrong" |}
     = HTTPException 401 "Invalid credentials".
Proof.
  assert (H : forall d, In d (coll "user" user_db) ->
                credentials "bob@shop.io" "wrong" d = false).
  { assert (Hb : forallb (fun d => negb (credentials "bob@shop.io" "wrong" d))
                   (coll "user" user_db) = true) by (vm_compute; reflexivity).
    rewrite forallb_forall in Hb. intros d Hd. apply negb_true_iff. now apply Hb. }
  split; [exact H|]. exact (proj1 (login_outcome user_db "bob@shop.io" "wrong") H).
Defined.

Lemma list_products_past_end_witness :
  (1 <= 12 <= 60)%Z /\ ge0 None = true /\ query_modelled (Some "card") = true
  /\ length (List.filter (matchb (build_filt (Some "card") None None None))
               (coll "product" seeded_db)) = 24%nat
  /\ (((Z.of_nat (length (List.filter (matchb (build_filt (Some "card") None None None))
                            (coll "product" seeded_db))) + 12 - 1) / 12 < 3)%Z)
  /\ list_products true (Some seeded_db) (Some "card") None None None (Some "price") 3 12
     = Ok {| items := [];
             total := Z.of_nat (length (List.filter
                                          (matchb (build_filt (Some "card") None None None))
                                          (coll "product" seeded_db)));
             page := 3;
             pages := (Z.of_nat (length (List.filter
                                           (matchb (build_filt (Some "card") None None None))
                                           (coll "product" seeded_db))) + 12 - 1) / 12 |}.
Proof.
  assert (H : ((Z.of_nat (length (List.filter
                                    (matchb (build_filt (Some "card") None None None))
                                    (coll "product" seeded_db))) + 12 - 1) / 12 < 3)%Z)
    by (vm_compute; reflexivity).
  split; [lia|]. split; [reflexivity|]. split; [reflexivity|].
  split; [vm_compute; reflexivity|]. split; [exact H|].
  exact (list_products_past_end true seeded_db (Some "card") None None None (Some "price") 12 3
           ltac:(lia) eq_refl eq_refl eq_refl H).
Defined.

Lemma list_products_all_pages_witness :
  (1 <= 5 <= 60)%Z /\ ge0 None = true
  /\ text_modelled (Some "card") (coll "product" seeded_db) = true
  /\ exists (f : document -> bool) (docs : list document),
       (forall d, f d = true <-> wanted (Some "card") None None None d)
       /\ Permutation docs (List.filter f (coll "product" seeded_db))
       /\ flat_map (fun p => page_items
                               (list_products true (Some seeded_db) (Some "card") None None
                                  None (Some "-price") (Z.of_nat p) 5))
            (seq 1 (Z.to_nat ((Z.of_nat (length docs) + 5 - 1) / 5)))
          = map serialize_doc docs
       /\ (given (Some "-price") = None -> docs = List.filter f (coll "product" seeded_db))
       /\ (forall s, given (Some "-price") = Some s -> field_name (sort_field s) = true ->
             in_order s docs).
Proof.
  assert (H : text_modelled (Some "card") (coll "product" seeded_db) = true)
    by (vm_compute; reflexivity).
  split; [lia|]. split; [reflexivity|]. split; [exact H|].
  exact (list_products_all_pages true seeded_db (Some "card") None None None (Some "-price") 5
           ltac:(lia) eq_refl eq_refl H).
Defined.

Lemma list_products_category_witness :
  (1 <= 12 <= 60)%Z /\ ge0 None = true /\ query_modelled None = true /\ "cards" <> ""
  /\ exists docs,
       Permutation docs
         (List.filter (fun d => field_is "category" "cards" d
                                && matchb (build_filt None None None None) d)
            (coll "product" seeded_db))
       /\ forall p, (1 <= p)%Z ->
            exists r, list_products true (Some seeded_db) None (Some "cards") None None None
                        p 12 = Ok r
                      /\ items r = map serialize_doc (slice p 12 docs)
                      /\ total r = Z.of_nat (length docs).
Proof.
  assert (H : "cards" <> "") by discriminate.
  split; [lia|]. split; [reflexivity|]. split; [reflexivity|]. split; [exact H|].
  exact (proj1 (list_products_category true seeded_db None "cards" None None None 12
                  ltac:(lia) eq_refl eq_refl eq_refl H)).
Defined.

Lemma seed_data_fresh_witness :
  coll "product" empty_db = []
  /\ exists st1 cats,
       seed_data (Some empty_db) = (Ok (Inserted 24), Some st1)
       /\ coll "category" st1 = coll "category" empty_db ++ cats
       /\ map fields cats = map fields seed_categories
       /\ length cats = 3%nat
       /\ map fields (coll "product" st1) = map fields seed_products
       /\ (forall name, name <> "category" -> name <> "product" ->
             coll name st1 = coll name empty_db).
Proof. split; [reflexivity|]. exact (seed_data_fresh empty_db eq_refl). Defined.

Lemma seed_then_list_witness :
  coll "product" empty_db = []
  /\ exists st1 r,
       seed_data (Some empty_db) = (Ok (Inserted 24), Some st1)
       /\ list_products true (Some st1) None (Some "cards") None None (Some "-price") 1 12
          = Ok r
       /\ length (items r) = 12%nat /\ total r = 24%Z /\ page r = 1%Z /\ pages r = 2%Z.
Proof.
  split; [reflexivity|]. exact (seed_then_list true empty_db (Some "-price") eq_refl).
Defined.

End MoreWitnesses.

(** * Rejected registrations, and a cart after an addition *)

Section RegisterCart.

Import Bson Store Schemas Main Spec Examples Routes.
Local Open Scope list_scope.

Variable EmailStr : string -> option string.

(** X21.  [register] stores nothing when it fails: with a stored user
    of the same address it answers 400 without validating anything, and
    with an address the validator rejects it raises the validation
    error. *)
Theorem register_rejected st payload :
  (forall pre u post,
     coll "user" st = pre ++ u :: post ->
     (forall d, In d pre -> field_is "email" (in_email payload) d = false) ->
     field_is "email" (in_email payload) u = true -> is_empty u = false ->
     register EmailStr (Some st) payload
     = (HTTPException 400 "Email already registered", Some st))
  /\ ((forall d, In d (coll "user" st) -> field_is "email" (in_email payload) d = false) ->
      EmailStr (in_email payload) = None ->
      register EmailStr (Some st) payload = (Raised ValidationError, Some st)).
Proof.
  split.
  - intros pre u post Hl Hpre Hu He. unfold register.
    rewrite Hl, (find_one_first _ pre u post)
      by (try (intros d Hd); rewrite matchb_field_is; auto).
    simpl. now rewrite He.
  - intros Hfresh Hv. unfold register. rewrite (find_one_none _ _ _ Hfresh). simpl.
    unfold new_User. now rewrite Hv.
Qed.

Lemma cart_rows_app st a b :
  cart_rows st (a ++ b)
  = (do ra <- cart_rows st a; do rb <- cart_rows st b; Ok (ra ++ rb)).
Proof.
  induction a as [|it a IH]; simpl.
  - now destruct (cart_rows st b).
  - destruct (cart_row st it); simpl; try reflexivity.
    rewrite IH. destruct (cart_rows st a); simpl; try reflexivity.
    now destruct (cart_rows st b).
Qed.

Lemma cart_rows_single st it r : cart_row st it = Ok r -> cart_rows st [it] = Ok [r].
Proof. intros H. unfold cart_rows. now rewrite H. Qed.

(** X22.  After [add_to_cart] of an item whose [product_id] is empty or
    an identifier, [get_cart] of that client lists the rows it listed
    before followed by the row of the new item. *)
Theorem add_then_get_cart st item rows :
  CartItem_valid item = true -> int64 (qty item) = true ->
  product_id item = "" \/ is_valid (product_id item) = true ->
  get_cart (Some st) (client_id item) = Ok rows ->
  exists o st1 row,
    add_to_cart (Some st) item = (Ok o, Some st1)
    /\ get_cart (Some st1) (client_id item) = Ok (rows ++ [row])
    /\ is_row st1 {| _id := Some o; fields := CartItem_dump item |} row.
Proof.
  intros Hv Hq Hp Hrows.
  set (o := oid_of_N (next_oid st)).
  set (new := {| _id := Some o; fields := CartItem_dump item |}).
  set (st1 := with_item item st).
  assert (Hgood : reference_of new <> BadRef).
  { unfold reference_of, new. rewrite get_field by discriminate. simpl.
    rewrite CartItem_dump_product. simpl.
    destruct Hp as [-> | Hp]; [discriminate|].
    unfold is_valid in Hp. destruct (parse_oid (product_id item)); [|discriminate].
    destruct (Str.nonempty (product_id item)); discriminate. }
  exists o, st1, (<["product" := resolved st1 new]> (JVal <$> serialize_doc new)).
  split; [exact (add_to_cart_eq st item Hv Hq)|]. split; [|apply is_row_intro].
  rewrite get_cart_eq in *. unfold st1. rewrite coll_with_item, List.filter_app.
  rewrite (filter_single (owned_by (client_id item)))
    by (rewrite owned_by_new; apply String.eqb_refl).
  rewrite cart_rows_app.
  rewrite (cart_rows_ext _ st (List.filter _ (coll "cartitem" st)))
    by (now apply coll_with_item_ne).
  rewrite Hrows. fold o new st1.
  now rewrite (cart_rows_single st1 new _ (cart_row_good st1 new Hgood)).
Qed.

End RegisterCart.

Section RegisterCartWitnesses.

Import Bson Store Schemas Main Spec Examples Routes.
Local Open Scope list_scope.

Lemma register_rejected_witness :
  (forall d, In d (coll "user" empty_db) -> field_is "email" "no-at-sign" d = false)
  /\ accepts_at "no-at-sign" = None
  /\ register accepts_at (Some empty_db)
       {| in_name := "Eve"; in_email := "no-at-sign"; in_password := "pw" |}
     = (Raised ValidationError, Some empty_db).
Proof.
  assert (H : forall d, In d (coll "user" empty_db) -> field_is "email" "no-at-sign" d = false)
    by (intros d []).
  split; [exact H|]. split; [reflexivity|].
  exact (proj2 (register_rejected accepts_at empty_db
                  {| in_name := "Eve"; in_email := "no-at-sign"; in_password := "pw" |})
           H eq_refl).
Defined.

Lemma add_then_get_cart_witness :
  CartItem_valid card = true /\ int64 (qty card) = true
  /\ is_valid (product_id card) = true
  /\ exists rows,
       get_cart (Some cart_db) (client_id card) = Ok rows
       /\ length rows = 3%nat
       /\ exists o st1 row,
            add_to_cart (Some cart_db) card = (Ok o, Some st1)
            /\ get_cart (Some st1) (client_id card) = Ok (rows ++ [row])
            /\ is_row st1 {| _id := Some o; fields := CartItem_dump card |} row.
Proof.
  do 3 (split; [reflexivity|]).
  assert (Hgood : Forall (fun it => reference_of it <> BadRef)
                    (List.filter (owned_by "c1") (coll "cartitem" cart_db))).
  { apply List.Forall_forall. intros it Hit.
    assert (Hb : forallb (fun it => match reference_of it with BadRef => false | _ => true end)
                   (List.filter (owned_by "c1") (coll "cartitem" cart_db)) = true)
      by (vm_compute; reflexivity).
    rewrite forallb_forall in Hb. specialize (Hb it Hit).
    intros E. rewrite E in Hb. discriminate. }
  destruct (cart_rows_good cart_db _ Hgood) as (rows & Hrows & Hall).
  assert (Hget : get_cart (Some cart_db) (client_id card) = Ok rows)
    by (rewrite get_cart_eq; exact Hrows).
  exists rows. split; [exact Hget|]. split.
  - rewrite <- (Forall2_length _ _ _ Hall). vm_compute. reflexivity.
  - exact (add_then_get_cart cart_db card rows eq_refl eq_refl (or_intror eq_refl) Hget).
Defined.

End RegisterCartWitnesses.
